(** * HCCB: a colour-barcode codec, its encoder and its two readers

    A shallow embedding of [hccbSvg.py] (the encoder), [hccb_reader.py] and
    [hccb-opencv.py] (the two readers), followed by the properties of the
    design document checked against it.

    Conventions of the embedding:
    - a Python [int] is a [Z]; a byte is a [Z] in [0, 256);
    - a Python [float] is a real number: rounding is not modelled, so the
      geometric statements are those of exact arithmetic;
    - a Python exception is a constructor of [exn], and code that can raise
      returns a [result];
    - the [reedsolo] library is not part of the sources: it is an interface
      ([RSCodec]) with the laws the development relies on, and a reference
      instance shows the laws can be met. *)

From Stdlib Require Import ZArith String List Bool Lia Reals Lra.
Import ListNotations.

Local Open Scope Z_scope.

(* ================================================================== *)
(** * Python values, exceptions and sequences *)
(* ================================================================== *)

Module Py.

(** The exceptions the three files can raise.  [GeometryError] is the name
    the design document gives to layout failures; no statement of the
    sources constructs it. *)
Inductive exn : Set :=
| ZeroDivisionError
| IndexError
| ValueError
| KeyError
| ReedSolomonError
| GeometryError.

Inductive result (A : Type) : Type :=
| Ok (a : A)
| Raise (e : exn).

Arguments Ok {A} a.
Arguments Raise {A} e.

Definition bind {A B : Type} (m : result A) (k : A -> result B) : result B :=
  match m with
  | Ok a => k a
  | Raise e => Raise e
  end.

(** [for x in l: out.append(f(x))], stopping at the first exception. *)
Fixpoint mapM {A B : Type} (f : A -> result B) (l : list A) : result (list B) :=
  match l with
  | [] => Ok []
  | a :: tl =>
      bind (f a) (fun b => bind (mapM f tl) (fun bs => Ok (b :: bs)))
  end.

(** [l[i]]: a negative index counts from the end, anything outside the list
    raises [IndexError]. *)
Definition getitem {A : Type} (l : list A) (i : Z) : result A :=
  let n := Z.of_nat (length l) in
  let k := if i <? 0 then i + n else i in
  if (0 <=? k) && (k <? n) then
    match nth_error l (Z.to_nat k) with
    | Some a => Ok a
    | None => Raise IndexError
    end
  else Raise IndexError.

(** [range(n)] as a list of integers (empty when [n <= 0]). *)
Definition range (n : Z) : list Z := map Z.of_nat (seq 0 (Z.to_nat n)).

(** [l[i:j]] for [0 <= i]. *)
Definition slice {A : Type} (l : list A) (i j : nat) : list A :=
  firstn (j - i) (skipn i l).

(** [[l[i:i+step] for i in range(0, len(l), step)]] *)
Definition chunks {A : Type} (step : nat) (l : list A) : list (list A) :=
  map (fun k => slice l (k * step) (k * step + step))
      (seq 0 ((length l + step - 1) / step)).

(** [math.ceil(a / b)] for integers [a] and [b > 0]: the true quotient of
    two integers is correctly rounded, so below 2^53 its ceiling is the
    exact one. *)
Definition ceil_div (a b : Z) : Z := - ((- a) / b).

(** [bytes(l)] and [bytearray.append]: every element must be in [range(256)]. *)
Definition is_byte (v : Z) : bool := (0 <=? v) && (v <? 256).

Definition to_bytes (l : list Z) : result (list Z) :=
  if forallb is_byte l then Ok l else Raise ValueError.

End Py.

Export Py.

Notation "x <- m ;; k" := (bind m (fun x => k))
  (at level 61, m at next level, right associativity).

(* ================================================================== *)
(** * The encoder's symbol alphabet and bit packer ([hccbSvg.py]) *)
(* ================================================================== *)

Module Packer.

Local Open Scope string_scope.

Definition FOUR_COLOR_MAP : list string :=
  [ "#000000"; "#FFFF45"; "#12FF0E"; "#FF1400" ].

Definition EIGHT_COLOR_MAP : list string :=
  [ "#000000"; "#FAFD28"; "#1CEC12"; "#DF0203";
    "#FAFAFA"; "#1EF6EE"; "#F38BED"; "#1833DE" ].

Local Close Scope string_scope.

(** The three conditionals at the head of [data_to_colors]. *)
Definition color_map (bits : Z) : list string :=
  if bits =? 2 then FOUR_COLOR_MAP else EIGHT_COLOR_MAP.

Definition mask (bits : Z) : Z := if bits =? 2 then 3 else 7.

Definition shift (bits : Z) : Z := if bits =? 2 then 2 else 3.

(** The indices the inner loop computes for one [value]:
    [(value >> (i * shift)) & mask] for [i] in [range(8 // bits)]. *)
Definition value_indices (bits value : Z) : list Z :=
  map (fun i => Z.land (Z.shiftr value (i * shift bits)) (mask bits))
      (range (8 / bits)).

(** All the indices of a byte sequence, in emission order. *)
Definition symbol_indices (bits : Z) (data : list Z) : list Z :=
  flat_map (value_indices bits) data.

(** The palette entry at an index, [color_map[index]] when the index is
    inside the palette. *)
Definition color_of (bits k : Z) : string :=
  nth (Z.to_nat k) (color_map bits) EmptyString.

(** [data_to_colors(bits, data)].  [8 // bits] is evaluated once per
    value, so [bits = 0] only raises when there is a value to pack. *)
Fixpoint data_to_colors (bits : Z) (data : list Z) : result (list string) :=
  match data with
  | [] => Ok []
  | value :: rest =>
      if bits =? 0 then Raise ZeroDivisionError
      else
        cs <- mapM (getitem (color_map bits)) (value_indices bits value) ;;
        more <- data_to_colors bits rest ;;
        Ok (cs ++ more)
  end.

(** [colors_prefix(bits)]: [colors * 2]. *)
Definition colors_prefix (bits : Z) : list string :=
  color_map bits ++ color_map bits.

End Packer.

(* ================================================================== *)
(** * The Reed-Solomon library ([reedsolo.RSCodec]) *)
(* ================================================================== *)

Module ReedSolo.

(** What [RSCodec(nsym).decode(data)] returns in the releases 1.x of the
    library, whose interface [decoded_data[0]] in [hccb-opencv.py]
    presupposes: the tuple of the decoded message, the decoded message
    with its parity, and the positions of the errata. *)
Definition Decoded : Type := (list Z * list Z * list Z)%type.

(** [decoded[0]] *)
Definition decoded_message (decoded : Decoded) : list Z := fst (fst decoded).

(** [list(decoded)]: the three bytearrays of the tuple. *)
Definition decoded_list (decoded : Decoded) : list (list Z) :=
  let '(message, message_ecc, errata_pos) := decoded in
  [ message; message_ecc; errata_pos ].

(** What the three files use of the library: [RSCodec(nsym).encode(data)]
    and [RSCodec(nsym).decode(data)]. *)
Record RSCodec : Type := {
  rs_encode : Z -> list Z -> result (list Z);
  rs_decode : Z -> list Z -> result Decoded
}.

(** The laws assumed of the library, all about one block (at most 255
    bytes with the parity): the code is systematic with [nsym] parity
    bytes, the message of a successful decoding is as long as the
    received block without its last [nsym] bytes, and an undamaged block
    decodes to its message, itself and no errata.  Nothing is assumed
    about messages the library splits into several blocks. *)
Record RSLaws (c : RSCodec) : Prop := {
  encode_block : forall nsym data,
    0 < nsym -> data <> [] -> Z.of_nat (length data) + nsym <= 255 ->
    exists parity,
      rs_encode c nsym data = Ok (data ++ parity) /\
      Z.of_nat (length parity) = nsym;
  decode_block_length : forall nsym received decoded,
    0 < nsym -> Z.of_nat (length received) <= 255 ->
    rs_decode c nsym received = Ok decoded ->
    length (decoded_message decoded)
    = (length received - Z.to_nat nsym)%nat;
  decode_encode_block : forall nsym data framed,
    0 < nsym -> data <> [] -> Z.of_nat (length data) + nsym <= 255 ->
    rs_encode c nsym data = Ok framed ->
    rs_decode c nsym framed = Ok (data, framed, [])
}.

(** ** A reference instance

    The systematic Reed-Solomon encoder over GF(2^8) with the field
    polynomial x^8+x^4+x^3+x^2+1 (0x11d), generator 2 and first
    consecutive root 2^0; a message longer than [255 - nsym] bytes is cut
    in blocks of that size, each followed by its own parity.  The decoder
    accepts exactly the blocks whose parity checks (it detects and does
    not correct).  The instance shows that the laws can be met and runs
    the examples; the properties of the three files are stated for every
    codec that meets the laws. *)

Fixpoint gf_mul_loop (n : nat) (a b acc : Z) : Z :=
  match n with
  | O => acc
  | S n' =>
      let acc' := if Z.odd b then Z.lxor acc a else acc in
      let a2 := Z.shiftl a 1 in
      let a' := if 256 <=? a2 then Z.lxor a2 285 else a2 in
      gf_mul_loop n' a' (Z.shiftr b 1) acc'
  end.

Definition gf_mul (a b : Z) : Z := gf_mul_loop 8 a b 0.

Fixpoint gf_pow2 (i : nat) : Z :=
  match i with
  | O => 1
  | S i' => gf_mul 2 (gf_pow2 i')
  end.

(** Coefficients from the highest degree down; [p * (x + r)]. *)
Definition poly_mul_root (p : list Z) (r : Z) : list Z :=
  map (fun k => Z.lxor (nth k (p ++ [0]) 0) (nth k (0 :: map (gf_mul r) p) 0))
      (seq 0 (S (length p))).

Fixpoint generator_poly (nsym : nat) : list Z :=
  match nsym with
  | O => [1]
  | S n => poly_mul_root (generator_poly n) (gf_pow2 n)
  end.

(** One step of the division by the generator: the remainder register
    after the message byte [m]. *)
Definition lfsr_step (nsym : nat) (gen reg : list Z) (m : Z) : list Z :=
  let coef := Z.lxor m (nth 0 reg 0) in
  map (fun k => Z.lxor (nth (S k) reg 0) (gf_mul (nth (S k) gen 0) coef))
      (seq 0 nsym).

Definition rs_parity (nsym : nat) (msg : list Z) : list Z :=
  fold_left (lfsr_step nsym (generator_poly nsym)) msg (repeat 0 nsym).

Definition reference_encode (nsym : Z) (data : list Z) : result (list Z) :=
  if (0 <=? nsym) && (nsym <? 255) then
    let n := Z.to_nat nsym in
    Ok (concat (map (fun chunk => chunk ++ rs_parity n chunk)
                    (chunks (255 - n) data)))
  else Raise ValueError.

Definition check_block (n : nat) (block : list Z) : result (list Z) :=
  let msg := firstn (length block - n) block in
  if list_eq_dec Z.eq_dec (msg ++ rs_parity n msg) block then Ok msg
  else Raise ReedSolomonError.

Definition reference_decode (nsym : Z) (data : list Z) : result Decoded :=
  if (0 <=? nsym) && (nsym <? 255) then
    blocks <- mapM (check_block (Z.to_nat nsym)) (chunks 255 data) ;;
    Ok (concat blocks, data, [])
  else Raise ValueError.

Definition reference : RSCodec :=
  {| rs_encode := reference_encode; rs_decode := reference_decode |}.

End ReedSolo.

(* ================================================================== *)
(** * Geometry, specification calculator and drawing ([hccbSvg.py]) *)
(* ================================================================== *)

Module Svg.

Import Packer ReedSolo.

Local Open Scope R_scope.

Record Point : Type := { x : R; y : R }.

Record Dim : Type := { width : R; height : R }.

Record Rect : Type := { point : Point; dim : Dim }.

Record Pad : Type := { left : R; right : R; top : R; bottom : R }.

Record Size : Type := { rows : Z; cols : Z }.

Record Specification : Type := {
  bits : Z;
  size : Size;
  white_frame_pad : Pad;
  black_background_pad : Pad;
  white_strip_height : R;
  row_inset : R;
  triangle_dim : Dim
}.

Definition BLACK : string := "#000000".
Definition WHITE : string := "#FFFFFF".

(** What is handed to the renderer: the rectangles of [draw_rect] and the
    triangles of [draw_triangle], with the arguments their outlines are
    formatted from. *)
Inductive Direction : Set := Up | Down.

Inductive Shape : Type :=
| RectShape (fill : string) (rect : Rect)
| TriangleShape (direction : Direction) (fill : string)
                (strip_height : R) (tdim : Dim) (corner : Point).

Definition draw_triangle (direction : Direction) (fill : string)
    (strip_height : R) (tdim : Dim) (corner : Point) : Shape :=
  TriangleShape direction fill strip_height tdim corner.

Definition draw_rect (fill : string) (rect : Rect) : Shape :=
  RectShape fill rect.

Definition draw_frame (outside inside : Rect) : list Shape :=
  [ draw_rect WHITE outside; draw_rect BLACK inside ].

Definition triangle_row_dim (spec : Specification) : Dim :=
  {| width := width (triangle_dim spec) * IZR (cols (size spec)) / 2;
     height := height (triangle_dim spec) + white_strip_height spec |}.

(** The dictionary of [get_row_spec]. *)
Record RowSpec : Type := {
  row_width : R;
  inset : R;
  strip_height : R;
  space_height : R
}.

Definition get_row_spec (spec : Specification) : RowSpec :=
  {| row_width := width (triangle_row_dim spec);
     inset := row_inset spec;
     strip_height := white_strip_height spec;
     space_height := height (triangle_dim spec) |}.

Definition barcode_dim (spec : Specification) : Dim :=
  let row_dim := triangle_row_dim spec in
  {| width :=
       left (white_frame_pad spec)
       + left (black_background_pad spec)
       + row_inset spec
       + width row_dim
       + row_inset spec
       + right (black_background_pad spec)
       + right (white_frame_pad spec);
     height :=
       top (white_frame_pad spec)
       + top (black_background_pad spec)
       + height row_dim * IZR (rows (size spec) + 1)
       + bottom (white_frame_pad spec) |}.

Definition draw_triangles (spec : Specification) (corner : Point)
    (data : list string) : result (list Shape) :=
  let row_spec := get_row_spec spec in
  let nrows := rows (size spec) in
  let ncols := cols (size spec) in
  per_row <-
    mapM (fun i =>
      mapM (fun j =>
        let direction := if (j mod 2 =? 0)%Z then Up else Down in
        color <- getitem data (i * ncols + j)%Z ;;
        let px := x corner
                  + IZR (ncols - j - 1) * (width (triangle_dim spec) / 2) in
        let py := y corner
                  + IZR (nrows - i - 1)
                    * (strip_height row_spec + space_height row_spec) in
        Ok (draw_triangle direction color (white_strip_height spec)
              (triangle_dim spec) {| x := px; y := py |}))
        (range ncols))
      (range nrows) ;;
  Ok (concat per_row).

Definition draw_strips (row_spec : RowSpec) (corner : Point) (sz : Size)
    : list Shape :=
  let extra_pad := {| left := 1.3; right := 1.8; top := 0; bottom := 0 |} in
  let strip_dim :=
    {| width := row_width row_spec + inset row_spec * 2
                + left extra_pad + right extra_pad;
       height := strip_height row_spec |} in
  map (fun row =>
         let py := y corner
                   + IZR row * (strip_height row_spec + space_height row_spec) in
         draw_rect WHITE
           {| point := {| x := x corner - left extra_pad; y := py |};
              dim := strip_dim |})
      (range (rows sz + 1)).

(** [apply_reed_solomon(data, ecc_symbols)]: [bytes(data)] first. *)
Definition apply_reed_solomon (codec : RSCodec) (data : list Z)
    (ecc_symbols : Z) : result (list Z) :=
  payload <- to_bytes data ;;
  rs_encode codec ecc_symbols payload.

Definition base_spec : Specification :=
  {| bits := 3;
     size := {| rows := 12; cols := 24 |};
     white_frame_pad :=
       {| left := 20.87; right := 20.87; top := 20.87; bottom := 20.87 |};
     black_background_pad :=
       {| left := 8.94; right := 8.94; top := 8.94; bottom := 8.94 |};
     white_strip_height := 5.96;
     row_inset := 5.96;
     triangle_dim := {| width := 25.48; height := 20.87 |} |}.

(** A [Pad] rebuilt from its four fields, each multiplied by [f], and the
    same for a [Dim]. *)
Definition scale_pad (f : R) (p : Pad) : Pad :=
  {| left := left p * f; right := right p * f;
     top := top p * f; bottom := bottom p * f |}.

Definition scale_dim (f : R) (d : Dim) : Dim :=
  {| width := width d * f; height := height d * f |}.

(** The [Specification(...)] expression both scalings build. *)
Definition scale_spec (f : R) (sz : Size) (spec : Specification)
    : Specification :=
  {| bits := bits spec;
     size := sz;
     white_frame_pad := scale_pad f (white_frame_pad spec);
     black_background_pad := scale_pad f (black_background_pad spec);
     white_strip_height := white_strip_height spec * f;
     row_inset := row_inset spec * f;
     triangle_dim := scale_dim f (triangle_dim spec) |}.

Definition required_triangles (data_length : Z) : Z :=
  ceil_div (data_length * 8) (bits base_spec).

Definition grid_rows (data_length : Z) : Z :=
  ceil_div (required_triangles data_length) (cols (size base_spec)).

(** [min(a, b)] of Python: the first argument unless the second is
    smaller. *)
Definition py_min (a b : R) : R := if Rlt_dec b a then b else a.

(** [calculate_dynamic_spec(data_length, max_width, max_height)].
    [math.sqrt] raises [ValueError] below zero and a float division by
    zero raises [ZeroDivisionError]. *)
Definition calculate_dynamic_spec (data_length : Z) (max_width max_height : R)
    : result Specification :=
  let ncols := cols (size base_spec) in
  let nrows := grid_rows data_length in
  if (nrows <? 0)%Z then Raise ValueError
  else
    let scale_factor := sqrt (IZR nrows / IZR (rows (size base_spec))) in
    let spec :=
      scale_spec scale_factor {| rows := nrows; cols := ncols |} base_spec in
    let barcode_dimensions := barcode_dim spec in
    if Req_dec_T (width barcode_dimensions) 0 then Raise ZeroDivisionError
    else
      let width_scale := max_width / width barcode_dimensions in
      if Req_dec_T (height barcode_dimensions) 0 then Raise ZeroDivisionError
      else
        let height_scale := max_height / height barcode_dimensions in
        let final_scale := py_min width_scale height_scale in
        Ok (scale_spec final_scale (size spec) spec).

(** The dictionary of [barcode], indexed by the level's name. *)
Definition ecc_symbols (len : Z) (error_correction_level : string)
    : result Z :=
  if String.eqb error_correction_level "L" then Ok (Z.max 7 (len / 5))
  else if String.eqb error_correction_level "M" then Ok (Z.max 10 (len / 4))
  else if String.eqb error_correction_level "Q" then Ok (Z.max 13 (len / 3))
  else if String.eqb error_correction_level "H" then Ok (Z.max 17 (len / 2))
  else Raise KeyError.

(** [colors_prefix(spec.bits) + data_to_colors(spec.bits, encoded_data)] *)
Definition colored_data (bits : Z) (encoded_data : list Z)
    : result (list string) :=
  let prefix := colors_prefix bits in
  colors <- data_to_colors bits encoded_data ;;
  Ok (prefix ++ colors).

(** [barcode(spec, width, height, data, error_correction_level)]: the
    shapes added to the drawing, in order.  [width] and [height] only size
    the canvas of the drawing. *)
Definition barcode (codec : RSCodec) (spec : Specification)
    (canvas_width canvas_height : R) (data : list Z)
    (error_correction_level : string) : result (list Shape) :=
  nsym <- ecc_symbols (Z.of_nat (length data)) error_correction_level ;;
  encoded_data <- apply_reed_solomon codec data nsym ;;
  let d := barcode_dim spec in
  let outer_rect := {| point := {| x := 0; y := 0 |}; dim := d |} in
  let inner_rect :=
    {| point := {| x := left (white_frame_pad spec);
                   y := top (white_frame_pad spec) |};
       dim := {| width := width d - left (white_frame_pad spec)
                          - right (white_frame_pad spec);
                 height := height d - top (white_frame_pad spec)
                           - bottom (white_frame_pad spec) |} |} in
  let inner_padded_rect :=
    {| point := {| x := x (point inner_rect) + left (black_background_pad spec);
                   y := y (point inner_rect) + top (black_background_pad spec) |};
       dim := {| width := width (dim inner_rect)
                          - left (black_background_pad spec)
                          - right (black_background_pad spec);
                 height := height (dim inner_rect)
                           - top (black_background_pad spec)
                           - bottom (black_background_pad spec) |} |} in
  let frame := draw_frame outer_rect inner_rect in
  let row_spec := get_row_spec spec in
  colored <- colored_data (bits spec) encoded_data ;;
  triangles <- draw_triangles spec (point inner_padded_rect) colored ;;
  let strips := draw_strips row_spec (point inner_padded_rect) (size spec) in
  Ok (frame ++ triangles ++ strips).

(** [generate_hccb(data, width, height, error_correction_level)] on the
    bytes of [data]. *)
Definition generate_hccb (codec : RSCodec) (data : list Z)
    (canvas_width canvas_height : R) (error_correction_level : string)
    : result (list Shape) :=
  spec <- calculate_dynamic_spec (Z.of_nat (length data))
            canvas_width canvas_height ;;
  barcode codec spec canvas_width canvas_height data error_correction_level.

End Svg.

(* ================================================================== *)
(** * Nearest-colour search shared by the two readers *)
(* ================================================================== *)

Module Nearest.

Local Open Scope R_scope.

(** A palette colour is a triple of integers; a measured sample (a pixel,
    or the mean of a block of pixels) is a triple of reals. *)
Definition Color : Type := (Z * Z * Z)%type.
Definition Sample : Type := (R * R * R)%type.

Definition to_sample (c : Color) : Sample :=
  let '(c0, c1, c2) := c in (IZR c0, IZR c1, IZR c2).

Definition color_eqb (a b : Color) : bool :=
  let '(a0, a1, a2) := a in
  let '(b0, b1, b2) := b in
  ((a0 =? b0) && (a1 =? b1) && (a2 =? b2))%Z.

(** [np.linalg.norm(np.array(c) - color)], also
    [scipy.spatial.distance.euclidean(color, c)]. *)
Definition euclidean (s : Sample) (c : Color) : R :=
  let '(s0, s1, s2) := s in
  let '(c0, c1, c2) := c in
  sqrt ((IZR c0 - s0) * (IZR c0 - s0)
        + (IZR c1 - s1) * (IZR c1 - s1)
        + (IZR c2 - s2) * (IZR c2 - s2)).

(** The loop of [min(seq, key=key)] once the first element is the best so
    far: a later element replaces it only when its key is smaller. *)
Fixpoint min_from {A : Type} (key : A -> R) (best : A) (rest : list A) : A :=
  match rest with
  | [] => best
  | c :: tl =>
      if Rlt_dec (key c) (key best) then min_from key c tl
      else min_from key best tl
  end.

(** [min(seq, key=key)]; an empty sequence raises [ValueError]. *)
Definition min_by {A : Type} (key : A -> R) (l : list A) : result A :=
  match l with
  | [] => Raise ValueError
  | a :: tl => Ok (min_from key a tl)
  end.

(** [l.index(v)]: the first position holding [v], [ValueError] if none. *)
Fixpoint index_from {A : Type} (eqb : A -> A -> bool) (v : A) (l : list A)
    (k : Z) : result Z :=
  match l with
  | [] => Raise ValueError
  | a :: tl => if eqb a v then Ok k else index_from eqb v tl (k + 1)%Z
  end.

Definition index {A : Type} (eqb : A -> A -> bool) (l : list A) (v : A)
    : result Z :=
  index_from eqb v l 0%Z.

End Nearest.

(* ================================================================== *)
(** * The first reader ([hccb_reader.py]) *)
(* ================================================================== *)

Module Reader.

Import ReedSolo Nearest.

Definition FOUR_COLOR_MAP : list Color :=
  [ (0, 0, 0); (255, 255, 69); (18, 255, 14); (255, 20, 0) ].

Definition EIGHT_COLOR_MAP : list Color :=
  [ (0, 0, 0); (250, 253, 40); (28, 236, 18); (223, 2, 3);
    (250, 250, 250); (30, 246, 238); (243, 139, 237); (24, 51, 222) ].

Definition color_map (bits : Z) : list Color :=
  if bits =? 3 then EIGHT_COLOR_MAP else FOUR_COLOR_MAP.

(** The two statements of [recognize_hccb] that turn the mean colour of a
    cell into a palette index: the closest colour, then its position. *)
Definition classify (bits : Z) (color : Sample) : result Z :=
  closest_color <- min_by (euclidean color) (color_map bits) ;;
  index color_eqb (color_map bits) closest_color.

(** An image is its rows of pixels.  [block_mean img py px] is
    [img[py:py+25, px:px+25].mean(axis=(0, 1))]. *)
Definition Image : Type := list (list Color).

Definition channel_sum (f : Color -> Z) (block : list Color) : R :=
  fold_left (fun acc p => (acc + IZR (f p))%R) block 0%R.

Definition block_mean (img : Image) (py px : nat) : Sample :=
  let block :=
    flat_map (fun row => slice row px (px + 25)) (slice img py (py + 25)) in
  let n := INR (length block) in
  ((channel_sum (fun p => fst (fst p)) block / n)%R,
   (channel_sum (fun p => snd (fst p)) block / n)%R,
   (channel_sum (fun p => snd p) block / n)%R).

(** [recognize_hccb(hccb_code, bits)] *)
Definition recognize_hccb (hccb_code : Image) (bits : Z) : result (list Z) :=
  let h := length hccb_code in
  let w := length (hd [] hccb_code) in
  let nrows := (h / 25)%nat in
  let ncols := (w / 25)%nat in
  per_row <-
    mapM (fun i =>
      mapM (fun j => classify bits (block_mean hccb_code (i * 25) (j * 25)))
           (seq 0 ncols))
      (seq 0 nrows) ;;
  Ok (concat per_row).

Definition mask (bits : Z) : Z := if bits =? 2 then 3 else 7.

Definition shift (bits : Z) : Z := if bits =? 2 then 2 else 3.

(** The bytes [restore_data] hands to the decoder: one per symbol. *)
Definition symbol_bytes (bits : Z) (data : list Z) : list Z :=
  map (fun value => Z.shiftl (Z.land value (mask bits)) (shift bits)) data.

(** [restore_data(data, bits, ecc_symbols)]: it returns
    [list(restored_data)], the list of the three bytearrays the decoder
    returned; a [ReedSolomonError] is re-raised as a [ValueError]. *)
Definition restore_data (codec : RSCodec) (data : list Z) (bits : Z)
    (ecc_symbols : Z) : result (list (list Z)) :=
  match rs_decode codec ecc_symbols (symbol_bytes bits data) with
  | Ok restored_data => Ok (decoded_list restored_data)
  | Raise ReedSolomonError => Raise ValueError
  | Raise e => Raise e
  end.

End Reader.

(* ================================================================== *)
(** * The second reader ([hccb-opencv.py]) *)
(* ================================================================== *)

Module OpenCV.

Import ReedSolo Nearest.

Local Open Scope string_scope.

(** The dictionary [COLOR_MAP], in insertion order. *)
Definition COLOR_MAP : list (string * Color) :=
  [ ("BLACK", (0, 0, 0)%Z);
    ("YELLOW", (0, 255, 255)%Z);
    ("GREEN", (0, 255, 0)%Z);
    ("RED", (0, 0, 255)%Z);
    ("WHITE", (255, 255, 255)%Z);
    ("CYAN", (255, 255, 0)%Z);
    ("PINK", (203, 192, 255)%Z);
    ("BLUE", (255, 0, 0)%Z) ].

Definition COLOR_LIST : list string := map fst COLOR_MAP.

(** The names [decode_colors] writes on two bits. *)
Definition TWO_BIT_NAMES : list string :=
  [ "BLACK"; "YELLOW"; "GREEN"; "RED" ].

Local Close Scope string_scope.

(** [classify_color] once the pixel [image[y, x]] is read: the name whose
    colour is nearest, the first one among equals. *)
Definition classify_pixel (color : Sample) : result string :=
  entry <- min_by (fun e => euclidean color (snd e)) COLOR_MAP ;;
  Ok (fst entry).

Definition classify_color (image : list (list Color)) (px py : Z)
    : result string :=
  row <- getitem image py ;;
  color <- getitem row px ;;
  classify_pixel (to_sample color).

Fixpoint pos_digits (p : positive) : list Z :=
  match p with
  | xH => [1%Z]
  | xO q => pos_digits q ++ [0%Z]
  | xI q => pos_digits q ++ [1%Z]
  end.

(** [[int(x) for x in f"{n:0{width}b}"]]: the binary digits of [n], the
    most significant first, padded with zeros up to [width]; the sign of
    a negative [n] is not a digit. *)
Definition format_b (width : nat) (n : Z) : result (list Z) :=
  match n with
  | Z0 => Ok (repeat 0%Z (width - 1) ++ [0%Z])
  | Zpos p =>
      let ds := pos_digits p in
      Ok (repeat 0%Z (width - length ds) ++ ds)
  | Zneg _ => Raise ValueError
  end.

(** The number a string of binary digits denotes, the first digit being
    the most significant. *)
Definition bits_value (digits : list Z) : Z :=
  fold_left (fun acc d => (2 * acc + d)%Z) digits 0%Z.

(** [int(s, 2)] on a string of digits; the empty string is refused. *)
Definition int2 (digits : list Z) : result Z :=
  match digits with
  | [] => Raise ValueError
  | _ => Ok (bits_value digits)
  end.

(** The bits one colour contributes to [decode_colors]. *)
Definition color_bits (color : string) : result (list Z) :=
  if existsb (String.eqb color) TWO_BIT_NAMES then
    k <- index String.eqb COLOR_LIST color ;;
    format_b 2 k
  else
    k <- index String.eqb COLOR_LIST color ;;
    format_b 3 k.

(** The flat bit sequence built by the two loops of [decode_colors]. *)
Definition grid_bits (color_grid : list (list string))
    : result (list Z) :=
  per_color <- mapM color_bits (concat color_grid) ;;
  Ok (concat per_color).

(** [decode_colors(color_grid)] *)
Definition decode_colors (color_grid : list (list string))
    : result (list Z) :=
  bits <- grid_bits color_grid ;;
  values <- mapM int2 (chunks 8 bits) ;;
  to_bytes values.

(** The end of [read_hccb], from the classified grid on, with the number
    of parity bytes as a parameter: it returns [decoded_data[0]], the
    decoded message; [read_hccb] itself fixes the number to 68 and turns
    a [ReedSolomonError] into [None]. *)
Definition decode_grid (codec : RSCodec) (nsym : Z)
    (color_grid : list (list string)) : result (list Z) :=
  encoded_data <- decode_colors color_grid ;;
  decoded_data <- rs_decode codec nsym encoded_data ;;
  Ok (decoded_message decoded_data).

Definition read_hccb (codec : RSCodec) (color_grid : list (list string))
    : result (option (list Z)) :=
  match decode_grid codec 68 color_grid with
  | Ok decoded_data => Ok (Some decoded_data)
  | Raise ReedSolomonError => Ok None
  | Raise e => Raise e
  end.

End OpenCV.

(* ================================================================== *)
(** * Cropping, grid size and sampling in the second reader
      ([hccb-opencv.py]) *)
(* ================================================================== *)

Module Scan.

Import ReedSolo Nearest.

(** The calls to OpenCV are inputs here: the bounding rectangle of the
    largest contour, and the segments of [cv2.HoughLinesP]. *)
Definition Box : Type := (Z * Z * Z * Z)%type.
Definition Line : Type := (Z * Z * Z * Z)%type.
Definition Image : Type := list (list Color).

Definition margin : Z := 10.

(** The end of [find_hccb]: the bounding rectangle [(x, y, w, h)] grown by
    the margin, inside an image of [image_width] columns and
    [image_height] rows ([image.shape[1]] and [image.shape[0]]). *)
Definition add_margin (image_width image_height : Z) (rect : Box) : Box :=
  let '(x0, y0, w0, h0) := rect in
  let x1 := Z.max 0 (x0 - margin) in
  let y1 := Z.max 0 (y0 - margin) in
  let w1 := Z.min (image_width - x1) (w0 + 2 * margin) in
  let h1 := Z.min (image_height - y1) (h0 + 2 * margin) in
  (x1, y1, w1, h1).

(** [image[y:y+h, x:x+w]] for a box with [0 <= x], [0 <= y], [0 <= w] and
    [0 <= h]. *)
Definition crop (image : Image) (box : Box) : Image :=
  let '(x0, y0, w0, h0) := box in
  map (fun row => slice row (Z.to_nat x0) (Z.to_nat (x0 + w0)))
      (slice image (Z.to_nat y0) (Z.to_nat (y0 + h0))).

(** The test [abs(x2 - x1) > abs(y2 - y1)] of [determine_grid_size]. *)
Definition is_horizontal (line : Line) : bool :=
  let '(x1, y1, x2, y2) := line in
  Z.abs (y2 - y1) <? Z.abs (x2 - x1).

Definition line_x1 (line : Line) : Z := let '(x1, _, _, _) := line in x1.
Definition line_y1 (line : Line) : Z := let '(_, y1, _, _) := line in y1.

(** The end of [determine_grid_size], from the detected segments on: the
    segments are split in horizontal and vertical ones, and the number of
    distinct first ordinates (abscissas), less one, is the number of rows
    (columns).  No segments at all ([None]) gives [(None, None)]. *)
Definition determine_grid_size (lines : option (list Line))
    : option (Z * Z) :=
  match lines with
  | None => None
  | Some ls =>
      let horizontal_lines := filter is_horizontal ls in
      let vertical_lines := filter (fun l => negb (is_horizontal l)) ls in
      let unique_y := nodup Z.eq_dec (map line_y1 horizontal_lines) in
      let unique_x := nodup Z.eq_dec (map line_x1 vertical_lines) in
      Some (Z.of_nat (length unique_y) - 1, Z.of_nat (length unique_x) - 1)
  end.

(** [range(1, n + 1)] *)
Definition range_from_one (n : Z) : list Z := map (fun k => k + 1) (range n).

(** The sampling loop of [read_hccb]: one pixel per cell, at the multiples
    of [width // (cols + 1)] and [height // (rows + 1)]. *)
Definition sample_grid (hccb_image : Image) (nrows ncols : Z)
    : result (list (list string)) :=
  let image_height := Z.of_nat (length hccb_image) in
  let image_width := Z.of_nat (length (hd [] hccb_image)) in
  if ncols + 1 =? 0 then Raise ZeroDivisionError
  else
    let x_step := image_width / (ncols + 1) in
    if nrows + 1 =? 0 then Raise ZeroDivisionError
    else
      let y_step := image_height / (nrows + 1) in
      mapM (fun i =>
              mapM (fun j =>
                      OpenCV.classify_color hccb_image (j * x_step) (i * y_step))
                   (range_from_one ncols))
           (range_from_one nrows).

(** [read_hccb] once the image is loaded, with the cropped region
    ([None] when no barcode is found) and the detected segments as
    inputs. *)
Definition read_hccb_image (codec : RSCodec) (hccb_image : option Image)
    (lines : option (list Line)) : result (option (list Z)) :=
  match hccb_image with
  | None => Ok None
  | Some img =>
      match determine_grid_size lines with
      | None => Ok None
      | Some (nrows, ncols) =>
          color_grid <- sample_grid img nrows ncols ;;
          OpenCV.read_hccb codec color_grid
      end
  end.

End Scan.

(** The colour a drawn shape is filled with. *)
Definition shape_fill (s : Svg.Shape) : string :=
  match s with
  | Svg.RectShape fill _ => fill
  | Svg.TriangleShape _ fill _ _ _ => fill
  end.

(** A byte with its four two-bit groups in the opposite order. *)
Definition reverse_groups (b : Z) : Z :=
  64 * (b mod 4) + 16 * ((b / 4) mod 4) + 4 * ((b / 16) mod 4)
  + (b / 64) mod 4.

(* ================================================================== *)
(** * Names for what single calls produce *)
(* ================================================================== *)

Module Views.

Import Svg.

(** The triangle [draw_triangles] draws for the cell of row [i] and
    column [j] when the colour list reaches that cell. *)
Definition triangle_at (spec : Specification) (corner : Point)
    (data : list string) (i j : Z) : Shape :=
  draw_triangle (if j mod 2 =? 0 then Up else Down)
    (nth (Z.to_nat (i * cols (size spec) + j)) data EmptyString)
    (white_strip_height spec) (triangle_dim spec)
    {| x := (x corner
             + IZR (cols (size spec) - j - 1)
               * (width (triangle_dim spec) / 2))%R;
       y := (y corner
             + IZR (rows (size spec) - i - 1)
               * (strip_height (get_row_spec spec)
                  + space_height (get_row_spec spec)))%R |}.

(** The index [classify] returns, [0] if it raised. *)
Definition classify_index (nbits : Z) (sample : Nearest.Sample) : Z :=
  match Reader.classify nbits sample with
  | Ok k => k
  | Raise _ => 0
  end.

(** The two digits written for a symbol below four, and the eight digits
    the four symbols of a byte give. *)
Definition two_bits (k : Z) : list Z := [ k / 2; k mod 2 ].

Definition byte_bits (b : Z) : list Z :=
  flat_map two_bits (Packer.value_indices 2 b).

(** The name [classify_color] returns, the empty string if it raised. *)
Definition sampled_name (image : Scan.Image) (px py : Z) : string :=
  match OpenCV.classify_color image px py with
  | Ok name => name
  | Raise _ => EmptyString
  end.

End Views.

(* ================================================================== *)
(** * The design document's side of two comparisons *)
(* ================================================================== *)

Module Design.

Import Svg.

(** The total height as the design document writes it: both frame pads,
    both background pads and [rows + 1] rows of triangle and strip. *)
Definition documented_height (spec : Specification) : R :=
  (top (white_frame_pad spec) + bottom (white_frame_pad spec)
   + top (black_background_pad spec) + bottom (black_background_pad spec)
   + IZR (rows (size spec) + 1)
     * (height (triangle_dim spec) + white_strip_height spec))%R.

(** Classification without error: for each symbol the second reader sees
    the colour name at the encoder's palette index (the two files list
    the eight colours in the same order). *)
Definition symbol_names (symbols : list Z) : list string :=
  map (fun k => nth (Z.to_nat k) OpenCV.COLOR_LIST EmptyString) symbols.

End Design.

(* ================================================================== *)
(** * Facts about the Python layer *)
(* ================================================================== *)

Module PyFacts.

Lemma bind_Ok {A B : Type} (m : result A) (k : A -> result B) (a : A) :
  m = Ok a -> bind m k = k a.
Proof. intros ->; reflexivity. Qed.

Lemma bind_Raise {A B : Type} (m : result A) (k : A -> result B) (e : exn) :
  m = Raise e -> bind m k = Raise e.
Proof. intros ->; reflexivity. Qed.

(** When every call succeeds the loop returns the list of the results. *)
Lemma mapM_Ok {A B : Type} (f : A -> result B) (g : A -> B) (l : list A) :
  (forall a, In a l -> f a = Ok (g a)) -> mapM f l = Ok (map g l).
Proof.
  induction l as [|a tl IH]; intros Hf; cbn [mapM map]; [reflexivity|].
  rewrite (Hf a (or_introl eq_refl)); cbn [bind].
  rewrite IH by (intros b Hb; apply Hf; right; exact Hb).
  reflexivity.
Qed.

(** When [e] is the only exception the body can raise and some call does
    raise, the loop raises [e]. *)
Lemma mapM_Raise {A B : Type} (f : A -> result B) (e : exn) (l : list A) :
  (forall a, In a l -> forall e', f a = Raise e' -> e' = e) ->
  (exists a, In a l /\ f a = Raise e) ->
  mapM f l = Raise e.
Proof.
  induction l as [|a tl IH]; intros Honly [b [Hb Hfb]]; [destruct Hb|].
  cbn [mapM]. destruct (f a) as [v|e'] eqn:Hfa; cbn [bind].
  - destruct Hb as [->|Hb]; [congruence|].
    rewrite IH; [reflexivity| |exists b; split; assumption].
    intros c Hc; apply Honly; right; exact Hc.
  - f_equal. apply (Honly a (or_introl eq_refl)). exact Hfa.
Qed.

Lemma getitem_Ok {A : Type} (l : list A) (i : Z) (d : A) :
  0 <= i < Z.of_nat (length l) ->
  getitem l i = Ok (nth (Z.to_nat i) l d).
Proof.
  intros Hi. unfold getitem.
  destruct (i <? 0) eqn:Hneg; [apply Z.ltb_lt in Hneg; lia|].
  replace ((0 <=? i) && (i <? Z.of_nat (length l))) with true.
  - destruct (nth_error l (Z.to_nat i)) as [a|] eqn:Hn.
    + f_equal. symmetry. apply nth_error_nth. exact Hn.
    + apply nth_error_None in Hn. lia.
  - symmetry. apply andb_true_iff. split; [apply Z.leb_le|apply Z.ltb_lt]; lia.
Qed.

Lemma getitem_past_end {A : Type} (l : list A) (i : Z) :
  Z.of_nat (length l) <= i -> getitem l i = Raise IndexError.
Proof.
  intros Hi. unfold getitem.
  destruct (i <? 0) eqn:Hneg; [apply Z.ltb_lt in Hneg; lia|].
  replace (i <? Z.of_nat (length l)) with false
    by (symmetry; apply Z.ltb_ge; lia).
  rewrite andb_false_r. reflexivity.
Qed.

Lemma getitem_only_IndexError {A : Type} (l : list A) (i : Z) (e : exn) :
  getitem l i = Raise e -> e = IndexError.
Proof.
  unfold getitem.
  destruct ((0 <=? _) && (_ <? _)); [destruct (nth_error _ _)|]; congruence.
Qed.

Lemma In_range (n k : Z) : In k (range n) <-> 0 <= k < n.
Proof.
  unfold range. rewrite in_map_iff. split.
  - intros [i [<- Hi]]. apply in_seq in Hi. lia.
  - intros Hk. exists (Z.to_nat k). split; [lia|]. apply in_seq. lia.
Qed.

Lemma length_range (n : Z) : length (range n) = Z.to_nat n.
Proof. unfold range. now rewrite length_map, length_seq. Qed.

(** The ceiling really is one: [ceil_div a b] is the least [q] with
    [a <= b * q]. *)
Lemma ceil_div_spec (a b : Z) :
  0 < b -> b * (ceil_div a b - 1) < a <= b * ceil_div a b.
Proof.
  intros Hb. unfold ceil_div.
  pose proof (Z.div_mod (- a) b ltac:(lia)) as Hdm.
  pose proof (Z.mod_pos_bound (- a) b Hb) as Hm.
  nia.
Qed.

Lemma length_slice {A : Type} (l : list A) (i j : nat) :
  length (slice l i j) = Nat.min (j - i) (length l - i).
Proof. unfold slice. now rewrite length_firstn, length_skipn. Qed.

Lemma length_chunks {A : Type} (step : nat) (l : list A) :
  length (chunks step l) = ((length l + step - 1) / step)%nat.
Proof. unfold chunks. now rewrite length_map, length_seq. Qed.

(** A list no longer than the step is a single chunk. *)
Lemma chunks_single {A : Type} (step : nat) (l : list A) :
  l <> [] -> (length l <= step)%nat -> chunks step l = [l].
Proof.
  intros Hne Hlen. unfold chunks.
  assert (Hpos : (0 < length l)%nat) by (destruct l; [congruence|cbn; lia]).
  replace ((length l + step - 1) / step)%nat with 1%nat.
  - cbn [seq map]. unfold slice. cbn [Nat.mul skipn].
    rewrite Nat.add_0_l, Nat.sub_0_r. rewrite firstn_all2 by lia. reflexivity.
  - apply Nat.div_unique with (r := (length l - 1)%nat); lia.
Qed.

Lemma chunks_nil {A : Type} (step : nat) : chunks step (@nil A) = [].
Proof.
  unfold chunks. cbn [length Nat.add].
  destruct step as [|s]; [reflexivity|].
  replace ((S s - 1) / S s)%nat with 0%nat; [reflexivity|].
  symmetry. apply Nat.div_small. lia.
Qed.

End PyFacts.

(* ================================================================== *)
(** * The encode-side packer *)
(* ================================================================== *)

Module PackerFacts.

Import Packer PyFacts.

Lemma value_indices_two (b : Z) :
  value_indices 2 b =
  [ Z.land (Z.shiftr b 0) 3; Z.land (Z.shiftr b 2) 3;
    Z.land (Z.shiftr b 4) 3; Z.land (Z.shiftr b 6) 3 ].
Proof. reflexivity. Qed.

Lemma value_indices_three (b : Z) :
  value_indices 3 b = [ Z.land (Z.shiftr b 0) 7; Z.land (Z.shiftr b 3) 7 ].
Proof. reflexivity. Qed.

Lemma land_mask_range (a bits : Z) :
  bits = 2 \/ bits = 3 -> 0 <= Z.land a (mask bits) < 2 ^ bits.
Proof.
  intros [-> | ->]; cbn [mask Z.eqb Pos.eqb].
  - change 3 with (Z.ones 2). rewrite Z.land_ones by lia.
    apply Z.mod_pos_bound. reflexivity.
  - change 7 with (Z.ones 3). rewrite Z.land_ones by lia.
    apply Z.mod_pos_bound. reflexivity.
Qed.

Lemma value_indices_range (bits b k : Z) :
  bits = 2 \/ bits = 3 -> In k (value_indices bits b) -> 0 <= k < 2 ^ bits.
Proof.
  intros Hb Hk. unfold value_indices in Hk. apply in_map_iff in Hk.
  destruct Hk as [i [<- _]]. apply land_mask_range. exact Hb.
Qed.

Lemma length_color_map (bits : Z) :
  bits = 2 \/ bits = 3 -> Z.of_nat (length (color_map bits)) = 2 ^ bits.
Proof. intros [-> | ->]; reflexivity. Qed.

(** For both bit depths the packer never raises: every index it computes
    is inside the palette, and the colours it returns are those of
    [symbol_indices], in order. *)
Lemma data_to_colors_indices (bits : Z) (data : list Z) :
  bits = 2 \/ bits = 3 ->
  data_to_colors bits data = Ok (map (color_of bits) (symbol_indices bits data)).
Proof.
  intros Hb. induction data as [|v tl IH]; [reflexivity|].
  cbn [data_to_colors symbol_indices flat_map].
  replace (bits =? 0) with false by (destruct Hb as [-> | ->]; reflexivity).
  rewrite (mapM_Ok _ (color_of bits)).
  - cbn [bind]. fold (symbol_indices bits tl). rewrite IH. cbn [bind].
    now rewrite map_app.
  - intros k Hk. apply getitem_Ok.
    rewrite (length_color_map bits Hb).
    apply (value_indices_range bits v k Hb Hk).
Qed.

Lemma length_value_indices (bits b : Z) :
  length (value_indices bits b) = Z.to_nat (8 / bits).
Proof. unfold value_indices. now rewrite length_map, length_range. Qed.

Lemma length_symbol_indices (bits : Z) (data : list Z) :
  length (symbol_indices bits data) = (Z.to_nat (8 / bits) * length data)%nat.
Proof.
  induction data as [|v tl IH]; cbn [symbol_indices flat_map length]; [lia|].
  fold (symbol_indices bits tl).
  rewrite length_app, IH, length_value_indices. lia.
Qed.

(** [C2], as the code has it: for every byte [b] and both bit depths the
    packer emits the groups of [b] from the least significant one up, the
    [i]-th index being [(b >> i*bits) & (2^bits - 1)], and writes the
    palette colour of each; with two bits per symbol it emits four indices
    from which [b] is recovered, so no bit of [b] is lost. *)
Theorem C2_packer_emits_low_group_first :
  forall bits b : Z,
    bits = 2 \/ bits = 3 -> 0 <= b < 256 ->
    (forall i : nat, (i < length (value_indices bits b))%nat ->
       nth i (value_indices bits b) 0
       = Z.land (Z.shiftr b (Z.of_nat i * bits)) (2 ^ bits - 1)) /\
    hd_error (value_indices bits b) = Some (Z.land b (2 ^ bits - 1)) /\
    data_to_colors bits [b] = Ok (map (color_of bits) (value_indices bits b)) /\
    (bits = 2 ->
       length (value_indices bits b) = 4%nat /\
       b = nth 0 (value_indices bits b) 0
           + 4 * nth 1 (value_indices bits b) 0
           + 16 * nth 2 (value_indices bits b) 0
           + 64 * nth 3 (value_indices bits b) 0).
Proof.
  intros bits b Hbits Hb. repeat split.
  - intros i Hi. destruct Hbits as [-> | ->].
    + rewrite value_indices_two in *. cbn [length] in Hi.
      destruct i as [|[|[|[|i]]]]; try reflexivity. lia.
    + rewrite value_indices_three in *. cbn [length] in Hi.
      destruct i as [|[|i]]; try reflexivity. lia.
  - destruct Hbits as [-> | ->]; reflexivity.
  - rewrite (data_to_colors_indices bits [b] Hbits).
    cbn [symbol_indices flat_map]. now rewrite app_nil_r.
  - subst bits. reflexivity.
  - subst bits. rewrite value_indices_two. cbn [nth].
    change 3 with (Z.ones 2). rewrite !Z.land_ones by lia.
    rewrite !Z.shiftr_div_pow2 by lia.
    change (2 ^ 0) with 1. change (2 ^ 2) with 4.
    change (2 ^ 4) with 16. change (2 ^ 6) with 64.
    rewrite Z.div_1_r.
    Z.div_mod_to_equations. lia.
Qed.

(** The byte 27 = 0b00011011 with two bits per symbol: groups 3, 2, 1, 0. *)
Lemma C2_packer_witness :
  hd_error (value_indices 2 27) = Some 3 /\
  27 = nth 0 (value_indices 2 27) 0 + 4 * nth 1 (value_indices 2 27) 0
       + 16 * nth 2 (value_indices 2 27) 0
       + 64 * nth 3 (value_indices 2 27) 0.
Proof.
  assert (Hbyte : 0 <= 27 < 256) by lia.
  destruct (C2_packer_emits_low_group_first 2 27 (or_introl eq_refl) Hbyte)
    as (_ & Hhd & _ & Hall).
  split; [exact Hhd | exact (proj2 (Hall eq_refl))].
Defined.

(** [C2] as stated fails on three counts: with three bits per symbol a
    byte gives [8 // 3 = 2] indices and not [ceil(8/3) = 3]; the first
    index is the least significant group, not the most significant one;
    and two different bytes can give the same indices, their two top bits
    being dropped. *)
Lemma C2_counterexample :
  Z.of_nat (length (value_indices 3 200)) <> ceil_div 8 3 /\
  hd_error (value_indices 2 27) <> Some (Z.land (Z.shiftr 27 6) 3) /\
  (value_indices 3 200 = value_indices 3 8 /\ 200 <> 8).
Proof.
  split; [|split; [|split]].
  - vm_compute. discriminate.
  - vm_compute. discriminate.
  - reflexivity.
  - discriminate.
Qed.

End PackerFacts.

(* ================================================================== *)
(** * The decode-side packer of the second reader *)
(* ================================================================== *)

Module DecodeFacts.

Import OpenCV Nearest PyFacts.

Definition is_bit (d : Z) : Prop := d = 0 \/ d = 1.

Lemma pos_digits_bits (p : positive) : Forall is_bit (pos_digits p).
Proof.
  induction p as [q IH|q IH|]; cbn [pos_digits].
  - apply Forall_app. split; [exact IH|].
    constructor; [now right|constructor].
  - apply Forall_app. split; [exact IH|].
    constructor; [now left|constructor].
  - constructor; [now right|constructor].
Qed.

Lemma repeat_zero_bits (n : nat) : Forall is_bit (repeat 0 n).
Proof.
  apply Forall_forall. intros d Hd. apply repeat_spec in Hd. now left.
Qed.

Lemma format_b_bits (w : nat) (n : Z) (ds : list Z) :
  format_b w n = Ok ds -> Forall is_bit ds.
Proof.
  destruct n as [|p|p]; cbn [format_b]; intros H; inversion H; subst.
  - apply Forall_app. split; [apply repeat_zero_bits|].
    constructor; [now left|constructor].
  - apply Forall_app. split; [apply repeat_zero_bits|apply pos_digits_bits].
Qed.

Lemma color_bits_bits (c : string) (ds : list Z) :
  color_bits c = Ok ds -> Forall is_bit ds.
Proof.
  unfold color_bits.
  destruct (existsb _ _); destruct (index _ _ _) as [k|e]; cbn [bind];
    try discriminate; apply format_b_bits.
Qed.

Lemma mapM_Forall {A B : Type} (f : A -> result B) (P : B -> Prop)
    (l : list A) (out : list B) :
  (forall a b, f a = Ok b -> P b) -> mapM f l = Ok out -> Forall P out.
Proof.
  intros HP. revert out.
  induction l as [|a tl IH]; cbn [mapM]; intros out H.
  - inversion H. constructor.
  - destruct (f a) as [b|e] eqn:Hfa; cbn [bind] in H; [|discriminate].
    destruct (mapM f tl) as [bs|e]; cbn [bind] in H; [|discriminate].
    inversion H; subst. constructor; [apply (HP a b Hfa)|apply IH; reflexivity].
Qed.

Lemma grid_bits_bits (grid : list (list string)) (bits : list Z) :
  grid_bits grid = Ok bits -> Forall is_bit bits.
Proof.
  unfold grid_bits.
  destruct (mapM color_bits (concat grid)) as [per|e] eqn:Hm; cbn [bind];
    intros H; inversion H; subst.
  apply Forall_concat.
  apply (mapM_Forall color_bits (Forall is_bit) _ _ color_bits_bits Hm).
Qed.

Lemma fold_bits_bound (ds : list Z) :
  Forall is_bit ds ->
  forall acc, 0 <= acc ->
    0 <= fold_left (fun a d => 2 * a + d) ds acc
      < (acc + 1) * 2 ^ Z.of_nat (length ds).
Proof.
  induction 1 as [|d tl Hd _ IH]; intros acc Hacc.
  - cbn [fold_left length]. change (2 ^ Z.of_nat 0) with 1. lia.
  - cbn [fold_left length].
    assert (Hacc' : 0 <= 2 * acc + d) by (destruct Hd; lia).
    specialize (IH (2 * acc + d) Hacc').
    rewrite Nat2Z.inj_succ, Z.pow_succ_r by lia.
    assert (Hp : 0 < 2 ^ Z.of_nat (length tl)) by (apply Z.pow_pos_nonneg; lia).
    destruct Hd as [-> | ->]; nia.
Qed.

Lemma bits_value_bound (ds : list Z) :
  Forall is_bit ds -> 0 <= bits_value ds < 2 ^ Z.of_nat (length ds).
Proof.
  intros H. pose proof (fold_bits_bound ds H 0 (Z.le_refl 0)) as Hb.
  unfold bits_value. lia.
Qed.

Lemma In_slice {A : Type} (l : list A) (i j : nat) (a : A) :
  In a (slice l i j) -> In a l.
Proof.
  unfold slice. intros H.
  rewrite <- (firstn_skipn i l). apply in_or_app. right.
  rewrite <- (firstn_skipn (j - i) (skipn i l)). apply in_or_app. now left.
Qed.

(** The groups [range(0, len(l), step)] yields start inside the list. *)
Lemma chunk_start_inside (step len k : nat) :
  (0 < step)%nat -> (k < (len + step - 1) / step)%nat -> (k * step < len)%nat.
Proof.
  intros Hs Hk.
  pose proof (Nat.Div0.mul_div_le (len + step - 1) step) as Hq.
  nia.
Qed.

Lemma nth_chunks {A : Type} (step : nat) (l : list A) (k : nat) :
  (k < length (chunks step l))%nat ->
  nth k (chunks step l) [] = slice l (k * step) (k * step + step).
Proof.
  intros Hk. rewrite length_chunks in Hk. unfold chunks.
  rewrite (nth_indep _ [] (slice l (0 * step) (0 * step + step)))
    by (now rewrite length_map, length_seq).
  rewrite (map_nth (fun k => slice l (k * step) (k * step + step))).
  now rewrite seq_nth.
Qed.

Lemma In_chunks {A : Type} (step : nat) (l c : list A) :
  (0 < step)%nat -> In c (chunks step l) ->
  c <> [] /\ (length c <= step)%nat /\ (forall a, In a c -> In a l).
Proof.
  intros Hs Hc. unfold chunks in Hc. apply in_map_iff in Hc.
  destruct Hc as [k [<- Hk]]. apply in_seq in Hk.
  assert (Hin : (k * step < length l)%nat)
    by (apply chunk_start_inside; lia).
  assert (Hlen : length (slice l (k * step) (k * step + step))
                 = Nat.min step (length l - k * step))
    by (rewrite length_slice; f_equal; lia).
  repeat split.
  - intros Hnil. rewrite Hnil in Hlen. cbn [length] in Hlen. lia.
  - lia.
  - intros a. apply In_slice.
Qed.

Lemma decode_colors_groups (grid : list (list string)) (bits : list Z) :
  grid_bits grid = Ok bits ->
  decode_colors grid = Ok (map bits_value (chunks 8 bits)).
Proof.
  intros Hg. unfold decode_colors. rewrite Hg. cbn [bind].
  rewrite (mapM_Ok int2 bits_value).
  - cbn [bind]. unfold to_bytes.
    replace (forallb is_byte (map bits_value (chunks 8 bits))) with true;
      [reflexivity|].
    symmetry. apply forallb_forall. intros v Hv.
    apply in_map_iff in Hv. destruct Hv as [c [<- Hc]].
    destruct (In_chunks 8 bits c ltac:(lia) Hc) as (_ & Hlen & Hsub).
    assert (Hbits : Forall is_bit c).
    { apply Forall_forall. intros d Hd.
      pose proof (grid_bits_bits grid bits Hg) as Hall.
      rewrite Forall_forall in Hall. apply Hall, Hsub, Hd. }
    pose proof (bits_value_bound c Hbits) as Hb.
    assert (Hpow : 2 ^ Z.of_nat (length c) <= 2 ^ 8)
      by (apply Z.pow_le_mono_r; lia).
    change (2 ^ 8) with 256 in Hpow.
    unfold is_byte. apply andb_true_iff.
    split; [apply Z.leb_le|apply Z.ltb_lt]; lia.
  - intros c Hc. destruct (In_chunks 8 bits c ltac:(lia) Hc) as (Hne & _).
    destruct c; [congruence|reflexivity].
Qed.

(** The digits written for each of the eight colour names. *)
Lemma color_bits_table :
  map color_bits COLOR_LIST
  = map Ok [ [0; 0]; [0; 1]; [1; 0]; [1; 1];
             [1; 0; 0]; [1; 0; 1]; [1; 1; 0]; [1; 1; 1] ].
Proof. reflexivity. Qed.

(** [C10], as the code has it: the second reader writes each colour's
    palette index in binary (two digits for the first four colours, three
    for the others), concatenates the digits and cuts the sequence in
    groups of eight from the start; every group gives one byte, the number
    its digits denote, and so does a final group of fewer than eight
    digits: it is kept, not dropped. *)
Theorem C10_decode_keeps_the_last_group :
  map color_bits COLOR_LIST
  = map Ok [ [0; 0]; [0; 1]; [1; 0]; [1; 1];
             [1; 0; 0]; [1; 0; 1]; [1; 1; 0]; [1; 1; 1] ] /\
  forall grid : list (list string),
    match grid_bits grid with
    | Ok bits =>
        exists out : list Z,
          decode_colors grid = Ok out /\
          length out = ((length bits + 7) / 8)%nat /\
          (forall k : nat, (k < length out)%nat ->
             nth k out 0 = bits_value (slice bits (k * 8) (k * 8 + 8))) /\
          (forall k : nat, (k < length bits / 8)%nat ->
             length (slice bits (k * 8) (k * 8 + 8)) = 8%nat) /\
          ((length bits mod 8 <> 0)%nat ->
             length out = S (length bits / 8) /\
             nth (length bits / 8) out 0
             = bits_value (skipn (length bits / 8 * 8) bits) /\
             length (skipn (length bits / 8 * 8) bits)
             = (length bits mod 8)%nat)
    | Raise e => decode_colors grid = Raise e
    end.
Proof.
  split; [exact color_bits_table|].
  intros grid. destruct (grid_bits grid) as [bits|e] eqn:Hg.
  2: { unfold decode_colors. rewrite Hg. reflexivity. }
  exists (map bits_value (chunks 8 bits)).
  assert (Hlen : length (map bits_value (chunks 8 bits))
                 = ((length bits + 7) / 8)%nat).
  { rewrite length_map, length_chunks. f_equal. lia. }
  assert (Hnth : forall k : nat,
             (k < length (map bits_value (chunks 8 bits)))%nat ->
             nth k (map bits_value (chunks 8 bits)) 0
             = bits_value (slice bits (k * 8) (k * 8 + 8))).
  { intros k Hk. rewrite length_map in Hk.
    change 0 with (bits_value []) at 1.
    rewrite (map_nth bits_value). now rewrite nth_chunks. }
  pose proof (Nat.div_mod_eq (length bits) 8) as Hdm.
  pose proof (Nat.mod_upper_bound (length bits) 8 ltac:(lia)) as Hmod.
  split; [apply (decode_colors_groups grid bits Hg)|].
  split; [exact Hlen|]. split; [exact Hnth|]. split.
  - intros k Hk. rewrite length_slice. lia.
  - intros Hrem.
    assert (Hcount : ((length bits + 7) / 8 = S (length bits / 8))%nat).
    { symmetry.
      apply Nat.div_unique with (r := (length bits mod 8 - 1)%nat); lia. }
    split; [lia|]. split.
    + rewrite Hnth by lia. f_equal. unfold slice.
      apply firstn_all2. rewrite length_skipn. lia.
    + rewrite length_skipn. lia.
Qed.

(** [C10] as stated fails: a grid of one white cell gives the three
    digits [100], fewer than eight, and the reader returns the byte 4 for
    them instead of no byte. *)
Lemma C10_counterexample :
  grid_bits [ [ "WHITE"%string ] ] = Ok [1; 0; 0] /\
  decode_colors [ [ "WHITE"%string ] ] = Ok [4] /\
  decode_colors [ [ "WHITE"%string ] ] <> Ok [].
Proof.
  split; [reflexivity|]. split; [reflexivity|].
  vm_compute. discriminate.
Qed.

End DecodeFacts.

(* ================================================================== *)
(** * The specification calculator and the total dimensions *)
(* ================================================================== *)

Module GeometryFacts.

Import Svg Design PyFacts.

Local Open Scope R_scope.

(** The specification after the first, area-based scaling. *)
Definition first_scale (data_length : Z) : R :=
  sqrt (IZR (grid_rows data_length) / 12).

Definition first_spec (data_length : Z) : Specification :=
  scale_spec (first_scale data_length)
    {| rows := grid_rows data_length; cols := 24 |} base_spec.

Lemma calculate_dynamic_spec_eq (data_length : Z) (max_width max_height : R) :
  calculate_dynamic_spec data_length max_width max_height =
  if (grid_rows data_length <? 0)%Z then Raise ValueError
  else if Req_dec_T (width (barcode_dim (first_spec data_length))) 0
       then Raise ZeroDivisionError
  else if Req_dec_T (height (barcode_dim (first_spec data_length))) 0
       then Raise ZeroDivisionError
  else Ok (scale_spec
             (py_min (max_width / width (barcode_dim (first_spec data_length)))
                     (max_height / height (barcode_dim (first_spec data_length))))
             (size (first_spec data_length)) (first_spec data_length)).
Proof. reflexivity. Qed.

Lemma first_width (data_length : Z) :
  width (barcode_dim (first_spec data_length))
  = first_scale data_length * 377.3.
Proof.
  unfold first_spec, barcode_dim, triangle_row_dim, scale_spec, scale_pad,
    scale_dim, base_spec.
  cbn [width height left right top bottom white_frame_pad
       black_background_pad row_inset triangle_dim size cols rows
       white_strip_height].
  lra.
Qed.

Lemma first_height (data_length : Z) :
  height (barcode_dim (first_spec data_length))
  = first_scale data_length
    * (50.68 + 26.83 * IZR (grid_rows data_length + 1)).
Proof.
  unfold first_spec, barcode_dim, triangle_row_dim, scale_spec, scale_pad,
    scale_dim, base_spec.
  cbn [width height left right top bottom white_frame_pad
       black_background_pad row_inset triangle_dim size cols rows
       white_strip_height].
  lra.
Qed.

(** A second scaling by [f] multiplies both total dimensions by [f]:
    [barcode_dim] is linear in the lengths of a specification. *)
Lemma barcode_dim_scale (f : R) (spec : Specification) :
  width (barcode_dim (scale_spec f (size spec) spec))
  = f * width (barcode_dim spec) /\
  height (barcode_dim (scale_spec f (size spec) spec))
  = f * height (barcode_dim spec).
Proof.
  unfold barcode_dim, triangle_row_dim, scale_spec, scale_pad, scale_dim.
  cbn [width height left right top bottom white_frame_pad
       black_background_pad row_inset triangle_dim size cols rows
       white_strip_height].
  split; lra.
Qed.

Lemma required_triangles_pos (data_length : Z) :
  (1 <= data_length)%Z -> (1 <= required_triangles data_length)%Z.
Proof.
  intros HL. unfold required_triangles. cbn [bits base_spec].
  pose proof (ceil_div_spec (data_length * 8) 3 ltac:(lia)). lia.
Qed.

Lemma grid_rows_pos (data_length : Z) :
  (1 <= data_length)%Z -> (1 <= grid_rows data_length)%Z.
Proof.
  intros HL. unfold grid_rows. cbn [cols size base_spec].
  pose proof (required_triangles_pos data_length HL).
  pose proof (ceil_div_spec (required_triangles data_length) 24 ltac:(lia)).
  lia.
Qed.

Lemma first_scale_pos (data_length : Z) :
  (1 <= data_length)%Z -> 0 < first_scale data_length.
Proof.
  intros HL. unfold first_scale. apply sqrt_lt_R0.
  pose proof (grid_rows_pos data_length HL) as Hr.
  apply IZR_le in Hr. lra.
Qed.

Lemma first_dims_pos (data_length : Z) :
  (1 <= data_length)%Z ->
  0 < width (barcode_dim (first_spec data_length)) /\
  0 < height (barcode_dim (first_spec data_length)).
Proof.
  intros HL. rewrite first_width, first_height.
  pose proof (first_scale_pos data_length HL) as Hs.
  pose proof (grid_rows_pos data_length HL) as Hr.
  assert (Hr' : 2 <= IZR (grid_rows data_length + 1))
    by (apply (IZR_le 2); lia).
  split; apply Rmult_lt_0_compat; lra.
Qed.

(** From one byte on the calculator returns a specification: the second
    scaling of the first one. *)
Lemma calculate_dynamic_spec_Ok (data_length : Z) (max_width max_height : R) :
  (1 <= data_length)%Z ->
  calculate_dynamic_spec data_length max_width max_height
  = Ok (scale_spec
          (py_min (max_width / width (barcode_dim (first_spec data_length)))
                  (max_height / height (barcode_dim (first_spec data_length))))
          (size (first_spec data_length)) (first_spec data_length)).
Proof.
  intros HL. rewrite calculate_dynamic_spec_eq.
  pose proof (grid_rows_pos data_length HL) as Hr.
  pose proof (first_dims_pos data_length HL) as [Hw Hh].
  replace (grid_rows data_length <? 0)%Z with false
    by (symmetry; apply Z.ltb_ge; lia).
  destruct (Req_dec_T _ 0) as [E|_]; [lra|].
  destruct (Req_dec_T _ 0) as [E|_]; [lra|].
  reflexivity.
Qed.

Lemma py_min_le (a b : R) : py_min a b <= a /\ py_min a b <= b.
Proof. unfold py_min. destruct (Rlt_dec b a); lra. Qed.

(** The fit holds for any canvas, positive or not. *)
Lemma fit_any_canvas (L : Z) (max_width max_height : R) :
  (1 <= L)%Z ->
  exists spec : Specification,
    calculate_dynamic_spec L max_width max_height = Ok spec /\
    width (barcode_dim spec) <= max_width /\
    height (barcode_dim spec) <= max_height.
Proof.
  intros HL. eexists.
  split; [apply calculate_dynamic_spec_Ok, HL|].
  destruct (barcode_dim_scale
              (py_min (max_width / width (barcode_dim (first_spec L)))
                      (max_height / height (barcode_dim (first_spec L))))
              (first_spec L)) as [-> ->].
  destruct (first_dims_pos L HL) as [Hw Hh].
  destruct (py_min_le (max_width / width (barcode_dim (first_spec L)))
                      (max_height / height (barcode_dim (first_spec L))))
    as [H1 H2].
  split.
  - apply (Rmult_le_compat_r _ _ _ (Rlt_le _ _ Hw)) in H1.
    replace (max_width / width (barcode_dim (first_spec L))
             * width (barcode_dim (first_spec L))) with max_width in H1
      by (field; lra).
    exact H1.
  - apply (Rmult_le_compat_r _ _ _ (Rlt_le _ _ Hh)) in H2.
    replace (max_height / height (barcode_dim (first_spec L))
             * height (barcode_dim (first_spec L))) with max_height in H2
      by (field; lra).
    exact H2.
Qed.

(** [C3]: for a payload of [L >= 1] bytes the calculator returns a
    specification with the three bits of the base template, its 24
    columns, and [rows = ceil(requiredSymbols / 24)] where
    [requiredSymbols = ceil(L * 8 / 3)]; both are ceilings in the exact
    sense (the least integer not below the quotient). *)
Theorem C3_grid_size_from_payload_length :
  forall (L : Z) (max_width max_height : R),
    (1 <= L)%Z ->
    exists spec : Specification,
      calculate_dynamic_spec L max_width max_height = Ok spec /\
      bits spec = 3%Z /\
      cols (size spec) = cols (size base_spec) /\
      cols (size spec) = 24%Z /\
      rows (size spec) = ceil_div (required_triangles L) (cols (size spec)) /\
      required_triangles L = ceil_div (L * 8) (bits spec) /\
      (3 * (required_triangles L - 1) < L * 8 <= 3 * required_triangles L)%Z /\
      (24 * (rows (size spec) - 1) < required_triangles L
       <= 24 * rows (size spec))%Z.
Proof.
  intros L mw mh HL. eexists. split; [apply calculate_dynamic_spec_Ok, HL|].
  cbn [scale_spec first_spec bits size cols rows base_spec].
  repeat split; try reflexivity.
  - apply (ceil_div_spec (L * 8) 3). lia.
  - apply (ceil_div_spec (L * 8) 3). lia.
  - apply (ceil_div_spec (required_triangles L) 24). lia.
  - apply (ceil_div_spec (required_triangles L) 24). lia.
Qed.

(** The scenario of [C3]: two bytes on a 500 x 500 canvas give 24 columns
    and one row. *)
Lemma C3_grid_size_witness :
  exists spec : Specification,
    calculate_dynamic_spec 2 500 500 = Ok spec /\
    cols (size spec) = 24%Z /\ rows (size spec) = 1%Z.
Proof.
  assert (H2 : (1 <= 2)%Z) by lia.
  destruct (C3_grid_size_from_payload_length 2 500 500 H2)
    as (spec & Hspec & _ & _ & Hcols & Hrows & _).
  exists spec. split; [exact Hspec|]. split; [exact Hcols|].
  rewrite Hrows, Hcols. reflexivity.
Defined.

(** [C4]: for a payload of [L >= 1] bytes and a positive canvas, the total
    dimensions of the returned specification do not exceed the canvas.
    Floats are read as reals, so this is the statement of exact
    arithmetic. *)
Theorem C4_specification_fits_canvas :
  forall (L : Z) (max_width max_height : R),
    (1 <= L)%Z -> 0 < max_width -> 0 < max_height ->
    exists spec : Specification,
      calculate_dynamic_spec L max_width max_height = Ok spec /\
      width (barcode_dim spec) <= max_width /\
      height (barcode_dim spec) <= max_height.
Proof.
  intros L mw mh HL _ _. exact (fit_any_canvas L mw mh HL).
Qed.

(** Two bytes on a 500 x 500 canvas. *)
Lemma C4_specification_fits_witness :
  exists spec : Specification,
    calculate_dynamic_spec 2 500 500 = Ok spec /\
    width (barcode_dim spec) <= 500 /\ height (barcode_dim spec) <= 500.
Proof.
  assert (H2 : (1 <= 2)%Z) by lia.
  assert (Hw : 0 < 500) by lra.
  exact (C4_specification_fits_canvas 2 500 500 H2 Hw Hw).
Defined.

(** [C5] against the code: the width is the documented one, but the
    height adds the top background pad only, so it is short of the
    documented height by the bottom background pad; for the base template
    that is 399.47 instead of 408.41. *)
Theorem C5_height_lacks_bottom_background_pad :
  (forall spec : Specification,
     width (barcode_dim spec)
     = left (white_frame_pad spec) + right (white_frame_pad spec)
       + left (black_background_pad spec) + right (black_background_pad spec)
       + 2 * row_inset spec
       + width (triangle_dim spec) * IZR (cols (size spec)) / 2 /\
     height (barcode_dim spec)
     = top (white_frame_pad spec) + bottom (white_frame_pad spec)
       + top (black_background_pad spec)
       + IZR (rows (size spec) + 1)
         * (height (triangle_dim spec) + white_strip_height spec) /\
     documented_height spec - height (barcode_dim spec)
     = bottom (black_background_pad spec)) /\
  height (barcode_dim base_spec) = 399.47 /\
  documented_height base_spec = 408.41.
Proof.
  split; [intros spec; unfold documented_height|unfold documented_height];
    unfold barcode_dim, triangle_row_dim;
    cbn [width height left right top bottom white_frame_pad
         black_background_pad row_inset triangle_dim size cols rows
         white_strip_height base_spec].
  - repeat split; lra.
  - change (IZR (12 + 1)) with (IZR 13). split; lra.
Qed.

(** [C7], as the code has it: an empty payload makes the calculator
    divide the canvas width by a total width of zero, a
    [ZeroDivisionError]; from one byte on it never fails, whatever the
    canvas, and a canvas bound that is not positive comes back as a total
    dimension that is not positive. *)
Theorem C7_empty_payload_divides_by_zero :
  (forall max_width max_height : R,
     calculate_dynamic_spec 0 max_width max_height = Raise ZeroDivisionError) /\
  (forall (L : Z) (max_width max_height : R),
     (1 <= L)%Z ->
     exists spec : Specification,
       calculate_dynamic_spec L max_width max_height = Ok spec /\
       (max_width <= 0 -> width (barcode_dim spec) <= 0) /\
       (max_height <= 0 -> height (barcode_dim spec) <= 0)).
Proof.
  split.
  - intros mw mh. rewrite calculate_dynamic_spec_eq.
    change (grid_rows 0 <? 0)%Z with false. cbv iota.
    destruct (Req_dec_T _ 0) as [_|Hne]; [reflexivity|].
    exfalso. apply Hne. rewrite first_width. unfold first_scale.
    change (grid_rows 0) with 0%Z.
    replace (0 / 12) with 0 by lra. rewrite sqrt_0. lra.
  - intros L mw mh HL.
    destruct (fit_any_canvas L mw mh HL) as (spec & Hspec & Hw & Hh).
    exists spec. split; [exact Hspec|]. split; intros; lra.
Qed.

(** One byte on a canvas of width -500: a specification of width at most
    zero comes back. *)
Lemma C7_empty_payload_witness :
  exists spec : Specification,
    calculate_dynamic_spec 1%Z (-500) 500 = Ok spec /\
    width (barcode_dim spec) <= 0.
Proof.
  assert (H1 : (1 <= 1)%Z) by lia.
  destruct (proj2 C7_empty_payload_divides_by_zero 1%Z (-500) 500 H1)
    as (spec & Hspec & Hw & _).
  exists spec. split; [exact Hspec|]. apply Hw. lra.
Defined.

(** [C7] as stated fails: on an empty payload the exception is a
    [ZeroDivisionError] and not a [GeometryError], and a canvas of
    negative width gives a specification of negative width instead of a
    failure. *)
Lemma C7_counterexample :
  calculate_dynamic_spec 0 500 500 = Raise ZeroDivisionError /\
  calculate_dynamic_spec 0 500 500 <> Raise GeometryError /\
  exists spec : Specification,
    calculate_dynamic_spec 1%Z (-500) 500 = Ok spec /\
    width (barcode_dim spec) < 0.
Proof.
  assert (H0 : calculate_dynamic_spec 0 500 500 = Raise ZeroDivisionError).
  { rewrite calculate_dynamic_spec_eq.
    change (grid_rows 0 <? 0)%Z with false. cbv iota.
    destruct (Req_dec_T _ 0) as [_|Hne]; [reflexivity|].
    exfalso. apply Hne. rewrite first_width. unfold first_scale.
    change (grid_rows 0) with 0%Z.
    replace (0 / 12) with 0 by lra. rewrite sqrt_0. lra. }
  split; [exact H0|]. split; [rewrite H0; discriminate|].
  assert (H1 : (1 <= 1)%Z) by lia.
  destruct (fit_any_canvas 1%Z (-500) 500 H1) as (spec & Hspec & Hw & _).
  exists spec. split; [exact Hspec|]. lra.
Qed.

End GeometryFacts.

(* ================================================================== *)
(** * The reference codec meets the laws of the library *)
(* ================================================================== *)

Module ReedSoloFacts.

Import ReedSolo PyFacts.

Lemma length_lfsr_step (n : nat) (gen reg : list Z) (m : Z) :
  length (lfsr_step n gen reg m) = n.
Proof. unfold lfsr_step. now rewrite length_map, length_seq. Qed.

Lemma length_rs_parity (n : nat) (msg : list Z) :
  length (rs_parity n msg) = n.
Proof.
  unfold rs_parity.
  assert (H : forall reg, length reg = n ->
            length (fold_left (lfsr_step n (generator_poly n)) msg reg) = n).
  { induction msg as [|m tl IH]; intros reg Hreg; cbn [fold_left].
    - exact Hreg.
    - apply IH, length_lfsr_step. }
  apply H, repeat_length.
Qed.

Lemma firstn_length_app {A : Type} (l l' : list A) :
  firstn (length l) (l ++ l') = l.
Proof. induction l as [|a tl IH]; cbn; [reflexivity|now rewrite IH]. Qed.

Lemma nsym_in_range (nsym : Z) (len : nat) :
  0 < nsym -> (0 < len)%nat -> Z.of_nat len + nsym <= 255 ->
  (0 <=? nsym) && (nsym <? 255) = true.
Proof.
  intros. apply andb_true_iff. split; [apply Z.leb_le|apply Z.ltb_lt]; lia.
Qed.

Lemma nonempty_length {A : Type} (l : list A) : l <> [] -> (0 < length l)%nat.
Proof. destruct l; [congruence|cbn; lia]. Qed.

(** One block is encoded as the message followed by its parity. *)
Lemma reference_encode_block (nsym : Z) (data : list Z) :
  0 < nsym -> data <> [] -> Z.of_nat (length data) + nsym <= 255 ->
  reference_encode nsym data = Ok (data ++ rs_parity (Z.to_nat nsym) data).
Proof.
  intros Hn Hne Hlen. unfold reference_encode.
  pose proof (nonempty_length data Hne) as Hpos.
  rewrite (nsym_in_range nsym (length data)) by assumption.
  rewrite chunks_single by (assumption || lia).
  cbn [map concat]. now rewrite app_nil_r.
Qed.

Lemma reference_decode_block (nsym : Z) (received : list Z) :
  (0 <=? nsym) && (nsym <? 255) = true ->
  received <> [] -> Z.of_nat (length received) <= 255 ->
  reference_decode nsym received
  = bind (check_block (Z.to_nat nsym) received)
         (fun m => Ok (m ++ [], received, [])).
Proof.
  intros Hn Hne Hlen. unfold reference_decode. rewrite Hn.
  rewrite chunks_single by (assumption || lia).
  cbn [mapM]. destruct (check_block _ _); reflexivity.
Qed.

Theorem reference_laws : RSLaws reference.
Proof.
  constructor; cbn [rs_encode rs_decode reference].
  - intros nsym data Hn Hne Hlen.
    exists (rs_parity (Z.to_nat nsym) data). split.
    + apply reference_encode_block; assumption.
    + rewrite length_rs_parity. lia.
  - intros nsym received decoded Hn Hlen Hdec.
    destruct ((0 <=? nsym) && (nsym <? 255)) eqn:Hrange.
    2: { unfold reference_decode in Hdec. rewrite Hrange in Hdec.
         discriminate. }
    destruct (list_eq_dec Z.eq_dec received []) as [->|Hne].
    + unfold reference_decode in Hdec. rewrite Hrange, chunks_nil in Hdec.
      cbn in Hdec. injection Hdec as <-. reflexivity.
    + rewrite reference_decode_block in Hdec by assumption.
      unfold check_block in Hdec.
      destruct (list_eq_dec _ _ _) in Hdec; cbn [bind] in Hdec;
        [|discriminate].
      injection Hdec as <-. cbn [decoded_message fst].
      rewrite app_nil_r, length_firstn. lia.
  - intros nsym data framed Hn Hne Hlen Henc.
    rewrite reference_encode_block in Henc by assumption.
    injection Henc as <-.
    pose proof (nonempty_length data Hne) as Hpos.
    rewrite reference_decode_block.
    + unfold check_block.
      rewrite length_app, length_rs_parity.
      replace (length data + Z.to_nat nsym - Z.to_nat nsym)%nat
        with (length data) by lia.
      rewrite firstn_length_app.
      destruct (list_eq_dec _ _ _) as [_|Hne']; [|congruence].
      cbn [bind]. now rewrite app_nil_r.
    + apply (nsym_in_range nsym (length data)); assumption.
    + destruct data; [congruence|discriminate].
    + rewrite length_app, length_rs_parity. lia.
Qed.

(** The parity of [b"hello world"] under ten parity bytes, as the
    library's documentation prints it. *)
Example reference_encode_hello :
  reference_encode 10 [104; 101; 108; 108; 111; 32; 119; 111; 114; 108; 100]
  = Ok [104; 101; 108; 108; 111; 32; 119; 111; 114; 108; 100;
        237; 37; 84; 196; 253; 253; 137; 243; 168; 170].
Proof. vm_compute. reflexivity. Qed.

End ReedSoloFacts.

(* ================================================================== *)
(** * The encoder: synchronization prefix and grid capacity *)
(* ================================================================== *)

Module EncoderFacts.

Import Packer ReedSolo Svg PyFacts PackerFacts GeometryFacts.

Lemma colored_data_eq (nbits : Z) (encoded_data : list Z) :
  nbits = 2 \/ nbits = 3 ->
  colored_data nbits encoded_data
  = Ok (color_map nbits ++ color_map nbits
        ++ map (color_of nbits) (symbol_indices nbits encoded_data)).
Proof.
  intros Hb. unfold colored_data, colors_prefix.
  rewrite (data_to_colors_indices nbits encoded_data Hb). cbn [bind].
  now rewrite <- app_assoc.
Qed.

Lemma length_colored_data (nbits : Z) (encoded_data : list Z)
    (colored : list string) :
  nbits = 2 \/ nbits = 3 ->
  colored_data nbits encoded_data = Ok colored ->
  Z.of_nat (length colored)
  = 2 * 2 ^ nbits + (8 / nbits) * Z.of_nat (length encoded_data).
Proof.
  intros Hb Hc. rewrite (colored_data_eq nbits encoded_data Hb) in Hc.
  injection Hc as <-.
  rewrite !length_app, length_map, length_symbol_indices.
  pose proof (length_color_map nbits Hb) as Hcm.
  rewrite !Nat2Z.inj_add, Nat2Z.inj_mul, Hcm.
  destruct Hb as [-> | ->].
  - change (8 / 2) with 4. change (Z.of_nat (Z.to_nat 4)) with 4. lia.
  - change (8 / 3) with 2. change (Z.of_nat (Z.to_nat 2)) with 2. lia.
Qed.

(** The positions of the list handed to the triangle drawer: the
    palette twice, then the colours of the symbols. *)
Lemma colored_positions (nbits : Z) (encoded_data : list Z) (k : nat) :
  nbits = 2 \/ nbits = 3 ->
  (Z.of_nat k < 2 * 2 ^ nbits ->
   nth k (colors_prefix nbits
          ++ map (color_of nbits) (symbol_indices nbits encoded_data))
       EmptyString
   = color_of nbits (Z.of_nat k mod 2 ^ nbits)) /\
  (2 * 2 ^ nbits <= Z.of_nat k ->
   (k < length (colors_prefix nbits
                ++ map (color_of nbits)
                       (symbol_indices nbits encoded_data)))%nat ->
   nth k (colors_prefix nbits
          ++ map (color_of nbits) (symbol_indices nbits encoded_data))
       EmptyString
   = color_of nbits
       (nth (k - Z.to_nat (2 * 2 ^ nbits))
            (symbol_indices nbits encoded_data) 0)).
Proof.
  intros Hb.
  pose proof (length_color_map nbits Hb) as Hcm.
  assert (Hpre : Z.of_nat (length (colors_prefix nbits)) = 2 * 2 ^ nbits)
    by (unfold colors_prefix; rewrite length_app; lia).
  split.
  - intros Hk. rewrite app_nth1 by lia.
    unfold colors_prefix, color_of.
    destruct (Z_lt_ge_dec (Z.of_nat k) (2 ^ nbits)) as [Hlow|Hhigh].
    + rewrite app_nth1 by lia. rewrite Z.mod_small by lia.
      now rewrite Nat2Z.id.
    + rewrite app_nth2 by lia. f_equal.
      replace (Z.of_nat k mod 2 ^ nbits) with (Z.of_nat k - 2 ^ nbits);
        [lia|].
      apply Z.mod_unique with (q := 1); lia.
  - intros Hk Hlen. rewrite length_app, length_map in Hlen.
    rewrite app_nth2 by lia.
    replace (k - length (colors_prefix nbits))%nat
      with (k - Z.to_nat (2 * 2 ^ nbits))%nat by lia.
    rewrite (nth_indep _ EmptyString (color_of nbits 0))
      by (rewrite length_map; lia).
    apply (map_nth (color_of nbits)).
Qed.

(** The only exception a loop can raise is the one its body can raise. *)
Lemma mapM_only {A B : Type} (f : A -> result B) (e : exn) (l : list A) :
  (forall a e', f a = Raise e' -> e' = e) ->
  forall e', mapM f l = Raise e' -> e' = e.
Proof.
  intros Hf. induction l as [|a tl IH]; cbn [mapM]; intros e' H.
  - discriminate.
  - destruct (f a) as [b|e0] eqn:Hfa; cbn [bind] in H.
    + destruct (mapM f tl) as [bs|e1]; cbn [bind] in H; [discriminate|].
      injection H as <-. now apply IH.
    + injection H as <-. now apply (Hf a).
Qed.

(** A colour list shorter than the grid makes the drawer index past its
    end. *)
Lemma draw_triangles_past_end (spec : Specification) (corner : Point)
    (data : list string) :
  0 < rows (size spec) -> 0 < cols (size spec) ->
  Z.of_nat (length data) < rows (size spec) * cols (size spec) ->
  draw_triangles spec corner data = Raise IndexError.
Proof.
  intros Hr Hc Hshort. unfold draw_triangles.
  apply bind_Raise. apply mapM_Raise.
  - intros i _ e' He'. revert e' He'. apply mapM_only.
    intros j e' Hj. destruct (getitem data _) as [c|e0] eqn:Hget;
      cbn [bind] in Hj; [discriminate|].
    injection Hj as <-. apply (getitem_only_IndexError _ _ _ Hget).
  - exists (rows (size spec) - 1). split; [apply In_range; lia|].
    apply mapM_Raise.
    + intros j _ e' Hj. destruct (getitem data _) as [c|e0] eqn:Hget;
        cbn [bind] in Hj; [discriminate|].
      injection Hj as <-. apply (getitem_only_IndexError _ _ _ Hget).
    + exists (cols (size spec) - 1). split; [apply In_range; lia|].
      rewrite getitem_past_end by nia. reflexivity.
Qed.

Lemma ecc_symbols_floor (len : Z) (level : string) (nsym : Z) :
  ecc_symbols len level = Ok nsym -> 7 <= nsym.
Proof.
  unfold ecc_symbols.
  repeat (destruct (String.eqb level _);
          [intros H; injection H as <-; lia|]).
  discriminate.
Qed.

(** Whatever the codec returns, a framed message too short for the grid
    makes the encoder fail with [IndexError]. *)
Lemma generate_hccb_short_list (codec : RSCodec) (data : list Z)
    (level : string) (nsym : Z) (encoded : list Z) (mw mh : R) :
  data <> [] ->
  ecc_symbols (Z.of_nat (length data)) level = Ok nsym ->
  apply_reed_solomon codec data nsym = Ok encoded ->
  16 + 2 * Z.of_nat (length encoded)
  < grid_rows (Z.of_nat (length data)) * 24 ->
  generate_hccb codec data mw mh level = Raise IndexError.
Proof.
  intros Hne Hecc Henc Hshort.
  assert (HL : 1 <= Z.of_nat (length data))
    by (destruct data; [congruence|cbn [length]; lia]).
  unfold generate_hccb.
  rewrite (calculate_dynamic_spec_Ok _ mw mh HL). cbn [bind].
  set (spec := scale_spec _ _ _).
  assert (Hbits : bits spec = 3) by reflexivity.
  assert (Hrows : rows (size spec) = grid_rows (Z.of_nat (length data)))
    by reflexivity.
  assert (Hcols : cols (size spec) = 24) by reflexivity.
  clearbody spec.
  unfold barcode. rewrite Hecc. cbn [bind]. rewrite Henc. cbn [bind].
  rewrite Hbits.
  destruct (colored_data 3 encoded) as [colored|e] eqn:Hcol.
  2: { rewrite colored_data_eq in Hcol by (now right). discriminate. }
  cbn [bind].
  pose proof (length_colored_data 3 encoded colored
                (or_intror eq_refl) Hcol) as Hlen.
  change (2 * 2 ^ 3) with 16 in Hlen. change (8 / 3) with 2 in Hlen.
  pose proof (grid_rows_pos _ HL) as Hpos.
  rewrite draw_triangles_past_end; [reflexivity| | |]; lia.
Qed.

(** What [apply_reed_solomon] returns on one block. *)
Lemma apply_reed_solomon_block (codec : RSCodec) (payload : list Z)
    (nsym : Z) (framed : list Z) :
  RSLaws codec -> 0 < nsym -> payload <> [] ->
  Z.of_nat (length payload) + nsym <= 255 ->
  apply_reed_solomon codec payload nsym = Ok framed ->
  Z.of_nat (length framed) = Z.of_nat (length payload) + nsym.
Proof.
  intros Hlaws Hn Hne Hblock Happly.
  unfold apply_reed_solomon, to_bytes in Happly.
  destruct (forallb is_byte payload); cbn [bind] in Happly; [|discriminate].
  destruct (encode_block codec Hlaws nsym payload Hn Hne Hblock)
    as (parity & Henc & Hpar).
  rewrite Henc in Happly. injection Happly as <-.
  rewrite length_app. lia.
Qed.

(** A colour list that covers the grid is drawn entirely. *)
Lemma draw_triangles_Ok (spec : Specification) (corner : Point)
    (data : list string) :
  rows (size spec) * cols (size spec) <= Z.of_nat (length data) ->
  exists shapes : list Shape, draw_triangles spec corner data = Ok shapes.
Proof.
  intros Hfit. unfold draw_triangles.
  set (cell := fun (i j : Z) =>
         draw_triangle (if j mod 2 =? 0 then Up else Down)
           (nth (Z.to_nat (i * cols (size spec) + j)) data EmptyString)
           (white_strip_height spec) (triangle_dim spec)
           {| x := (x corner
                    + IZR (cols (size spec) - j - 1)
                      * (width (triangle_dim spec) / 2))%R;
              y := (y corner
                    + IZR (rows (size spec) - i - 1)
                      * (strip_height (get_row_spec spec)
                         + space_height (get_row_spec spec)))%R |}).
  rewrite (mapM_Ok _ (fun i => map (cell i) (range (cols (size spec))))).
  - cbn [bind]. eexists. reflexivity.
  - intros i Hi. apply In_range in Hi. apply mapM_Ok.
    intros j Hj. apply In_range in Hj.
    rewrite (getitem_Ok data _ EmptyString) by nia.
    reflexivity.
Qed.

(** The converse of the failure: a framed message long enough for the
    grid is drawn. *)
Lemma generate_hccb_long_list (codec : RSCodec) (data : list Z)
    (level : string) (nsym : Z) (encoded : list Z) (mw mh : R) :
  data <> [] ->
  ecc_symbols (Z.of_nat (length data)) level = Ok nsym ->
  apply_reed_solomon codec data nsym = Ok encoded ->
  grid_rows (Z.of_nat (length data)) * 24
  <= 16 + 2 * Z.of_nat (length encoded) ->
  exists shapes : list Shape,
    generate_hccb codec data mw mh level = Ok shapes.
Proof.
  intros Hne Hecc Henc Hlong.
  assert (HL : 1 <= Z.of_nat (length data))
    by (destruct data; [congruence|cbn [length]; lia]).
  unfold generate_hccb.
  rewrite (calculate_dynamic_spec_Ok _ mw mh HL). cbn [bind].
  set (spec := scale_spec _ _ _).
  assert (Hbits : bits spec = 3) by reflexivity.
  assert (Hrows : rows (size spec) = grid_rows (Z.of_nat (length data)))
    by reflexivity.
  assert (Hcols : cols (size spec) = 24) by reflexivity.
  clearbody spec.
  unfold barcode. rewrite Hecc. cbn [bind]. rewrite Henc. cbn [bind].
  rewrite Hbits.
  destruct (colored_data 3 encoded) as [colored|e] eqn:Hcol.
  2: { rewrite colored_data_eq in Hcol by (now right). discriminate. }
  cbn [bind].
  pose proof (length_colored_data 3 encoded colored
                (or_intror eq_refl) Hcol) as Hlen.
  change (2 * 2 ^ 3) with 16 in Hlen. change (8 / 3) with 2 in Hlen.
  match goal with
  | |- context [draw_triangles spec ?c colored] =>
      destruct (draw_triangles_Ok spec c colored) as [shapes ->]; [lia|]
  end.
  cbn [bind]. eexists. reflexivity.
Qed.

(** The scenario of the design document: [HI] at level M is drawn. *)
Example generate_hccb_hi :
  exists shapes : list Shape,
    generate_hccb reference [72; 73] 500 500 "M" = Ok shapes.
Proof.
  destruct (apply_reed_solomon reference [72; 73] 10) as [framed|e] eqn:Happly;
    [|vm_compute in Happly; discriminate].
  apply (generate_hccb_long_list reference [72; 73] "M" 10 framed).
  - discriminate.
  - reflexivity.
  - exact Happly.
  - assert (Hlen : Z.of_nat (length framed) = 12).
    { apply (apply_reed_solomon_block reference [72; 73] 10 framed
               ReedSoloFacts.reference_laws); [lia|discriminate| |exact Happly].
      vm_compute. discriminate. }
    rewrite Hlen. vm_compute. discriminate.
Qed.

(** Four hundred bytes at level M (100 parity bytes per block) do not fit
    one block: the reference codec cuts the message in blocks of
    [255 - 100] bytes and adds the parity of each, 700 bytes in all. *)
Lemma four_hundred_bytes_framed :
  exists framed : list Z,
    apply_reed_solomon reference (repeat 72 400) 100 = Ok framed /\
    length framed = 700%nat.
Proof. eexists. split; vm_compute; reflexivity. Qed.

(** A codec that frames four hundred bytes in 500 bytes makes the encoder
    fail; framed in 700 bytes by the reference codec, the barcode is
    drawn. *)
Example four_hundred_bytes_level_M :
  (forall (codec : RSCodec) (data encoded : list Z) (mw mh : R),
     length data = 400%nat ->
     apply_reed_solomon codec data 100 = Ok encoded ->
     length encoded = 500%nat ->
     generate_hccb codec data mw mh "M" = Raise IndexError) /\
  (exists shapes : list Shape,
     generate_hccb reference (repeat 72 400) 500 500 "M" = Ok shapes).
Proof.
  split.
  - intros codec data encoded mw mh Hdata Henc Hlen.
    apply (generate_hccb_short_list codec data "M" 100 encoded).
    + intros ->. discriminate.
    + rewrite Hdata. reflexivity.
    + exact Henc.
    + rewrite Hdata, Hlen. reflexivity.
  - destruct four_hundred_bytes_framed as (framed & Happly & Hlen).
    apply (generate_hccb_long_list reference (repeat 72 400) "M" 100 framed).
    + discriminate.
    + reflexivity.
    + exact Happly.
    + rewrite Hlen. vm_compute. discriminate.
Qed.

(** Within one block the framed message has the payload's length plus
    the parity, so the comparison only depends on the payload length and
    the level. *)
Lemma generate_hccb_one_block (codec : RSCodec) (data : list Z)
    (level : string) (nsym : Z) (mw mh : R) :
  RSLaws codec ->
  forallb is_byte data = true ->
  data <> [] ->
  ecc_symbols (Z.of_nat (length data)) level = Ok nsym ->
  Z.of_nat (length data) + nsym <= 255 ->
  16 + 2 * (Z.of_nat (length data) + nsym)
  < grid_rows (Z.of_nat (length data)) * 24 ->
  generate_hccb codec data mw mh level = Raise IndexError.
Proof.
  intros Hlaws Hbytes Hne Hecc Hblock Hshort.
  pose proof (ecc_symbols_floor _ _ _ Hecc) as Hfloor.
  destruct (encode_block codec Hlaws nsym data ltac:(lia) Hne Hblock)
    as (parity & Henc & Hpar).
  assert (Happly : apply_reed_solomon codec data nsym = Ok (data ++ parity)).
  { unfold apply_reed_solomon, to_bytes. rewrite Hbytes. exact Henc. }
  apply (generate_hccb_short_list codec data level nsym (data ++ parity));
    try assumption.
  rewrite length_app. lia.
Qed.

(** [C6], as the code has it: the grid comes from the payload length
    alone, while the list of colours has 16 synchronization symbols and
    two symbols for each byte of the framed message, parity included.
    Whatever the codec, the encoder fails with [IndexError] exactly when
    that list is shorter than [rows * cols], and draws the barcode
    otherwise.  Within one Reed-Solomon block the framed message has
    [L + nsym] bytes, so it fails whenever
    [16 + 2 * (L + nsym) < rows * 24]; this is so for every payload of
    100 bytes at level M (266 colours for 288 cells). *)
Theorem C6_grid_ignores_sync_and_parity :
  (forall (codec : RSCodec) (data : list Z) (level : string) (nsym : Z)
          (encoded : list Z) (mw mh : R),
     data <> [] ->
     ecc_symbols (Z.of_nat (length data)) level = Ok nsym ->
     apply_reed_solomon codec data nsym = Ok encoded ->
     exists (spec : Specification) (colored : list string),
       calculate_dynamic_spec (Z.of_nat (length data)) mw mh = Ok spec /\
       rows (size spec) = grid_rows (Z.of_nat (length data)) /\
       cols (size spec) = 24 /\
       colored_data (bits spec) encoded = Ok colored /\
       Z.of_nat (length colored) = 16 + 2 * Z.of_nat (length encoded) /\
       (Z.of_nat (length colored) < rows (size spec) * cols (size spec) ->
        generate_hccb codec data mw mh level = Raise IndexError) /\
       (rows (size spec) * cols (size spec) <= Z.of_nat (length colored) ->
        exists shapes : list Shape,
          generate_hccb codec data mw mh level = Ok shapes)) /\
  (forall codec : RSCodec, RSLaws codec ->
   forall (data : list Z) (level : string) (nsym : Z) (mw mh : R),
     forallb is_byte data = true ->
     data <> [] ->
     ecc_symbols (Z.of_nat (length data)) level = Ok nsym ->
     Z.of_nat (length data) + nsym <= 255 ->
     16 + 2 * (Z.of_nat (length data) + nsym)
     < grid_rows (Z.of_nat (length data)) * 24 ->
     generate_hccb codec data mw mh level = Raise IndexError) /\
  (forall codec : RSCodec, RSLaws codec ->
   forall (data : list Z) (mw mh : R),
     forallb is_byte data = true ->
     length data = 100%nat ->
     generate_hccb codec data mw mh "M" = Raise IndexError).
Proof.
  split; [|split].
  - intros codec data level nsym encoded mw mh Hne Hecc Happly.
    assert (HL : 1 <= Z.of_nat (length data))
      by (destruct data; [congruence|cbn [length]; lia]).
    eexists. eexists.
    split; [apply (calculate_dynamic_spec_Ok _ mw mh HL)|].
    split; [reflexivity|]. split; [reflexivity|].
    cbn [bits scale_spec first_spec base_spec].
    split; [apply colored_data_eq; now right|].
    assert (Hlen : Z.of_nat (length (color_map 3 ++ color_map 3
                     ++ map (color_of 3) (symbol_indices 3 encoded)))
                   = 16 + 2 * Z.of_nat (length encoded)).
    { apply (length_colored_data 3 encoded); [now right|].
      apply colored_data_eq. now right. }
    split; [exact Hlen|].
    cbn [size rows cols scale_spec first_spec]. rewrite Hlen. split.
    + intros Hshort.
      apply (generate_hccb_short_list codec data level nsym encoded);
        assumption.
    + intros Hlong.
      apply (generate_hccb_long_list codec data level nsym encoded);
        assumption.
  - intros codec Hlaws data level nsym mw mh.
    now apply generate_hccb_one_block.
  - intros codec Hlaws data mw mh Hbytes Hlen.
    apply (generate_hccb_one_block codec data "M" 25 mw mh Hlaws Hbytes).
    + intros ->. discriminate.
    + rewrite Hlen. reflexivity.
    + rewrite Hlen. vm_compute. discriminate.
    + rewrite Hlen. reflexivity.
Qed.

(** A payload of 100 bytes at level M with the reference codec: 125
    framed bytes, 266 colours, and a grid of 12 rows of 24 cells. *)
Lemma C6_grid_ignores_witness :
  generate_hccb reference (repeat 72 100) 500 500 "M" = Raise IndexError.
Proof.
  apply (proj2 (proj2 C6_grid_ignores_sync_and_parity) reference
           ReedSoloFacts.reference_laws (repeat 72 100) 500%R 500%R);
    reflexivity.
Defined.

(** [C6] as stated fails on its example: four hundred bytes at level M
    are framed in three blocks, 700 bytes, which give 1416 colours for a
    grid of 45 rows of 24 cells, and the barcode is drawn. *)
Lemma C6_counterexample :
  exists (framed : list Z) (shapes : list Shape),
    ecc_symbols (Z.of_nat (length (repeat 72 400))) "M" = Ok 100 /\
    apply_reed_solomon reference (repeat 72 400) 100 = Ok framed /\
    16 + 2 * Z.of_nat (length framed) = 1416 /\
    grid_rows (Z.of_nat (length (repeat 72 400))) * 24 = 1080 /\
    generate_hccb reference (repeat 72 400) 500 500 "M" = Ok shapes /\
    generate_hccb reference (repeat 72 400) 500 500 "M" <> Raise IndexError.
Proof.
  destruct four_hundred_bytes_framed as (framed & Happly & Hlen).
  destruct (generate_hccb_long_list reference (repeat 72 400) "M" 100 framed
              500%R 500%R) as [shapes Hshapes].
  - discriminate.
  - reflexivity.
  - exact Happly.
  - rewrite Hlen. vm_compute. discriminate.
  - exists framed, shapes.
    split; [reflexivity|]. split; [exact Happly|].
    split; [rewrite Hlen; reflexivity|]. split; [reflexivity|].
    split; [exact Hshapes|]. rewrite Hshapes. discriminate.
Qed.

End EncoderFacts.

(* ================================================================== *)
(** * The colour classifier *)
(* ================================================================== *)

Module NearestFacts.

Import Nearest.

Local Open Scope R_scope.

Section MinBy.

Context {A : Type} (key : A -> R).

(** The element [min] returns cuts the sequence in two: everything before
    it has a strictly larger key, nothing after it has a smaller one. *)
Lemma min_from_split (rest : list A) :
  forall best : A,
  exists pre post : list A,
    best :: rest = pre ++ min_from key best rest :: post /\
    (forall c, In c pre -> key (min_from key best rest) < key c) /\
    (forall c, In c post -> key (min_from key best rest) <= key c).
Proof.
  induction rest as [|c tl IH]; intros best.
  - exists [], []. cbn. repeat split; intros c [].
  - cbn [min_from]. destruct (Rlt_dec (key c) (key best)) as [Hlt|Hge].
    + destruct (IH c) as (pre & post & Heq & Hpre & Hpost).
      exists (best :: pre), post. split; [cbn; now rewrite Heq|].
      split; [|exact Hpost].
      assert (Hc : key (min_from key c tl) <= key c).
      { assert (Hin : In c (pre ++ min_from key c tl :: post))
          by (rewrite <- Heq; now left).
        apply in_app_or in Hin. destruct Hin as [Hin|[Hin|Hin]].
        - apply Rlt_le, Hpre, Hin.
        - rewrite Hin. apply Rle_refl.
        - apply Hpost, Hin. }
      intros x [<-|Hx]; [lra|apply Hpre, Hx].
    + destruct (IH best) as (pre & post & Heq & Hpre & Hpost).
      destruct pre as [|p pre'].
      * cbn in Heq. injection Heq as Hbest Htl.
        exists [], (c :: post). split; [cbn; congruence|].
        split; [intros x []|].
        intros x [<-|Hx]; [rewrite <- Hbest; lra|apply Hpost, Hx].
      * cbn in Heq. injection Heq as Hp Htl. subst p.
        exists (best :: c :: pre'), post.
        split; [cbn; do 2 f_equal; exact Htl|]. split; [|exact Hpost].
        assert (Hbest := Hpre best (or_introl eq_refl)).
        intros x [<-|[<-|Hx]]; [exact Hbest|lra|].
        apply Hpre. now right.
Qed.

(** [min] returns the element of least key, and among several the one of
    lowest index. *)
Lemma min_by_first_minimum (l : list A) (d : A) :
  l <> [] ->
  exists i : nat,
    (i < length l)%nat /\
    min_by key l = Ok (nth i l d) /\
    (forall j : nat, (j < length l)%nat ->
       key (nth i l d) <= key (nth j l d)) /\
    (forall j : nat, (j < i)%nat -> key (nth i l d) < key (nth j l d)).
Proof.
  destruct l as [|a tl]; [congruence|]. intros _.
  destruct (min_from_split tl a) as (pre & post & Heq & Hpre & Hpost).
  set (m := min_from key a tl) in *.
  assert (Hm : nth (length pre) (a :: tl) d = m)
    by (rewrite Heq; apply nth_middle).
  exists (length pre). rewrite Hm.
  split; [rewrite Heq, length_app; cbn [length]; lia|].
  split; [reflexivity|]. split.
  - intros j Hj.
    assert (Hin : In (nth j (a :: tl) d) (pre ++ m :: post))
      by (rewrite <- Heq; apply nth_In, Hj).
    apply in_app_or in Hin. destruct Hin as [Hin|[Hin|Hin]].
    + apply Rlt_le, Hpre, Hin.
    + rewrite <- Hin. apply Rle_refl.
    + apply Hpost, Hin.
  - intros j Hj. apply Hpre. rewrite Heq, app_nth1 by exact Hj.
    apply nth_In, Hj.
Qed.

End MinBy.

Lemma index_from_first {A : Type} (eqb : A -> A -> bool) (d : A) :
  (forall a, eqb a a = true) ->
  forall (l : list A) (i : nat) (k : Z),
    (i < length l)%nat ->
    (forall j : nat, (j < i)%nat -> eqb (nth j l d) (nth i l d) = false) ->
    index_from eqb (nth i l d) l k = Ok (k + Z.of_nat i)%Z.
Proof.
  intros Hrefl. induction l as [|a tl IH]; intros i k Hi Hbefore.
  - cbn in Hi. lia.
  - destruct i as [|i']; cbn [index_from nth].
    + rewrite Hrefl. f_equal. lia.
    + pose proof (Hbefore 0%nat ltac:(lia)) as H0. cbn [nth] in H0.
      rewrite H0, IH.
      * f_equal. lia.
      * cbn in Hi. lia.
      * intros j Hj. apply (Hbefore (S j)). lia.
Qed.

Lemma color_eqb_eq (a b : Color) : color_eqb a b = true <-> a = b.
Proof.
  destruct a as [[a0 a1] a2], b as [[b0 b1] b2]. cbn [color_eqb].
  rewrite !andb_true_iff, !Z.eqb_eq. split.
  - intros [[-> ->] ->]. reflexivity.
  - intros H. injection H as -> -> ->. auto.
Qed.








End NearestFacts.

(* ================================================================== *)
(** * Encoding then decoding *)
(* ================================================================== *)

Module RoundTripFacts.

Import Packer ReedSolo Svg Design PyFacts PackerFacts EncoderFacts DecodeFacts.

(** The bits a name contributes, [[]] when the name is unknown. *)
Definition bits_of_name (name : string) : list Z :=
  match OpenCV.color_bits name with
  | Ok ds => ds
  | Raise _ => []
  end.

Lemma length_symbol_bytes (nbits : Z) (symbols : list Z) :
  length (Reader.symbol_bytes nbits symbols) = length symbols.
Proof. unfold Reader.symbol_bytes. apply length_map. Qed.

Lemma restore_data_Ok (codec : RSCodec) (symbols : list Z) (nbits nsym : Z)
    (restored : list (list Z)) :
  Reader.restore_data codec symbols nbits nsym = Ok restored ->
  exists message message_ecc errata_pos : list Z,
    rs_decode codec nsym (Reader.symbol_bytes nbits symbols)
    = Ok (message, message_ecc, errata_pos) /\
    restored = [ message; message_ecc; errata_pos ].
Proof.
  unfold Reader.restore_data.
  destruct (rs_decode codec nsym _) as [[[m f] e]|[]]; try discriminate.
  intros H. injection H as <-. exists m, f, e. split; reflexivity.
Qed.

Lemma color_bits_of_index (k : Z) :
  0 <= k < 8 ->
  OpenCV.color_bits (nth (Z.to_nat k) OpenCV.COLOR_LIST EmptyString)
  = Ok (bits_of_name (nth (Z.to_nat k) OpenCV.COLOR_LIST EmptyString)) /\
  (length (bits_of_name (nth (Z.to_nat k) OpenCV.COLOR_LIST EmptyString))
   <= 3)%nat.
Proof.
  intros Hk.
  assert (Hcase : k = 0 \/ k = 1 \/ k = 2 \/ k = 3
                  \/ k = 4 \/ k = 5 \/ k = 6 \/ k = 7) by lia.
  assert (Hle : forall n : nat, (n <=? 3)%nat = true -> (n <= 3)%nat)
    by (intros n; apply Nat.leb_le).
  repeat (destruct Hcase as [->|Hcase];
          [split; [reflexivity|apply Hle; reflexivity]|]).
  subst k. split; [reflexivity|apply Hle; reflexivity].
Qed.

Lemma length_concat_le {A : Type} (ls : list (list A)) (n : nat) :
  Forall (fun l => (length l <= n)%nat) ls ->
  (length (concat ls) <= n * length ls)%nat.
Proof.
  induction 1 as [|l tl Hl _ IH]; cbn [concat length]; [lia|].
  rewrite length_app. lia.
Qed.

(** With three bits per symbol the second reader recovers at most three
    bits from each symbol. *)
Lemma grid_bits_of_symbols (grid : list (list string)) (symbols : list Z) :
  Forall (fun k => 0 <= k < 8) symbols ->
  concat grid = symbol_names symbols ->
  exists bits : list Z,
    OpenCV.grid_bits grid = Ok bits /\
    (length bits <= 3 * length symbols)%nat.
Proof.
  intros Hsym Hgrid. unfold OpenCV.grid_bits. rewrite Hgrid.
  rewrite (mapM_Ok OpenCV.color_bits bits_of_name).
  - cbn [bind]. eexists. split; [reflexivity|].
    replace (length symbols)
      with (length (map bits_of_name (symbol_names symbols)))
      by (unfold symbol_names; now rewrite !length_map).
    apply length_concat_le. apply Forall_forall. intros ds Hds.
    apply in_map_iff in Hds. destruct Hds as [name [<- Hname]].
    unfold symbol_names in Hname. apply in_map_iff in Hname.
    destruct Hname as [k [<- Hk]].
    rewrite Forall_forall in Hsym.
    apply (color_bits_of_index k (Hsym k Hk)).
  - intros name Hname. unfold symbol_names in Hname.
    apply in_map_iff in Hname. destruct Hname as [k [<- Hk]].
    rewrite Forall_forall in Hsym.
    apply (color_bits_of_index k (Hsym k Hk)).
Qed.

Lemma symbol_indices_range (nbits : Z) (data : list Z) :
  nbits = 2 \/ nbits = 3 ->
  Forall (fun k => 0 <= k < 2 ^ nbits) (symbol_indices nbits data).
Proof.
  intros Hb. apply Forall_forall. intros k Hk.
  unfold symbol_indices in Hk. apply in_flat_map in Hk.
  destruct Hk as [v [_ Hv]]. apply (value_indices_range nbits v k Hb Hv).
Qed.


(** [C1] against the code: within one Reed-Solomon block, and with no
    classification error, neither reader returns the payload.  The first
    reader makes one byte of every symbol, so the decoder is handed
    [8 // bits] times the framed length; if it succeeds, the reader
    returns the list of the three bytearrays of the decoder, and the
    message among them has more bytes than the payload (both bit
    depths).  The second reader
    recovers at most three bits from each of the two symbols the encoder
    wrote for a byte, so with three bits per symbol the decoder is handed
    fewer bytes than were framed and, if it succeeds, returns fewer bytes
    than the payload has. *)
Theorem C1_round_trip_fails :
  forall codec : RSCodec, RSLaws codec ->
  forall (nbits : Z) (payload : list Z) (level : string) (nsym : Z)
         (framed : list Z),
    nbits = 2 \/ nbits = 3 ->
    payload <> [] ->
    ecc_symbols (Z.of_nat (length payload)) level = Ok nsym ->
    (8 / nbits) * (Z.of_nat (length payload) + nsym) <= 255 ->
    apply_reed_solomon codec payload nsym = Ok framed ->
    (forall restored : list (list Z),
       Reader.restore_data codec (symbol_indices nbits framed) nbits nsym
       = Ok restored ->
       exists message message_ecc errata_pos : list Z,
         restored = [ message; message_ecc; errata_pos ] /\
         message <> payload /\
         (length payload < length message)%nat) /\
    (nbits = 3 ->
     forall grid : list (list string),
       concat grid = symbol_names (symbol_indices nbits framed) ->
       OpenCV.decode_grid codec nsym grid <> Ok payload).
Proof.
  intros codec Hlaws nbits payload level nsym framed Hb Hne Hecc Hfit Happly.
  pose proof (ecc_symbols_floor _ _ _ Hecc) as Hfloor.
  pose proof (ReedSoloFacts.nonempty_length payload Hne) as Hpos.
  assert (Hper : 2 <= 8 / nbits <= 4)
    by (destruct Hb as [-> | ->];
        [change (8 / 2) with 4|change (8 / 3) with 2]; lia).
  assert (Hblock : Z.of_nat (length payload) + nsym <= 255) by nia.
  pose proof (apply_reed_solomon_block codec payload nsym framed Hlaws
                ltac:(lia) Hne Hblock Happly) as Hframed.
  split.
  - intros restored Hret. apply restore_data_Ok in Hret.
    destruct Hret as (message & message_ecc & errata_pos & Hdec & ->).
    apply (decode_block_length codec Hlaws) in Hdec.
    + cbn [decoded_message fst] in Hdec.
      rewrite length_symbol_bytes, length_symbol_indices in Hdec.
      assert (Hlen : (length payload < length message)%nat) by nia.
      exists message, message_ecc, errata_pos.
      split; [reflexivity|]. split; [|exact Hlen].
      intros ->. lia.
    + lia.
    + rewrite length_symbol_bytes, length_symbol_indices. nia.
  - intros -> grid Hgrid Hret.
    destruct (grid_bits_of_symbols grid (symbol_indices 3 framed)
                (symbol_indices_range 3 framed (or_intror eq_refl)) Hgrid)
      as (bits & Hbits & Hlen).
    unfold OpenCV.decode_grid in Hret.
    rewrite (decode_colors_groups grid bits Hbits) in Hret.
    cbn [bind] in Hret.
    rewrite length_symbol_indices in Hlen.
    change (Z.to_nat (8 / 3)) with 2%nat in Hlen.
    assert (Hout : (8 * length (map OpenCV.bits_value (chunks 8 bits))
                    <= length bits + 7)%nat).
    { rewrite length_map, length_chunks.
      replace (length bits + 8 - 1)%nat with (length bits + 7)%nat by lia.
      apply Nat.Div0.mul_div_le. }
    destruct (rs_decode codec nsym _) as [decoded|e] eqn:Hdec;
      [|discriminate].
    cbn [bind] in Hret. injection Hret as Hmsg.
    apply (decode_block_length codec Hlaws) in Hdec; [|lia|lia].
    rewrite Hmsg in Hdec. lia.
Qed.

(** The two-byte payload [HI] at level M and three bits per symbol, with
    the reference codec. *)
Lemma C1_round_trip_witness :
  exists framed : list Z,
    apply_reed_solomon reference [72; 73] 10 = Ok framed /\
    (forall restored : list (list Z),
       Reader.restore_data reference (symbol_indices 3 framed) 3 10
       = Ok restored ->
       exists message message_ecc errata_pos : list Z,
         restored = [ message; message_ecc; errata_pos ] /\
         message <> [72; 73] /\
         (length [72; 73] < length message)%nat) /\
    OpenCV.decode_grid reference 10 [ symbol_names (symbol_indices 3 framed) ]
    <> Ok [72; 73].
Proof.
  assert (Hne : [72; 73] <> @nil Z) by discriminate.
  assert (Hecc : ecc_symbols (Z.of_nat (length [72; 73])) "M" = Ok 10)
    by reflexivity.
  assert (Hfit : (8 / 3) * (Z.of_nat (length [72; 73]) + 10) <= 255)
    by (vm_compute; discriminate).
  destruct (apply_reed_solomon reference [72; 73] 10) as [framed|e] eqn:Happly;
    [|vm_compute in Happly; discriminate].
  exists framed. split; [reflexivity|].
  destruct (C1_round_trip_fails reference ReedSoloFacts.reference_laws
              3 [72; 73] "M" 10 framed (or_intror eq_refl) Hne Hecc Hfit
              Happly) as [Hreader Hopencv].
  split; [exact Hreader|].
  apply (Hopencv eq_refl). cbn [concat]. now rewrite app_nil_r.
Defined.

(** The bytes of [HI] give the symbols 0, 1, 1, 1; the first reader turns
    them into the four bytes 0, 8, 8, 8 and the second into the single
    byte 21, where the framed message starts with 72, 73. *)
Example hi_through_both_readers :
  symbol_indices 3 [72; 73] = [0; 1; 1; 1] /\
  Reader.symbol_bytes 3 (symbol_indices 3 [72; 73]) = [0; 8; 8; 8] /\
  OpenCV.decode_colors [ symbol_names (symbol_indices 3 [72; 73]) ] = Ok [21].
Proof. repeat split; reflexivity. Qed.

End RoundTripFacts.

(* ================================================================== *)
(** * More on the encode-side packer *)
(* ================================================================== *)

Module PackerMore.

Import Packer PyFacts PackerFacts.

Lemma mask_in_palette (nbits a : Z) :
  0 <= Z.land a (mask nbits) < Z.of_nat (length (color_map nbits)).
Proof.
  unfold mask, color_map. destruct (nbits =? 2).
  - change 3 with (Z.ones 2). rewrite Z.land_ones by lia.
    change (Z.of_nat (length FOUR_COLOR_MAP)) with (2 ^ 2).
    apply Z.mod_pos_bound. reflexivity.
  - change 7 with (Z.ones 3). rewrite Z.land_ones by lia.
    change (Z.of_nat (length EIGHT_COLOR_MAP)) with (2 ^ 3).
    apply Z.mod_pos_bound. reflexivity.
Qed.

Lemma data_to_colors_any_bits (nbits : Z) (data : list Z) :
  nbits <> 0 ->
  data_to_colors nbits data
  = Ok (map (color_of nbits) (symbol_indices nbits data)).
Proof.
  intros Hb. induction data as [|v tl IH]; [reflexivity|].
  cbn [data_to_colors symbol_indices flat_map].
  replace (nbits =? 0) with false by (symmetry; apply Z.eqb_neq; exact Hb).
  rewrite (mapM_Ok _ (color_of nbits)).
  - cbn [bind]. fold (symbol_indices nbits tl). rewrite IH. cbn [bind].
    now rewrite map_app.
  - intros k Hk. apply getitem_Ok.
    unfold value_indices in Hk. apply in_map_iff in Hk.
    destruct Hk as [i [<- _]]. apply mask_in_palette.
Qed.

Lemma color_of_in_palette (nbits k : Z) :
  0 <= k < Z.of_nat (length (color_map nbits)) ->
  In (color_of nbits k) (color_map nbits).
Proof. intros Hk. unfold color_of. apply nth_In. lia. Qed.

Lemma symbol_indices_in_palette (nbits : Z) (data : list Z) :
  Forall (fun k => 0 <= k < Z.of_nat (length (color_map nbits)))
         (symbol_indices nbits data).
Proof.
  apply Forall_forall. intros k Hk. unfold symbol_indices in Hk.
  apply in_flat_map in Hk. destruct Hk as [v [_ Hv]].
  unfold value_indices in Hv. apply in_map_iff in Hv.
  destruct Hv as [i [<- _]]. apply mask_in_palette.
Qed.

(** [data_to_colors] on any integers and any bit depth: the only
    exception is the division [8 // 0], raised when there is a value to
    pack; otherwise every value gives [8 // bits] colours (none when that
    quotient is not positive), all taken from the palette of the bit
    depth, so no index ever leaves the palette. *)
Theorem data_to_colors_stays_in_palette :
  forall (nbits : Z) (data : list Z),
    (nbits <> 0 ->
     exists colors : list string,
       data_to_colors nbits data = Ok colors /\
       length colors = (Z.to_nat (8 / nbits) * length data)%nat /\
       Forall (fun c => In c (color_map nbits)) colors) /\
    (nbits = 0 -> data <> [] ->
     data_to_colors nbits data = Raise ZeroDivisionError) /\
    data_to_colors nbits [] = Ok [].
Proof.
  intros nbits data. split; [|split; [|reflexivity]].
  - intros Hb. eexists. split; [apply (data_to_colors_any_bits _ _ Hb)|].
    split; [now rewrite length_map, length_symbol_indices|].
    apply Forall_forall. intros c Hc. apply in_map_iff in Hc.
    destruct Hc as [k [<- Hk]]. apply color_of_in_palette.
    pose proof (symbol_indices_in_palette nbits data) as Hall.
    rewrite Forall_forall in Hall. apply Hall, Hk.
  - intros -> Hne. destruct data; [congruence|reflexivity].
Qed.

Lemma value_indices_two_mod (b : Z) :
  value_indices 2 b
  = [ b mod 4; (b / 4) mod 4; (b / 16) mod 4; (b / 64) mod 4 ].
Proof.
  rewrite value_indices_two. change 3 with (Z.ones 2).
  rewrite !Z.land_ones, !Z.shiftr_div_pow2 by lia.
  change (2 ^ 0) with 1. rewrite Z.div_1_r. reflexivity.
Qed.

Lemma value_indices_three_mod (b : Z) :
  value_indices 3 b = [ b mod 8; (b / 8) mod 8 ].
Proof.
  rewrite value_indices_three. change 7 with (Z.ones 3).
  rewrite !Z.land_ones, !Z.shiftr_div_pow2 by lia.
  change (2 ^ 0) with 1. rewrite Z.div_1_r. reflexivity.
Qed.

Lemma value_indices_two_eq (a b : Z) :
  value_indices 2 a = value_indices 2 b <-> a mod 256 = b mod 256.
Proof.
  rewrite !value_indices_two_mod. split.
  - intros H. injection H as H0 H1 H2 H3.
    Z.div_mod_to_equations. lia.
  - intros H.
    assert (a mod 4 = b mod 4 /\ (a / 4) mod 4 = (b / 4) mod 4
            /\ (a / 16) mod 4 = (b / 16) mod 4
            /\ (a / 64) mod 4 = (b / 64) mod 4) as (-> & -> & -> & ->);
      [|reflexivity].
    Z.div_mod_to_equations. lia.
Qed.

Lemma value_indices_three_eq (a b : Z) :
  value_indices 3 a = value_indices 3 b <-> a mod 64 = b mod 64.
Proof.
  rewrite !value_indices_three_mod. split.
  - intros H. injection H as H0 H1. Z.div_mod_to_equations. lia.
  - intros H.
    assert (a mod 8 = b mod 8 /\ (a / 8) mod 8 = (b / 8) mod 8)
      as (-> & ->); [|reflexivity].
    Z.div_mod_to_equations. lia.
Qed.

Lemma app_eq_same_length {A : Type} (a a' b b' : list A) :
  length a = length a' -> a ++ b = a' ++ b' -> a = a' /\ b = b'.
Proof.
  revert a'. induction a as [|x tl IH]; intros [|x' tl'] Hlen H;
    try discriminate.
  - now split.
  - cbn in H. injection H as -> H. cbn in Hlen.
    destruct (IH tl' ltac:(lia) H) as [-> ->]. now split.
Qed.

Lemma flat_map_fixed_eq {A B : Type} (f : A -> list B) (n : nat)
    (l l' : list A) :
  (0 < n)%nat -> (forall a, length (f a) = n) ->
  flat_map f l = flat_map f l' <-> map f l = map f l'.
Proof.
  intros Hn Hlen. revert l'.
  induction l as [|a tl IH]; intros [|a' tl']; cbn [flat_map map].
  - tauto.
  - split; [|discriminate]. intros H.
    apply (f_equal (@length B)) in H. rewrite length_app, Hlen in H.
    cbn in H. lia.
  - split; [|discriminate]. intros H.
    apply (f_equal (@length B)) in H. rewrite length_app, Hlen in H.
    cbn in H. lia.
  - split.
    + intros H. apply app_eq_same_length in H; [|now rewrite !Hlen].
      destruct H as [-> H]. f_equal. now apply IH.
    + intros H. injection H as -> H. f_equal. now apply IH.
Qed.

Lemma map_eq_iff {A B C : Type} (f : A -> B) (g : A -> C) (l l' : list A) :
  (forall a b, f a = f b <-> g a = g b) ->
  map f l = map f l' <-> map g l = map g l'.
Proof.
  intros Hfg. revert l'.
  induction l as [|a tl IH]; intros [|a' tl']; cbn [map];
    try (split; [reflexivity || discriminate|reflexivity || discriminate]).
  split; intros H; injection H as H0 H1; f_equal;
    try (now apply Hfg); now apply IH.
Qed.

Lemma mod_256_byte (l : list Z) :
  forallb is_byte l = true -> map (fun v => v mod 256) l = l.
Proof.
  intros H. rewrite forallb_forall in H.
  rewrite <- (map_id l) at 2. apply map_ext_in. intros v Hv.
  specialize (H v Hv). unfold is_byte in H.
  apply andb_true_iff in H. destruct H as [H0 H1].
  apply Z.leb_le in H0. apply Z.ltb_lt in H1. apply Z.mod_small. lia.
Qed.

(** What the symbols keep of the bytes.  With two bits per symbol two
    sequences of integers get the same symbols exactly when they agree
    modulo 256, so distinct byte sequences never collide; with three bits
    per symbol they get the same symbols exactly when they agree modulo
    64: the two top bits of every byte do not reach the barcode. *)
Theorem symbols_keep_low_bits :
  forall d d' : list Z,
    (symbol_indices 2 d = symbol_indices 2 d'
     <-> map (fun v => v mod 256) d = map (fun v => v mod 256) d') /\
    (symbol_indices 3 d = symbol_indices 3 d'
     <-> map (fun v => v mod 64) d = map (fun v => v mod 64) d') /\
    (forallb is_byte d = true -> forallb is_byte d' = true ->
     symbol_indices 2 d = symbol_indices 2 d' -> d = d').
Proof.
  intros d d'.
  assert (H2 : symbol_indices 2 d = symbol_indices 2 d'
               <-> map (fun v => v mod 256) d = map (fun v => v mod 256) d').
  { unfold symbol_indices.
    rewrite (flat_map_fixed_eq (value_indices 2) 4)
      by (lia || intros; apply length_value_indices).
    apply map_eq_iff. intros a b. apply value_indices_two_eq. }
  split; [exact H2|]. split.
  - unfold symbol_indices.
    rewrite (flat_map_fixed_eq (value_indices 3) 2)
      by (lia || intros; apply length_value_indices).
    apply map_eq_iff. intros a b. apply value_indices_three_eq.
  - intros Hd Hd' H. apply H2 in H.
    now rewrite !mod_256_byte in H by assumption.
Qed.

End PackerMore.

(* ================================================================== *)
(** * More on the specification calculator *)
(* ================================================================== *)

Module CalculatorMore.

Import Svg PyFacts GeometryFacts.

Local Open Scope R_scope.

Lemma ceil_div_le (a a' b : Z) :
  (0 < b)%Z -> (a <= a')%Z -> (ceil_div a b <= ceil_div a' b)%Z.
Proof.
  intros Hb Ha. unfold ceil_div.
  assert ((- a') / b <= (- a) / b)%Z by (apply Z.div_le_mono; lia).
  lia.
Qed.

(** The grid grows with the payload: neither the number of symbols the
    calculator asks for nor the number of rows ever decreases when the
    payload gets longer. *)
Theorem grid_rows_monotone :
  forall L L' : Z,
    (L <= L')%Z ->
    (required_triangles L <= required_triangles L')%Z /\
    (grid_rows L <= grid_rows L')%Z.
Proof.
  intros L L' HL.
  assert (Hreq : (required_triangles L <= required_triangles L')%Z)
    by (apply ceil_div_le; [reflexivity|lia]).
  split; [exact Hreq|]. apply ceil_div_le; [reflexivity|exact Hreq].
Qed.

Lemma grid_rows_monotone_witness :
  (required_triangles 2 <= required_triangles 100)%Z /\
  (grid_rows 2 <= grid_rows 100)%Z.
Proof.
  assert (H : (2 <= 100)%Z) by lia.
  exact (grid_rows_monotone 2 100 H).
Defined.

Lemma py_min_cases (a b : R) : py_min a b = a \/ py_min a b = b.
Proof. unfold py_min. destruct (Rlt_dec b a); [now right|now left]. Qed.

Lemma py_min_pos (a b : R) : 0 < a -> 0 < b -> 0 < py_min a b.
Proof. intros. destruct (py_min_cases a b) as [-> | ->]; assumption. Qed.

(** On a positive canvas the specification is the largest one of its
    proportions that fits: one of its total dimensions equals the bound
    of the canvas, every length in it is positive, and the triangle
    keeps the proportions of the base template. *)
Theorem specification_touches_canvas :
  forall (L : Z) (max_width max_height : R),
    (1 <= L)%Z -> 0 < max_width -> 0 < max_height ->
    exists spec : Specification,
      calculate_dynamic_spec L max_width max_height = Ok spec /\
      (width (barcode_dim spec) = max_width
       \/ height (barcode_dim spec) = max_height) /\
      0 < left (white_frame_pad spec) /\
      0 < right (white_frame_pad spec) /\
      0 < top (white_frame_pad spec) /\
      0 < bottom (white_frame_pad spec) /\
      0 < left (black_background_pad spec) /\
      0 < right (black_background_pad spec) /\
      0 < top (black_background_pad spec) /\
      0 < bottom (black_background_pad spec) /\
      0 < white_strip_height spec /\
      0 < row_inset spec /\
      0 < width (triangle_dim spec) /\
      0 < height (triangle_dim spec) /\
      width (triangle_dim spec) * 20.87 = height (triangle_dim spec) * 25.48.
Proof.
  intros L mw mh HL Hmw Hmh. eexists.
  split; [apply calculate_dynamic_spec_Ok, HL|].
  destruct (first_dims_pos L HL) as [Hw Hh].
  pose proof (first_scale_pos L HL) as Hs.
  set (f := py_min (mw / width (barcode_dim (first_spec L)))
                   (mh / height (barcode_dim (first_spec L)))).
  assert (Hf : 0 < f)
    by (apply py_min_pos; apply Rdiv_lt_0_compat; assumption).
  destruct (barcode_dim_scale f (first_spec L)) as [Ew Eh].
  split.
  - rewrite Ew, Eh.
    destruct (py_min_cases (mw / width (barcode_dim (first_spec L)))
                           (mh / height (barcode_dim (first_spec L))))
      as [E|E]; fold f in E; rewrite E; [left|right]; field; lra.
  - cbn [scale_spec first_spec scale_pad scale_dim base_spec
         white_frame_pad black_background_pad white_strip_height row_inset
         triangle_dim left right top bottom width height].
    assert (Hsf : 0 < first_scale L * f) by (apply Rmult_lt_0_compat; lra).
    repeat split; nra.
Qed.

Lemma specification_touches_witness :
  exists spec : Specification,
    calculate_dynamic_spec 2 500 500 = Ok spec /\
    (width (barcode_dim spec) = 500 \/ height (barcode_dim spec) = 500).
Proof.
  assert (H2 : (1 <= 2)%Z) by lia.
  assert (Hw : 0 < 500) by lra.
  destruct (specification_touches_canvas 2 500 500 H2 Hw Hw)
    as (spec & Hspec & Htouch & _).
  exists spec. split; assumption.
Defined.

Lemma py_min_scale (c a b : R) :
  0 < c -> py_min (c * a) (c * b) = c * py_min a b.
Proof.
  intros Hc. unfold py_min.
  destruct (Rlt_dec (c * b) (c * a)) as [H|H], (Rlt_dec b a) as [H'|H'];
    try reflexivity; exfalso; nra.
Qed.

(** The canvas only sets the scale: a canvas [c] times larger in both
    directions gives the same grid and every length [c] times larger. *)
Theorem canvas_scales_specification :
  forall (L : Z) (max_width max_height c : R),
    (1 <= L)%Z -> 0 < c ->
    exists spec spec' : Specification,
      calculate_dynamic_spec L max_width max_height = Ok spec /\
      calculate_dynamic_spec L (c * max_width) (c * max_height) = Ok spec' /\
      size spec' = size spec /\
      bits spec' = bits spec /\
      white_strip_height spec' = c * white_strip_height spec /\
      row_inset spec' = c * row_inset spec /\
      width (triangle_dim spec') = c * width (triangle_dim spec) /\
      height (triangle_dim spec') = c * height (triangle_dim spec) /\
      white_frame_pad spec' = scale_pad c (white_frame_pad spec) /\
      black_background_pad spec' = scale_pad c (black_background_pad spec) /\
      width (barcode_dim spec') = c * width (barcode_dim spec) /\
      height (barcode_dim spec') = c * height (barcode_dim spec).
Proof.
  intros L mw mh c HL Hc. eexists. eexists.
  split; [apply calculate_dynamic_spec_Ok, HL|].
  split; [apply calculate_dynamic_spec_Ok, HL|].
  destruct (first_dims_pos L HL) as [Hw Hh].
  set (w1 := width (barcode_dim (first_spec L))) in *.
  set (h1 := height (barcode_dim (first_spec L))) in *.
  replace (c * mw / w1) with (c * (mw / w1)) by (field; lra).
  replace (c * mh / h1) with (c * (mh / h1)) by (field; lra).
  rewrite (py_min_scale c _ _ Hc).
  set (f := py_min (mw / w1) (mh / h1)).
  destruct (barcode_dim_scale (c * f) (first_spec L)) as [-> ->].
  destruct (barcode_dim_scale f (first_spec L)) as [-> ->].
  cbn [scale_spec first_spec scale_pad scale_dim base_spec size bits
       white_frame_pad black_background_pad white_strip_height row_inset
       triangle_dim left right top bottom width height].
  repeat split; try lra; unfold scale_pad;
    cbn [left right top bottom]; f_equal; lra.
Qed.

Lemma canvas_scales_witness :
  exists spec spec' : Specification,
    calculate_dynamic_spec 2 500 500 = Ok spec /\
    calculate_dynamic_spec 2 (2 * 500) (2 * 500) = Ok spec' /\
    size spec' = size spec /\
    row_inset spec' = 2 * row_inset spec.
Proof.
  assert (H2 : (1 <= 2)%Z) by lia.
  assert (Hc : 0 < 2) by lra.
  destruct (canvas_scales_specification 2 500 500 2 H2 Hc)
    as (spec & spec' & H & H' & Hsize & _ & _ & Hinset & _).
  exists spec, spec'. repeat split; assumption.
Defined.

End CalculatorMore.

(* ================================================================== *)
(** * More on the encoder: what is drawn and how it fails *)
(* ================================================================== *)

Module EncoderMore.

Import Packer ReedSolo Svg PyFacts PackerFacts GeometryFacts EncoderFacts Views.

Lemma draw_triangles_eq (spec : Specification) (corner : Point)
    (data : list string) :
  rows (size spec) * cols (size spec) <= Z.of_nat (length data) ->
  draw_triangles spec corner data
  = Ok (concat (map (fun i => map (triangle_at spec corner data i)
                                  (range (cols (size spec))))
                    (range (rows (size spec))))).
Proof.
  intros Hfit. unfold draw_triangles.
  rewrite (mapM_Ok _ (fun i => map (triangle_at spec corner data i)
                                   (range (cols (size spec))))).
  - reflexivity.
  - intros i Hi. apply In_range in Hi. apply mapM_Ok.
    intros j Hj. apply In_range in Hj.
    rewrite (getitem_Ok data _ EmptyString) by nia.
    reflexivity.
Qed.

Lemma seq_from (a c : nat) : seq a c = map (Nat.add a) (seq 0 c).
Proof.
  revert a. induction c as [|c IH]; intros a; [reflexivity|].
  cbn [seq map]. rewrite Nat.add_0_r. f_equal.
  rewrite (IH (S a)), <- seq_shift, map_map.
  apply map_ext. intros j. lia.
Qed.

(** Rows of [c] cells read one after the other are the first [n * c]
    positions. *)
Lemma rows_in_sequence {B : Type} (h : nat -> B) (n c : nat) :
  concat (map (fun i => map (fun j => h (i * c + j)%nat) (seq 0 c)) (seq 0 n))
  = map h (seq 0 (n * c)).
Proof.
  induction n as [|n IH]; [reflexivity|].
  rewrite seq_S, map_app, concat_app, IH. cbn [map concat Nat.add].
  rewrite app_nil_r.
  replace (S n * c)%nat with (n * c + c)%nat by lia.
  rewrite seq_app, map_app. f_equal.
  rewrite Nat.add_0_l, (seq_from (n * c) c), map_map. reflexivity.
Qed.

Lemma map_nth_firstn {A : Type} (l : list A) (d : A) (n : nat) :
  (n <= length l)%nat -> map (fun k => nth k l d) (seq 0 n) = firstn n l.
Proof.
  revert n. induction l as [|a tl IH]; intros n Hn.
  - cbn in Hn. replace n with 0%nat by lia. reflexivity.
  - destruct n as [|n]; [reflexivity|].
    cbn [seq map nth firstn]. f_equal.
    rewrite <- seq_shift, map_map. cbn [nth]. apply IH. cbn in Hn. lia.
Qed.

Lemma triangle_fills (spec : Specification) (corner : Point)
    (data : list string) :
  0 <= rows (size spec) -> 0 <= cols (size spec) ->
  rows (size spec) * cols (size spec) <= Z.of_nat (length data) ->
  map shape_fill
      (concat (map (fun i => map (triangle_at spec corner data i)
                                 (range (cols (size spec))))
                   (range (rows (size spec)))))
  = firstn (Z.to_nat (rows (size spec) * cols (size spec))) data.
Proof.
  intros Hr Hc Hfit.
  set (n := Z.to_nat (rows (size spec))).
  set (c := Z.to_nat (cols (size spec))).
  rewrite concat_map, map_map. unfold range. rewrite map_map. fold n.
  rewrite (map_ext _
             (fun i => map (fun j => nth (i * c + j) data EmptyString)
                           (seq 0 c))).
  - rewrite (rows_in_sequence (fun k => nth k data EmptyString) n c).
    replace (Z.to_nat (rows (size spec) * cols (size spec)))
      with (n * c)%nat by (unfold n, c; lia).
    apply map_nth_firstn. unfold n, c. nia.
  - intros i. rewrite !map_map. fold c. apply map_ext. intros j.
    unfold triangle_at, draw_triangle. cbn [shape_fill]. f_equal.
    unfold c. nia.
Qed.

(** What [draw_triangles] draws.  A colour list that covers the grid
    gives one triangle per cell, filled with the first [rows * cols]
    colours in order; whatever follows in the list is not drawn.  A list
    shorter than a grid with cells raises [IndexError]. *)
Theorem draw_triangles_takes_first_colours :
  forall (spec : Specification) (corner : Point) (data : list string),
    0 <= rows (size spec) -> 0 <= cols (size spec) ->
    (rows (size spec) * cols (size spec) <= Z.of_nat (length data) ->
     exists shapes : list Shape,
       draw_triangles spec corner data = Ok shapes /\
       map shape_fill shapes
       = firstn (Z.to_nat (rows (size spec) * cols (size spec))) data /\
       Z.of_nat (length shapes) = rows (size spec) * cols (size spec)) /\
    (Z.of_nat (length data) < rows (size spec) * cols (size spec) ->
     draw_triangles spec corner data = Raise IndexError).
Proof.
  intros spec corner data Hr Hc. split.
  - intros Hfit. eexists. split; [apply draw_triangles_eq, Hfit|].
    pose proof (triangle_fills spec corner data Hr Hc Hfit) as Hfill.
    split; [exact Hfill|].
    apply (f_equal (@length string)) in Hfill.
    rewrite length_map, length_firstn in Hfill. lia.
  - intros Hshort. apply draw_triangles_past_end; nia.
Qed.

Lemma draw_triangles_takes_witness :
  exists shapes : list Shape,
    draw_triangles base_spec {| x := 0%R; y := 0%R |}
      (repeat "#000000"%string 300) = Ok shapes /\
    Z.of_nat (length shapes) = 288.
Proof.
  assert (Hr : 0 <= rows (size base_spec)) by (cbn; lia).
  assert (Hc : 0 <= cols (size base_spec)) by (cbn; lia).
  assert (Hfit : rows (size base_spec) * cols (size base_spec)
                 <= Z.of_nat (length (repeat "#000000"%string 300)))
    by (vm_compute; discriminate).
  destruct (proj1 (draw_triangles_takes_first_colours base_spec
                     {| x := 0%R; y := 0%R |}
                     (repeat "#000000"%string 300) Hr Hc) Hfit)
    as (shapes & Hdraw & _ & Hlen).
  exists shapes. split; [exact Hdraw|exact Hlen].
Defined.

Lemma ecc_symbols_unknown (len : Z) (level : string) :
  level <> "L"%string -> level <> "M"%string ->
  level <> "Q"%string -> level <> "H"%string ->
  ecc_symbols len level = Raise KeyError.
Proof.
  intros HL HM HQ HH. unfold ecc_symbols.
  repeat match goal with
         | |- context [String.eqb level ?s] =>
             destruct (String.eqb_spec level s); [congruence|]
         end.
  reflexivity.
Qed.

(** How [barcode] refuses its input, before anything is encoded or
    drawn: a level other than L, M, Q and H raises
    [KeyError], and with a known level a value outside [range(256)] raises
    [ValueError]. *)
Theorem barcode_refuses_bad_input :
  forall (codec : RSCodec) (spec : Specification) (w h : R)
         (data : list Z) (level : string),
    (level <> "L"%string -> level <> "M"%string ->
     level <> "Q"%string -> level <> "H"%string ->
     barcode codec spec w h data level = Raise KeyError) /\
    ((level = "L"%string \/ level = "M"%string
      \/ level = "Q"%string \/ level = "H"%string) ->
     forallb is_byte data = false ->
     barcode codec spec w h data level = Raise ValueError).
Proof.
  intros codec spec w h data level. split.
  - intros HL HM HQ HH. unfold barcode.
    now rewrite (ecc_symbols_unknown _ level HL HM HQ HH).
  - intros Hlevel Hbytes. unfold barcode.
    assert (Hecc : exists nsym,
               ecc_symbols (Z.of_nat (length data)) level = Ok nsym)
      by (destruct Hlevel as [-> | [-> | [-> | ->]]]; eexists; reflexivity).
    destruct Hecc as [nsym ->]. cbn [bind].
    unfold apply_reed_solomon, to_bytes. rewrite Hbytes. reflexivity.
Qed.

Lemma barcode_refuses_witness :
  barcode reference base_spec 500 500 [72; 73] "X" = Raise KeyError /\
  barcode reference base_spec 500 500 [72; 256] "M" = Raise ValueError.
Proof.
  destruct (barcode_refuses_bad_input reference base_spec 500 500
              [72; 73] "X") as [Hkey _].
  destruct (barcode_refuses_bad_input reference base_spec 500 500
              [72; 256] "M") as [_ Hval].
  split.
  - apply Hkey; discriminate.
  - apply Hval; [right; left; reflexivity|reflexivity].
Defined.

(** An empty payload never reaches [barcode]: whatever the codec, the
    canvas and the level (even an unknown one), [generate_hccb] fails in
    the calculator with [ZeroDivisionError]; and for a payload of at least
    one byte an unknown level is the first failure. *)
Theorem generate_hccb_first_failure :
  forall (codec : RSCodec) (w h : R) (level : string),
    generate_hccb codec [] w h level = Raise ZeroDivisionError /\
    forall data : list Z,
      data <> [] ->
      level <> "L"%string -> level <> "M"%string ->
      level <> "Q"%string -> level <> "H"%string ->
      generate_hccb codec data w h level = Raise KeyError.
Proof.
  intros codec w h level. split.
  - unfold generate_hccb. cbn [length Z.of_nat].
    rewrite calculate_dynamic_spec_eq.
    change (grid_rows 0 <? 0) with false. cbv iota.
    destruct (Req_dec_T _ 0%R) as [_|Hne]; [reflexivity|].
    exfalso. apply Hne. rewrite first_width. unfold first_scale.
    change (grid_rows 0) with 0.
    replace (0 / 12)%R with 0%R by lra. rewrite sqrt_0. lra.
  - intros data Hne HL HM HQ HH.
    assert (Hlen : 1 <= Z.of_nat (length data))
      by (destruct data; [congruence|cbn [length]; lia]).
    unfold generate_hccb.
    rewrite (calculate_dynamic_spec_Ok _ w h Hlen). cbn [bind].
    unfold barcode. now rewrite (ecc_symbols_unknown _ level HL HM HQ HH).
Qed.

(** The four levels are ordered: for every payload length the number of
    parity bytes grows from L to M to Q to H, is at least 7, and for each
    level it does not decrease when the payload gets longer. *)
Theorem ecc_symbols_ordered :
  forall len len' : Z,
    0 <= len <= len' ->
    exists nl nm nq nh nl' nm' nq' nh' : Z,
      ecc_symbols len "L" = Ok nl /\ ecc_symbols len "M" = Ok nm /\
      ecc_symbols len "Q" = Ok nq /\ ecc_symbols len "H" = Ok nh /\
      ecc_symbols len' "L" = Ok nl' /\ ecc_symbols len' "M" = Ok nm' /\
      ecc_symbols len' "Q" = Ok nq' /\ ecc_symbols len' "H" = Ok nh' /\
      7 <= nl <= nm /\ nm <= nq <= nh /\
      nl <= nl' /\ nm <= nm' /\ nq <= nq' /\ nh <= nh' /\
      2 * nh <= Z.max 34 len.
Proof.
  intros len len' Hlen.
  do 8 eexists. repeat (split; [reflexivity|]).
  assert (len / 5 <= len' / 5) by (apply Z.div_le_mono; lia).
  assert (len / 4 <= len' / 4) by (apply Z.div_le_mono; lia).
  assert (len / 3 <= len' / 3) by (apply Z.div_le_mono; lia).
  assert (len / 2 <= len' / 2) by (apply Z.div_le_mono; lia).
  assert (len / 5 <= len / 4 /\ len / 4 <= len / 3 /\ len / 3 <= len / 2
          /\ 2 * (len / 2) <= len)
    by (Z.div_mod_to_equations; lia).
  lia.
Qed.

Lemma ecc_symbols_ordered_witness :
  exists nl nm nq nh : Z,
    ecc_symbols 100 "L" = Ok nl /\ ecc_symbols 100 "M" = Ok nm /\
    ecc_symbols 100 "Q" = Ok nq /\ ecc_symbols 100 "H" = Ok nh /\
    7 <= nl <= nm /\ nm <= nq <= nh.
Proof.
  assert (H : 0 <= 100 <= 400) by lia.
  destruct (ecc_symbols_ordered 100 400 H)
    as (nl & nm & nq & nh & _ & _ & _ & _ & HL & HM & HQ & HH & _ & _ & _ & _
        & Hlm & Hqh & _).
  exists nl, nm, nq, nh. repeat split; try assumption; lia.
Defined.

Lemma length_draw_strips (row_spec : RowSpec) (corner : Point) (sz : Size) :
  length (draw_strips row_spec corner sz) = Z.to_nat (rows sz + 1).
Proof. unfold draw_strips. now rewrite length_map, length_range. Qed.

(** The shapes of a drawing, split in frame, triangles and strips. *)
Lemma barcode_layout :
  forall (codec : RSCodec) (spec : Specification) (w h : R)
         (data : list Z) (level : string) (shapes : list Shape),
    0 <= rows (size spec) -> 0 <= cols (size spec) ->
    barcode codec spec w h data level = Ok shapes ->
    exists (nsym : Z) (encoded : list Z) (colored : list string)
           (triangles strips : list Shape),
      ecc_symbols (Z.of_nat (length data)) level = Ok nsym /\
      apply_reed_solomon codec data nsym = Ok encoded /\
      colored_data (bits spec) encoded = Ok colored /\
      rows (size spec) * cols (size spec) <= Z.of_nat (length colored) /\
      shapes
      = [ RectShape WHITE
            {| point := {| x := 0%R; y := 0%R |}; dim := barcode_dim spec |};
          RectShape BLACK
            {| point := {| x := left (white_frame_pad spec);
                           y := top (white_frame_pad spec) |};
               dim := {| width := (width (barcode_dim spec)
                                   - left (white_frame_pad spec)
                                   - right (white_frame_pad spec))%R;
                         height := (height (barcode_dim spec)
                                    - top (white_frame_pad spec)
                                    - bottom (white_frame_pad spec))%R |} |} ]
        ++ triangles ++ strips /\
      map shape_fill triangles
      = firstn (Z.to_nat (rows (size spec) * cols (size spec))) colored /\
      Z.of_nat (length triangles) = rows (size spec) * cols (size spec) /\
      Z.of_nat (length strips) = rows (size spec) + 1 /\
      Forall (fun s => shape_fill s = WHITE) strips.
Proof.
  intros codec spec w h data level shapes Hr Hc Hb. unfold barcode in Hb.
  destruct (ecc_symbols _ level) as [nsym|e] eqn:Hecc; cbn [bind] in Hb;
    [|discriminate].
  destruct (apply_reed_solomon codec data nsym) as [encoded|e] eqn:Henc;
    cbn [bind] in Hb; [|discriminate].
  destruct (colored_data (bits spec) encoded) as [colored|e] eqn:Hcol;
    cbn [bind] in Hb; [|discriminate].
  match type of Hb with
  | context [draw_triangles spec ?c colored] => set (corner := c) in *
  end.
  destruct (Z_lt_ge_dec (Z.of_nat (length colored))
              (rows (size spec) * cols (size spec))) as [Hshort|Hfit].
  { rewrite draw_triangles_past_end in Hb by nia. discriminate. }
  rewrite draw_triangles_eq in Hb by lia. cbn [bind] in Hb.
  injection Hb as <-.
  exists nsym, encoded, colored. eexists. eexists.
  split; [reflexivity || assumption|]. split; [reflexivity || assumption|].
  split; [reflexivity || assumption|].
  split; [lia|]. split; [reflexivity|].
  pose proof (triangle_fills spec corner colored Hr Hc ltac:(lia)) as Hfill.
  split; [exact Hfill|]. split.
  - apply (f_equal (@length string)) in Hfill.
    rewrite length_map, length_firstn in Hfill. lia.
  - split; [rewrite length_draw_strips; lia|].
    unfold draw_strips. apply Forall_forall. intros s Hs.
    apply in_map_iff in Hs. destruct Hs as [k [<- _]]. reflexivity.
Qed.

(** The drawing [barcode] returns.  Whenever it returns one for a grid of
    [rows] by [cols] cells, the framed message was coloured, the colour
    list covers the grid, and the drawing is: the white outer rectangle of
    the total dimensions at the origin, the black inner rectangle, one
    triangle per cell filled with the first [rows * cols] colours of the
    list (synchronization symbols first), and [rows + 1] white strips. *)
Theorem barcode_drawing_layout :
  forall (codec : RSCodec) (spec : Specification) (w h : R)
         (data : list Z) (level : string) (shapes : list Shape),
    0 <= rows (size spec) -> 0 <= cols (size spec) ->
    barcode codec spec w h data level = Ok shapes ->
    exists (nsym : Z) (encoded : list Z) (colored : list string)
           (triangles strips : list Shape),
      ecc_symbols (Z.of_nat (length data)) level = Ok nsym /\
      apply_reed_solomon codec data nsym = Ok encoded /\
      colored_data (bits spec) encoded = Ok colored /\
      rows (size spec) * cols (size spec) <= Z.of_nat (length colored) /\
      shapes
      = [ RectShape WHITE
            {| point := {| x := 0%R; y := 0%R |}; dim := barcode_dim spec |};
          RectShape BLACK
            {| point := {| x := left (white_frame_pad spec);
                           y := top (white_frame_pad spec) |};
               dim := {| width := (width (barcode_dim spec)
                                   - left (white_frame_pad spec)
                                   - right (white_frame_pad spec))%R;
                         height := (height (barcode_dim spec)
                                    - top (white_frame_pad spec)
                                    - bottom (white_frame_pad spec))%R |} |} ]
        ++ triangles ++ strips /\
      map shape_fill triangles
      = firstn (Z.to_nat (rows (size spec) * cols (size spec))) colored /\
      Z.of_nat (length triangles) = rows (size spec) * cols (size spec) /\
      Z.of_nat (length strips) = rows (size spec) + 1 /\
      Forall (fun s => shape_fill s = WHITE) strips.
Proof. exact barcode_layout. Qed.

Lemma barcode_drawing_witness :
  exists shapes : list Shape,
    barcode reference base_spec 500 500 (repeat 72 200) "M" = Ok shapes /\
    Z.of_nat (length shapes) = 2 + 288 + 13.
Proof.
  assert (Hr : 0 <= rows (size base_spec)) by (cbn; lia).
  assert (Hc : 0 <= cols (size base_spec)) by (cbn; lia).
  assert (Hframed : exists framed : list Z,
            apply_reed_solomon reference (repeat 72 200) 50 = Ok framed /\
            length framed = 250%nat).
  { eexists. split; vm_compute; reflexivity. }
  destruct Hframed as (framed & Happly & Hlen).
  assert (Hdraw : exists shapes : list Shape,
            barcode reference base_spec 500 500 (repeat 72 200) "M"
            = Ok shapes).
  { unfold barcode.
    change (ecc_symbols (Z.of_nat (length (repeat 72 200))) "M") with (Ok 50).
    cbn [bind]. rewrite Happly. cbn [bind].
    change (bits base_spec) with 3.
    rewrite colored_data_eq by (now right). cbn [bind].
    match goal with
    | |- context [draw_triangles base_spec ?c ?d] =>
        destruct (draw_triangles_Ok base_spec c d) as [tri ->]
    end.
    - rewrite !length_app, length_map, length_symbol_indices, Hlen.
      vm_compute. discriminate.
    - cbn [bind]. eexists. reflexivity. }
  destruct Hdraw as [shapes Hshapes].
  destruct (barcode_drawing_layout reference base_spec 500 500
              (repeat 72 200) "M" shapes Hr Hc Hshapes)
    as (nsym & encoded & colored & triangles & strips & _ & _ & _ & _
        & Heq & _ & Htri & Hstrips & _).
  exists shapes. split; [exact Hshapes|].
  rewrite Heq, !length_app. cbn [length].
  change (rows (size base_spec)) with 12 in *.
  change (cols (size base_spec)) with 24 in *. lia.
Defined.

(** The cells in drawing order: the triangle number [k] is the one of row
    [k / cols] and column [k mod cols]. *)
Lemma draw_triangles_flat (spec : Specification) (corner : Point)
    (data : list string) :
  0 <= rows (size spec) -> 0 <= cols (size spec) ->
  rows (size spec) * cols (size spec) <= Z.of_nat (length data) ->
  draw_triangles spec corner data
  = Ok (map (fun k => triangle_at spec corner data
                        (Z.of_nat k / cols (size spec))
                        (Z.of_nat k mod cols (size spec)))
            (seq 0 (Z.to_nat (rows (size spec) * cols (size spec))))).
Proof.
  intros Hr Hc Hfit. rewrite (draw_triangles_eq spec corner data Hfit).
  f_equal.
  set (n := Z.to_nat (rows (size spec))).
  set (c := Z.to_nat (cols (size spec))).
  replace (Z.to_nat (rows (size spec) * cols (size spec)))
    with (n * c)%nat by (unfold n, c; lia).
  rewrite <- (rows_in_sequence
                (fun k => triangle_at spec corner data
                            (Z.of_nat k / cols (size spec))
                            (Z.of_nat k mod cols (size spec))) n c).
  unfold range. fold n c. rewrite map_map. f_equal.
  apply map_ext. intros i. rewrite map_map.
  apply map_ext_in. intros j Hj. apply in_seq in Hj.
  assert (Hcols : cols (size spec) = Z.of_nat c) by (unfold c; lia).
  assert (Hq : Z.of_nat (i * c + j) / cols (size spec) = Z.of_nat i).
  { symmetry. apply Z.div_unique with (r := Z.of_nat j); nia. }
  assert (Hm : Z.of_nat (i * c + j) mod cols (size spec) = Z.of_nat j).
  { symmetry. apply Z.mod_unique with (q := Z.of_nat i); nia. }
  now rewrite Hq, Hm.
Qed.

(** The order in which [draw_triangles] lays the colours out.  The colour
    number [k] of the list fills the triangle of row [k / cols] and column
    [k mod cols]; columns run from the right end of a row to the left,
    half a triangle width apart, rows from the bottom one up, and the
    triangle points up in even columns and down in odd ones.  So the
    first colour of the list is at the right end of the bottom row. *)
Theorem draw_triangles_reading_order :
  forall (spec : Specification) (corner : Point) (data : list string),
    0 <= rows (size spec) -> 0 <= cols (size spec) ->
    rows (size spec) * cols (size spec) <= Z.of_nat (length data) ->
    exists shapes : list Shape,
      draw_triangles spec corner data = Ok shapes /\
      forall k : nat,
        Z.of_nat k < rows (size spec) * cols (size spec) ->
        nth_error shapes k
        = Some (TriangleShape
                  (if (Z.of_nat k mod cols (size spec)) mod 2 =? 0
                   then Up else Down)
                  (nth k data EmptyString)
                  (white_strip_height spec) (triangle_dim spec)
                  {| x := (x corner
                           + IZR (cols (size spec)
                                  - Z.of_nat k mod cols (size spec) - 1)
                             * (width (triangle_dim spec) / 2))%R;
                     y := (y corner
                           + IZR (rows (size spec)
                                  - Z.of_nat k / cols (size spec) - 1)
                             * (white_strip_height spec
                                + height (triangle_dim spec)))%R |}).
Proof.
  intros spec corner data Hr Hc Hfit. eexists.
  split; [apply (draw_triangles_flat spec corner data Hr Hc Hfit)|].
  intros k Hk.
  rewrite nth_error_map, nth_error_nth' with (d := 0%nat)
    by (rewrite length_seq; lia).
  rewrite seq_nth by lia. cbn [option_map Nat.add].
  unfold triangle_at, draw_triangle. cbn [get_row_spec strip_height
                                          space_height].
  do 2 f_equal. f_equal.
  assert (Hcols : 0 < cols (size spec)) by nia.
  pose proof (Z.div_mod (Z.of_nat k) (cols (size spec)) ltac:(lia)). lia.
Qed.

Lemma draw_triangles_reading_witness :
  exists shapes : list Shape,
    draw_triangles base_spec {| x := 0%R; y := 0%R |}
      (repeat "#000000"%string 288) = Ok shapes /\
    nth_error shapes 0
    = Some (TriangleShape Up "#000000"%string 5.96%R
              {| width := 25.48%R; height := 20.87%R |}
              {| x := (0 + IZR (24 - 0 - 1) * (25.48 / 2))%R;
                 y := (0 + IZR (12 - 0 - 1) * (5.96 + 20.87))%R |}).
Proof.
  assert (Hr : 0 <= rows (size base_spec)) by (cbn; lia).
  assert (Hc : 0 <= cols (size base_spec)) by (cbn; lia).
  assert (Hfit : rows (size base_spec) * cols (size base_spec)
                 <= Z.of_nat (length (repeat "#000000"%string 288)))
    by (vm_compute; discriminate).
  destruct (draw_triangles_reading_order base_spec {| x := 0%R; y := 0%R |}
              (repeat "#000000"%string 288) Hr Hc Hfit)
    as (shapes & Hdraw & Hnth).
  exists shapes. split; [exact Hdraw|].
  apply (Hnth 0%nat). vm_compute. reflexivity.
Defined.

(** What a barcode made by [generate_hccb] shows of the message.  When
    the encoder returns a drawing for a payload of [L >= 1] bytes, it has
    [24 * rows] triangles for [rows = ceil(ceil(8L/3)/24)], filled with
    the first [24 * rows] entries of the sixteen synchronization colours
    followed by the two colours of each framed byte; so exactly
    [24 * rows - 16] symbols of the message are drawn, and the symbols
    after them are left out without any error. *)
Theorem generate_hccb_draws_a_prefix :
  forall (codec : RSCodec) (data : list Z) (level : string) (w h : R)
         (shapes : list Shape),
    data <> [] ->
    generate_hccb codec data w h level = Ok shapes ->
    exists (nsym : Z) (encoded : list Z) (triangles strips : list Shape),
      ecc_symbols (Z.of_nat (length data)) level = Ok nsym /\
      apply_reed_solomon codec data nsym = Ok encoded /\
      24 * grid_rows (Z.of_nat (length data))
      <= 16 + 2 * Z.of_nat (length encoded) /\
      shapes = firstn 2 shapes ++ triangles ++ strips /\
      Z.of_nat (length triangles) = 24 * grid_rows (Z.of_nat (length data)) /\
      Z.of_nat (length strips) = grid_rows (Z.of_nat (length data)) + 1 /\
      map shape_fill triangles
      = firstn (Z.to_nat (24 * grid_rows (Z.of_nat (length data))))
          (colors_prefix 3
           ++ map (color_of 3) (symbol_indices 3 encoded)) /\
      Z.of_nat (length (skipn 16 (map shape_fill triangles)))
      = 24 * grid_rows (Z.of_nat (length data)) - 16.
Proof.
  intros codec data level w h shapes Hne Hgen.
  assert (HL : 1 <= Z.of_nat (length data))
    by (destruct data; [congruence|cbn [length]; lia]).
  pose proof (grid_rows_pos _ HL) as Hrows.
  unfold generate_hccb in Hgen.
  rewrite (calculate_dynamic_spec_Ok _ w h HL) in Hgen. cbn [bind] in Hgen.
  set (spec := scale_spec _ _ _) in Hgen.
  assert (Hbits : bits spec = 3) by reflexivity.
  assert (Hr : rows (size spec) = grid_rows (Z.of_nat (length data)))
    by reflexivity.
  assert (Hc : cols (size spec) = 24) by reflexivity.
  clearbody spec.
  destruct (barcode_layout codec spec w h data level shapes
              ltac:(lia) ltac:(lia) Hgen)
    as (nsym & encoded & colored & triangles & strips & Hecc & Henc & Hcol
        & Hfit & Hshapes & Hfill & Htri & Hstrips & _).
  rewrite Hbits in Hcol.
  pose proof (length_colored_data 3 encoded colored
                (or_intror eq_refl) Hcol) as Hlen.
  change (2 * 2 ^ 3) with 16 in Hlen. change (8 / 3) with 2 in Hlen.
  rewrite colored_data_eq in Hcol by (now right). injection Hcol as Hcol.
  rewrite Hr, Hc in *.
  exists nsym, encoded, triangles, strips.
  split; [exact Hecc|]. split; [exact Henc|]. split; [lia|].
  split; [rewrite Hshapes at 1; rewrite Hshapes; reflexivity|].
  split; [lia|]. split; [exact Hstrips|]. split.
  - rewrite Hfill, <- Hcol. unfold colors_prefix. rewrite <- app_assoc.
    f_equal. lia.
  - rewrite length_skipn, length_map. lia.
Qed.

Lemma generate_hccb_draws_witness :
  exists (shapes triangles : list Shape),
    generate_hccb reference [72; 73] 500 500 "M" = Ok shapes /\
    Z.of_nat (length triangles) = 24 /\
    Z.of_nat (length (skipn 16 (map shape_fill triangles))) = 8.
Proof.
  destruct generate_hccb_hi as [shapes Hshapes].
  assert (Hne : [72; 73] <> @nil Z) by discriminate.
  destruct (generate_hccb_draws_a_prefix reference [72; 73] "M" 500 500
              shapes Hne Hshapes)
    as (nsym & encoded & triangles & strips & _ & _ & _ & _ & Htri & _ & _
        & Hdrawn).
  exists shapes, triangles. split; [exact Hshapes|].
  split; [exact Htri|exact Hdrawn].
Defined.

End EncoderMore.

(* ================================================================== *)
(** * Where the synchronization symbols are drawn *)
(* ================================================================== *)

Module SyncFacts.

Import Packer ReedSolo Svg PyFacts PackerFacts GeometryFacts EncoderFacts
       Views EncoderMore.

(** The shapes of a drawing after the two rectangles of the frame: the
    triangles of the cells, in the order of the colour list. *)
Lemma barcode_cells (codec : RSCodec) (spec : Specification) (w h : R)
    (data : list Z) (level : string) (shapes : list Shape) :
  0 <= rows (size spec) -> 0 <= cols (size spec) ->
  barcode codec spec w h data level = Ok shapes ->
  exists (nsym : Z) (encoded : list Z) (colored : list string),
    ecc_symbols (Z.of_nat (length data)) level = Ok nsym /\
    apply_reed_solomon codec data nsym = Ok encoded /\
    colored_data (bits spec) encoded = Ok colored /\
    rows (size spec) * cols (size spec) <= Z.of_nat (length colored) /\
    forall k : nat,
      Z.of_nat k < rows (size spec) * cols (size spec) ->
      nth_error shapes (2 + k)
      = Some (triangle_at spec
                {| x := (left (white_frame_pad spec)
                         + left (black_background_pad spec))%R;
                   y := (top (white_frame_pad spec)
                         + top (black_background_pad spec))%R |}
                colored
                (Z.of_nat k / cols (size spec))
                (Z.of_nat k mod cols (size spec))).
Proof.
  intros Hr Hc Hb. unfold barcode in Hb.
  destruct (ecc_symbols _ level) as [nsym|e] eqn:Hecc; cbn [bind] in Hb;
    [|discriminate].
  destruct (apply_reed_solomon codec data nsym) as [encoded|e] eqn:Henc;
    cbn [bind] in Hb; [|discriminate].
  destruct (colored_data (bits spec) encoded) as [colored|e] eqn:Hcol;
    cbn [bind] in Hb; [|discriminate].
  cbn [point x y] in Hb.
  match type of Hb with
  | context [draw_triangles spec ?c colored] => set (corner := c) in *
  end.
  destruct (Z_lt_ge_dec (Z.of_nat (length colored))
              (rows (size spec) * cols (size spec))) as [Hshort|Hfit].
  { rewrite draw_triangles_past_end in Hb by nia. discriminate. }
  rewrite (draw_triangles_flat spec corner colored Hr Hc) in Hb by lia.
  cbn [bind] in Hb. injection Hb as <-.
  exists nsym, encoded, colored.
  split; [reflexivity || assumption|].
  split; [reflexivity || assumption|].
  split; [reflexivity || assumption|].
  split; [lia|].
  intros k Hk. unfold draw_frame, draw_rect.
  cbn [app nth_error Nat.add].
  rewrite nth_error_app1 by (rewrite length_map, length_seq; lia).
  rewrite nth_error_map, nth_error_nth' with (d := 0%nat)
    by (rewrite length_seq; lia).
  rewrite seq_nth by lia. reflexivity.
Qed.

(** [C9], as the code has it: [barcode] hands the triangle drawer the
    palette, the palette again, then the colours of the framed bytes, and
    the drawer fills the cells in the order of that list; row 0 is the
    bottom row and column 0 its right end.  So in every drawing the
    triangle number [k] (the cell of row [k / cols] and column
    [k mod cols]) is filled with the palette entry [k mod 2^bits] for
    [k < 2 * 2^bits], and with the colour of the symbol number
    [k - 2 * 2^bits] of the framed message from there on: the
    synchronization symbols come first, ahead of all payload-derived
    symbols, and the payload-derived symbols follow in the next cells. *)
Theorem C9_palette_twice_before_data :
  forall (codec : RSCodec) (spec : Specification) (w h : R)
         (data : list Z) (level : string) (shapes : list Shape),
    bits spec = 2 \/ bits spec = 3 ->
    0 <= rows (size spec) -> 0 <= cols (size spec) ->
    barcode codec spec w h data level = Ok shapes ->
    exists (nsym : Z) (encoded : list Z),
      ecc_symbols (Z.of_nat (length data)) level = Ok nsym /\
      apply_reed_solomon codec data nsym = Ok encoded /\
      colored_data (bits spec) encoded
      = Ok (colors_prefix (bits spec)
            ++ map (color_of (bits spec))
                   (symbol_indices (bits spec) encoded)) /\
      colors_prefix (bits spec)
      = color_map (bits spec) ++ color_map (bits spec) /\
      Z.of_nat (length (colors_prefix (bits spec))) = 2 * 2 ^ bits spec /\
      forall k : nat,
        Z.of_nat k < rows (size spec) * cols (size spec) ->
        exists fill : string,
          nth_error shapes (2 + k)
          = Some (TriangleShape
                    (if (Z.of_nat k mod cols (size spec)) mod 2 =? 0
                     then Up else Down)
                    fill
                    (white_strip_height spec) (triangle_dim spec)
                    {| x := (left (white_frame_pad spec)
                             + left (black_background_pad spec)
                             + IZR (cols (size spec)
                                    - Z.of_nat k mod cols (size spec) - 1)
                               * (width (triangle_dim spec) / 2))%R;
                       y := (top (white_frame_pad spec)
                             + top (black_background_pad spec)
                             + IZR (rows (size spec)
                                    - Z.of_nat k / cols (size spec) - 1)
                               * (white_strip_height spec
                                  + height (triangle_dim spec)))%R |}) /\
          (Z.of_nat k < 2 * 2 ^ bits spec ->
           fill = color_of (bits spec) (Z.of_nat k mod 2 ^ bits spec)) /\
          (2 * 2 ^ bits spec <= Z.of_nat k ->
           fill = color_of (bits spec)
                    (nth (k - Z.to_nat (2 * 2 ^ bits spec))
                         (symbol_indices (bits spec) encoded) 0)).
Proof.
  intros codec spec w h data level shapes Hbits Hr Hc Hb.
  destruct (barcode_cells codec spec w h data level shapes Hr Hc Hb)
    as (nsym & encoded & colored & Hecc & Henc & Hcol & Hfit & Hcells).
  pose proof (length_color_map (bits spec) Hbits) as Hcm.
  assert (Hlist : colored_data (bits spec) encoded
                  = Ok (colors_prefix (bits spec)
                        ++ map (color_of (bits spec))
                               (symbol_indices (bits spec) encoded))).
  { rewrite (colored_data_eq (bits spec) encoded Hbits).
    unfold colors_prefix. now rewrite <- app_assoc. }
  rewrite Hlist in Hcol. injection Hcol as Hcol.
  exists nsym, encoded.
  split; [exact Hecc|]. split; [exact Henc|]. split; [exact Hlist|].
  split; [reflexivity|].
  split; [unfold colors_prefix; rewrite length_app; lia|].
  intros k Hk.
  exists (nth k colored EmptyString).
  destruct (colored_positions (bits spec) encoded k Hbits) as [Hsync Hdata].
  rewrite Hcol in Hsync, Hdata.
  split; [|split].
  - rewrite (Hcells k Hk).
    unfold triangle_at, draw_triangle.
    cbn [get_row_spec strip_height space_height x y].
    do 2 f_equal. f_equal.
    assert (Hcols : 0 < cols (size spec)) by nia.
    pose proof (Z.div_mod (Z.of_nat k) (cols (size spec)) ltac:(lia)).
    lia.
  - exact Hsync.
  - intros Hlow. apply (Hdata Hlow). lia.
Qed.

(** The payload [HI] at level M on a canvas of 500 by 500: a grid of one
    row of 24 cells. *)
Lemma hi_barcode :
  exists (spec : Specification) (shapes : list Shape),
    calculate_dynamic_spec 2 500 500 = Ok spec /\
    bits spec = 3 /\ rows (size spec) = 1 /\ cols (size spec) = 24 /\
    barcode reference spec 500 500 [72; 73] "M" = Ok shapes /\
    generate_hccb reference [72; 73] 500 500 "M" = Ok shapes.
Proof.
  destruct generate_hccb_hi as [shapes Hshapes].
  assert (HL : 1 <= 2) by lia.
  pose proof Hshapes as Hb. unfold generate_hccb in Hb.
  change (Z.of_nat (length [72; 73])) with 2 in Hb.
  rewrite (calculate_dynamic_spec_Ok 2 500 500 HL) in Hb.
  cbn [bind] in Hb.
  eexists. exists shapes.
  split; [apply (calculate_dynamic_spec_Ok 2 500 500 HL)|].
  split; [reflexivity|]. split; [reflexivity|]. split; [reflexivity|].
  split; [exact Hb|exact Hshapes].
Qed.

(** In the drawing of [HI] the tenth triangle is filled with the second
    palette entry, and the seventeenth with the colour of the first
    symbol of the byte 72. *)
Lemma C9_palette_twice_witness :
  exists (spec : Specification) (shapes : list Shape)
         (sync first : Shape),
    barcode reference spec 500 500 [72; 73] "M" = Ok shapes /\
    nth_error shapes (2 + 9) = Some sync /\
    shape_fill sync = "#FAFD28"%string /\
    nth_error shapes (2 + 16) = Some first /\
    exists encoded : list Z,
      shape_fill first
      = color_of 3 (nth 0 (symbol_indices 3 encoded) 0).
Proof.
  destruct hi_barcode as (spec & shapes & _ & Hbits & Hrows & Hcols & Hb & _).
  assert (Hb3 : bits spec = 2 \/ bits spec = 3) by (now right).
  assert (Hr : 0 <= rows (size spec)) by lia.
  assert (Hc : 0 <= cols (size spec)) by lia.
  destruct (C9_palette_twice_before_data reference spec 500 500 [72; 73]
              "M" shapes Hb3 Hr Hc Hb)
    as (nsym & encoded & _ & _ & _ & _ & _ & Hcells).
  rewrite Hbits, Hrows, Hcols in Hcells.
  destruct (Hcells 9%nat ltac:(cbn; lia)) as (f9 & H9 & Hsync & _).
  destruct (Hcells 16%nat ltac:(cbn; lia)) as (f16 & H16 & _ & Hdata).
  eexists spec, shapes, _, _.
  split; [exact Hb|]. split; [exact H9|].
  split; [cbn [shape_fill]; apply Hsync; cbn; lia|].
  split; [exact H16|].
  exists encoded. cbn [shape_fill]. apply Hdata. cbn. lia.
Defined.

(** [C9] as stated fails: no row is reserved for the synchronization
    symbols.  The drawing of [HI] has a grid of a single row; its 24
    triangles are the sixteen synchronization symbols followed, in the
    same row, by the symbols 0, 1, 1, 1 of the bytes 72 and 73 and four
    symbols of the parity; the only shapes after them are the two
    strips. *)
Lemma C9_counterexample :
  exists (spec : Specification) (shapes : list Shape),
    calculate_dynamic_spec 2 500 500 = Ok spec /\
    rows (size spec) = 1 /\ cols (size spec) = 24 /\
    generate_hccb reference [72; 73] 500 500 "M" = Ok shapes /\
    symbol_indices 3 [72; 73] = [0; 1; 1; 1] /\
    map shape_fill (firstn 24 (skipn 2 shapes))
    = colors_prefix 3 ++ map (color_of 3) [0; 1; 1; 1; 5; 5; 0; 0] /\
    length (skipn 26 shapes) = 2%nat /\
    Forall (fun s => shape_fill s = WHITE) (skipn 26 shapes).
Proof.
  destruct hi_barcode
    as (spec & shapes & Hspec & Hbits & Hrows & Hcols & Hb & Hgen).
  exists spec, shapes.
  split; [exact Hspec|]. split; [exact Hrows|]. split; [exact Hcols|].
  split; [exact Hgen|]. split; [reflexivity|].
  destruct (barcode_layout reference spec 500 500 [72; 73] "M" shapes
              ltac:(lia) ltac:(lia) Hb)
    as (nsym & encoded & colored & triangles & strips & Hecc & Henc & Hcol
        & _ & Hshapes & Hfill & Htri & Hstrips & Hwhite).
  rewrite Hrows, Hcols in *. rewrite Hbits in Hcol.
  assert (Hnsym : nsym = 10)
    by (vm_compute in Hecc; injection Hecc as <-; reflexivity).
  subst nsym.
  vm_compute in Henc. injection Henc as <-.
  vm_compute in Hcol. injection Hcol as <-.
  assert (Hlen : length triangles = 24%nat) by lia.
  assert (H2 : skipn 2 shapes = triangles ++ strips)
    by (rewrite Hshapes; reflexivity).
  assert (H24 : firstn 24 (skipn 2 shapes) = triangles).
  { rewrite H2, <- Hlen, firstn_app, firstn_all, Nat.sub_diag.
    cbn [firstn]. apply app_nil_r. }
  assert (H26 : skipn 26 shapes = strips).
  { change 26%nat with (24 + 2)%nat. rewrite <- skipn_skipn, H2, <- Hlen.
    rewrite skipn_app, skipn_all, Nat.sub_diag. reflexivity. }
  rewrite H24, H26, Hfill.
  split; [reflexivity|]. split; [lia|exact Hwhite].
Qed.

End SyncFacts.

(* ================================================================== *)
(** * More on the first reader *)
(* ================================================================== *)

Module ReaderMore.

Import ReedSolo Nearest Reader PyFacts NearestFacts DecodeFacts Views.

(** The classifier always answers, with an index of the palette. *)
Lemma classify_Ok (nbits : Z) (sample : Sample) :
  exists i : nat,
    (i < length (color_map nbits))%nat /\
    classify nbits sample = Ok (Z.of_nat i).
Proof.
  set (palette := color_map nbits).
  assert (Hne : palette <> [])
    by (unfold palette, color_map; destruct (nbits =? 3); discriminate).
  destruct (min_by_first_minimum (euclidean sample) palette (0, 0, 0) Hne)
    as (i & Hi & Hmin & _ & Hlt).
  exists i. split; [exact Hi|].
  unfold classify. fold palette. rewrite Hmin. cbn [bind]. unfold index.
  rewrite (index_from_first color_eqb (0, 0, 0)); [reflexivity| | |].
  - intros a. now apply color_eqb_eq.
  - exact Hi.
  - intros j Hj. destruct (color_eqb _ _) eqn:E; [|reflexivity].
    apply color_eqb_eq in E. specialize (Hlt j Hj).
    rewrite E in Hlt. exfalso. apply (Rlt_irrefl _ Hlt).
Qed.

Lemma classify_index_spec (nbits : Z) (sample : Sample) :
  classify nbits sample = Ok (classify_index nbits sample) /\
  0 <= classify_index nbits sample < Z.of_nat (length (color_map nbits)).
Proof.
  unfold classify_index.
  destruct (classify_Ok nbits sample) as (i & Hi & ->). split; [reflexivity|lia].
Qed.

Lemma length_concat_rows {A : Type} (ls : list (list A)) (c : nat) :
  Forall (fun l => length l = c) ls ->
  length (concat ls) = (length ls * c)%nat.
Proof.
  induction 1 as [|l tl Hl _ IH]; cbn [concat length]; [reflexivity|].
  rewrite length_app, IH, Hl. lia.
Qed.

(** [recognize_hccb] never raises: an image of [h] rows of [w] pixels
    gives [(h // 25) * (w // 25)] symbols, none when it is smaller than
    one block of 25 by 25 pixels, and every symbol is an index of the
    palette of the bit depth. *)
Theorem recognize_hccb_total :
  forall (hccb_code : Image) (nbits : Z),
    exists data : list Z,
      recognize_hccb hccb_code nbits = Ok data /\
      length data
      = (length hccb_code / 25 * (length (hd [] hccb_code) / 25))%nat /\
      Forall (fun k => 0 <= k < Z.of_nat (length (color_map nbits))) data.
Proof.
  intros img nbits. unfold recognize_hccb.
  set (nrows := (length img / 25)%nat).
  set (ncols := (length (hd [] img) / 25)%nat).
  rewrite (mapM_Ok _
             (fun i => map (fun j => classify_index nbits
                                       (block_mean img (i * 25) (j * 25)))
                           (seq 0 ncols))).
  - cbn [bind]. eexists. split; [reflexivity|]. split.
    + rewrite (length_concat_rows _ ncols).
      * now rewrite length_map, length_seq.
      * apply Forall_forall. intros l Hl. apply in_map_iff in Hl.
        destruct Hl as [i [<- _]]. now rewrite length_map, length_seq.
    + apply Forall_concat. apply Forall_forall. intros l Hl.
      apply in_map_iff in Hl. destruct Hl as [i [<- _]].
      apply Forall_forall. intros k Hk. apply in_map_iff in Hk.
      destruct Hk as [j [<- _]]. apply classify_index_spec.
  - intros i _. apply mapM_Ok. intros j _. apply classify_index_spec.
Qed.

Lemma symbol_byte_range (nbits value : Z) :
  0 <= Z.shiftl (Z.land value (mask nbits)) (shift nbits) <= 56 /\
  Z.shiftl (Z.land value (mask nbits)) (shift nbits) mod 4 = 0.
Proof.
  unfold mask, shift. destruct (nbits =? 2).
  - change 3 with (Z.ones 2). rewrite Z.land_ones, Z.shiftl_mul_pow2 by lia.
    change (2 ^ 2) with 4.
    pose proof (Z.mod_pos_bound value 4 ltac:(lia)) as Hm.
    split; [lia|]. apply Z.mod_mul. lia.
  - change 7 with (Z.ones 3). rewrite Z.land_ones, Z.shiftl_mul_pow2 by lia.
    change (2 ^ 3) with 8.
    pose proof (Z.mod_pos_bound value 8 ltac:(lia)) as Hm.
    split; [lia|].
    replace (value mod 8 * 8) with (2 * (value mod 8) * 4) by lia.
    apply Z.mod_mul. lia.
Qed.

(** [restore_data] on any integers and any bit depth.  The decoder is
    handed one byte per symbol, each a multiple of 4 between 0 and 56, so
    appending it to the bytearray cannot fail.  What comes back is never
    a list of bytes: it is the list of the three bytearrays the decoder
    returned.  A [ReedSolomonError] never escapes.  For a codec that meets
    the laws and at most 255 symbols, the message among the three has as
    many bytes as there are symbols beyond [ecc_symbols] (none when there
    are fewer symbols than that). *)
Theorem restore_data_hands_one_byte_per_symbol :
  forall (codec : RSCodec) (data : list Z) (nbits ecc_symbols : Z),
    length (symbol_bytes nbits data) = length data /\
    Forall (fun b => 0 <= b <= 56 /\ b mod 4 = 0) (symbol_bytes nbits data) /\
    to_bytes (symbol_bytes nbits data) = Ok (symbol_bytes nbits data) /\
    restore_data codec data nbits ecc_symbols <> Raise ReedSolomonError /\
    (forall restored : list (list Z),
       restore_data codec data nbits ecc_symbols = Ok restored ->
       exists message message_ecc errata_pos : list Z,
         rs_decode codec ecc_symbols (symbol_bytes nbits data)
         = Ok (message, message_ecc, errata_pos) /\
         restored = [ message; message_ecc; errata_pos ] /\
         (RSLaws codec -> 0 < ecc_symbols ->
          Z.of_nat (length data) <= 255 ->
          length message = (length data - Z.to_nat ecc_symbols)%nat)).
Proof.
  intros codec data nbits nsym.
  assert (Hrange : Forall (fun b => 0 <= b <= 56 /\ b mod 4 = 0)
                          (symbol_bytes nbits data)).
  { apply Forall_forall. intros b Hb. unfold symbol_bytes in Hb.
    apply in_map_iff in Hb. destruct Hb as [v [<- _]].
    apply symbol_byte_range. }
  split; [unfold symbol_bytes; apply length_map|].
  split; [exact Hrange|]. split.
  - unfold to_bytes.
    replace (forallb is_byte (symbol_bytes nbits data)) with true;
      [reflexivity|].
    symmetry. apply forallb_forall. intros b Hb.
    rewrite Forall_forall in Hrange. specialize (Hrange b Hb).
    unfold is_byte. apply andb_true_intro.
    split; [apply Z.leb_le|apply Z.ltb_lt]; lia.
  - unfold restore_data.
    destruct (rs_decode codec nsym (symbol_bytes nbits data))
      as [[[m f] e]|err] eqn:Hdec.
    + split; [discriminate|]. intros restored H. injection H as <-.
      exists m, f, e. split; [reflexivity|]. split; [reflexivity|].
      intros Hlaws Hn Hlen.
      apply (decode_block_length codec Hlaws) in Hdec.
      * cbn [decoded_message fst] in Hdec. rewrite Hdec.
        unfold symbol_bytes. now rewrite length_map.
      * exact Hn.
      * unfold symbol_bytes. now rewrite length_map.
    + destruct err; (split; [discriminate|]); intros restored H;
        discriminate.
Qed.

(** Twelve black symbols and ten parity bytes, with the reference codec:
    the twelve zero bytes are a code word for the message of two zero
    bytes. *)
Lemma restore_data_hands_witness :
  restore_data reference (repeat 0 12) 3 10
  = Ok [ [0; 0]; repeat 0 12; [] ] /\
  exists message message_ecc errata_pos : list Z,
    [ [0; 0]; repeat 0 12; [] ] = [ message; message_ecc; errata_pos ] /\
    length message = 2%nat.
Proof.
  assert (Hret : restore_data reference (repeat 0 12) 3 10
                 = Ok [ [0; 0]; repeat 0 12; [] ])
    by (vm_compute; reflexivity).
  split; [exact Hret|].
  destruct (restore_data_hands_one_byte_per_symbol reference (repeat 0 12)
              3 10) as (_ & _ & _ & _ & Hshape).
  destruct (Hshape _ Hret) as (m & f & e & _ & Heq & Hlen).
  exists m, f, e. split; [exact Heq|].
  apply (Hlen ReedSoloFacts.reference_laws); cbn; lia.
Defined.

Lemma length_symbol_bytes_eq (nbits : Z) (symbols : list Z) :
  length (symbol_bytes nbits symbols) = length symbols.
Proof. unfold symbol_bytes. apply length_map. Qed.

(** The first reader after the encoder, with no classification error:
    every framed byte [b] reaches the decoder as [8 // bits] bytes, one
    per group of [b], each group shifted left by [bits]: four bytes
    [4 * group] with two bits per symbol, two bytes [8 * group] with
    three.  The decoder is never handed the framed bytes themselves. *)
Theorem reader_bytes_after_encoder :
  forall data : list Z,
    symbol_bytes 2 (Packer.symbol_indices 2 data)
    = flat_map (fun b => [ 4 * (b mod 4); 4 * ((b / 4) mod 4);
                           4 * ((b / 16) mod 4); 4 * ((b / 64) mod 4) ]) data
    /\
    symbol_bytes 3 (Packer.symbol_indices 3 data)
    = flat_map (fun b => [ 8 * (b mod 8); 8 * ((b / 8) mod 8) ]) data /\
    (data <> [] ->
     symbol_bytes 2 (Packer.symbol_indices 2 data) <> data /\
     symbol_bytes 3 (Packer.symbol_indices 3 data) <> data).
Proof.
  intros data.
  assert (H4 : forall v, Z.shiftl (Z.land (v mod 4) 3) 2 = 4 * (v mod 4)).
  { intros v. change 3 with (Z.ones 2).
    rewrite Z.land_ones, Z.shiftl_mul_pow2 by lia. change (2 ^ 2) with 4.
    rewrite Z.mod_mod by lia. lia. }
  assert (H8 : forall v, Z.shiftl (Z.land (v mod 8) 7) 3 = 8 * (v mod 8)).
  { intros v. change 7 with (Z.ones 3).
    rewrite Z.land_ones, Z.shiftl_mul_pow2 by lia. change (2 ^ 3) with 8.
    rewrite Z.mod_mod by lia. lia. }
  assert (E2 : symbol_bytes 2 (Packer.symbol_indices 2 data)
               = flat_map (fun b => [ 4 * (b mod 4); 4 * ((b / 4) mod 4);
                                      4 * ((b / 16) mod 4);
                                      4 * ((b / 64) mod 4) ]) data).
  { unfold symbol_bytes, Packer.symbol_indices.
    induction data as [|b tl IH]; [reflexivity|].
    cbn [flat_map]. rewrite map_app, IH.
    rewrite PackerMore.value_indices_two_mod. cbn [map app mask shift Z.eqb
                                                   Pos.eqb].
    now rewrite !H4. }
  assert (E3 : symbol_bytes 3 (Packer.symbol_indices 3 data)
               = flat_map (fun b => [ 8 * (b mod 8); 8 * ((b / 8) mod 8) ])
                          data).
  { clear E2. unfold symbol_bytes, Packer.symbol_indices.
    induction data as [|b tl IH]; [reflexivity|].
    cbn [flat_map]. rewrite map_app, IH.
    rewrite PackerMore.value_indices_three_mod. cbn [map app mask shift Z.eqb
                                                     Pos.eqb].
    now rewrite !H8. }
  split; [exact E2|]. split; [exact E3|].
  intros Hne.
  assert (Hpos : (0 < length data)%nat)
    by (destruct data; [congruence|cbn; lia]).
  split; intros H; apply (f_equal (@length Z)) in H;
    rewrite length_symbol_bytes_eq, PackerFacts.length_symbol_indices in H;
    [change (Z.to_nat (8 / 2)) with 4%nat in H
    |change (Z.to_nat (8 / 3)) with 2%nat in H]; lia.
Qed.

End ReaderMore.

(* ================================================================== *)
(** * More on the second reader *)
(* ================================================================== *)

Module OpenCVMore.

Import ReedSolo Nearest OpenCV Design PyFacts NearestFacts DecodeFacts
       PackerFacts PackerMore RoundTripFacts Views.

Lemma In_COLOR_LIST (name : string) :
  In name COLOR_LIST ->
  exists k : Z, 0 <= k < 8 /\ name = nth (Z.to_nat k) COLOR_LIST EmptyString.
Proof.
  cbn. intros H.
  repeat (destruct H as [<-|H];
          [first [ exists 0; split; [lia|reflexivity]
                 | exists 1; split; [lia|reflexivity]
                 | exists 2; split; [lia|reflexivity]
                 | exists 3; split; [lia|reflexivity]
                 | exists 4; split; [lia|reflexivity]
                 | exists 5; split; [lia|reflexivity]
                 | exists 6; split; [lia|reflexivity]
                 | exists 7; split; [lia|reflexivity] ]|]).
  destruct H.
Qed.

Lemma length_bits_of_index (k : Z) :
  0 <= k < 8 ->
  (2 <= length (bits_of_name (nth (Z.to_nat k) COLOR_LIST EmptyString)))%nat.
Proof.
  intros Hk.
  assert (Hcase : k = 0 \/ k = 1 \/ k = 2 \/ k = 3
                  \/ k = 4 \/ k = 5 \/ k = 6 \/ k = 7) by lia.
  assert (Hle : forall n : nat, (2 <=? n)%nat = true -> (2 <= n)%nat)
    by (intros n; apply Nat.leb_le).
  repeat (destruct Hcase as [->|Hcase]; [apply Hle; reflexivity|]).
  subst k. apply Hle. reflexivity.
Qed.

Lemma color_bits_known (name : string) :
  In name COLOR_LIST ->
  color_bits name = Ok (bits_of_name name) /\
  (2 <= length (bits_of_name name) <= 3)%nat.
Proof.
  intros H. destruct (In_COLOR_LIST name H) as (k & Hk & ->).
  destruct (color_bits_of_index k Hk) as [Hc Hlen].
  pose proof (length_bits_of_index k Hk). split; [exact Hc|lia].
Qed.

Lemma index_from_absent (v : string) (l : list string) (k : Z) :
  ~ In v l -> index_from String.eqb v l k = Raise ValueError.
Proof.
  revert k. induction l as [|a tl IH]; intros k Hnot; [reflexivity|].
  cbn [index_from]. destruct (String.eqb_spec a v) as [->|_].
  - exfalso. apply Hnot. now left.
  - apply IH. intros Hin. apply Hnot. now right.
Qed.

Lemma color_bits_unknown (name : string) :
  ~ In name COLOR_LIST -> color_bits name = Raise ValueError.
Proof.
  intros H. unfold color_bits, index.
  rewrite (index_from_absent name COLOR_LIST 0 H).
  destruct (existsb _ _); reflexivity.
Qed.

Lemma color_bits_only_ValueError (name : string) (e : exn) :
  color_bits name = Raise e -> e = ValueError.
Proof.
  destruct (in_dec string_dec name COLOR_LIST) as [Hin|Hnot].
  - destruct (color_bits_known name Hin) as [-> _]. discriminate.
  - rewrite (color_bits_unknown name Hnot). congruence.
Qed.

Lemma length_concat_ge {A : Type} (ls : list (list A)) (n : nat) :
  Forall (fun l => (n <= length l)%nat) ls ->
  (n * length ls <= length (concat ls))%nat.
Proof.
  induction 1 as [|l tl Hl _ IH]; cbn [concat length]; [lia|].
  rewrite length_app. lia.
Qed.

Lemma grid_bits_known (color_grid : list (list string)) :
  Forall (fun name => In name COLOR_LIST) (concat color_grid) ->
  grid_bits color_grid
  = Ok (concat (map bits_of_name (concat color_grid))) /\
  (2 * length (concat color_grid)
   <= length (concat (map bits_of_name (concat color_grid)))
   <= 3 * length (concat color_grid))%nat.
Proof.
  intros Hall. rewrite Forall_forall in Hall. split.
  - unfold grid_bits. rewrite (mapM_Ok color_bits bits_of_name).
    + reflexivity.
    + intros name Hname. apply color_bits_known, Hall, Hname.
  - replace (length (concat color_grid))
      with (length (map bits_of_name (concat color_grid)))
      by apply length_map.
    split.
    + apply length_concat_ge. apply Forall_forall. intros ds Hds.
      apply in_map_iff in Hds. destruct Hds as [name [<- Hname]].
      apply color_bits_known, Hall, Hname.
    + apply length_concat_le. apply Forall_forall. intros ds Hds.
      apply in_map_iff in Hds. destruct Hds as [name [<- Hname]].
      apply color_bits_known, Hall, Hname.
Qed.

Lemma decode_colors_bytes (color_grid : list (list string)) (out : list Z) :
  decode_colors color_grid = Ok out -> forallb is_byte out = true.
Proof.
  unfold decode_colors.
  destruct (grid_bits color_grid) as [bits|e]; cbn [bind]; [|discriminate].
  destruct (mapM int2 (chunks 8 bits)) as [values|e]; cbn [bind];
    [|discriminate].
  unfold to_bytes. destruct (forallb is_byte values) eqn:E; [|discriminate].
  intros H. injection H as <-. exact E.
Qed.

(** A grid of known colour names is decoded. *)
Lemma decode_colors_known (color_grid : list (list string)) :
  Forall (fun name => In name COLOR_LIST) (concat color_grid) ->
  exists out : list Z,
    decode_colors color_grid = Ok out /\
    forallb is_byte out = true /\
    (2 * length (concat color_grid) <= 8 * length out)%nat /\
    (8 * length out <= 3 * length (concat color_grid) + 7)%nat.
Proof.
  intros Hall. destruct (grid_bits_known color_grid Hall) as [Hbits Hlen].
  pose proof (decode_colors_groups color_grid _ Hbits) as Hdec.
  eexists. split; [exact Hdec|].
  split; [apply (decode_colors_bytes color_grid _ Hdec)|].
  rewrite length_map, length_chunks.
  set (n := length (concat (map bits_of_name (concat color_grid)))) in *.
  replace (n + 8 - 1)%nat with (n + 7)%nat by lia.
  pose proof (Nat.div_mod_eq (n + 7) 8) as Hdm.
  pose proof (Nat.mod_upper_bound (n + 7) 8 ltac:(lia)) as Hm.
  lia.
Qed.

(** When [decode_colors] fails and when it does not.  A grid whose names
    are all among the eight colour names is decoded into bytes, between a
    quarter and three eighths (rounded up) of a byte per cell; a grid with
    any other name raises [ValueError], and no other exception is ever
    raised. *)
Theorem decode_colors_fails_on_unknown_names_only :
  forall color_grid : list (list string),
    (Forall (fun name => In name COLOR_LIST) (concat color_grid) ->
     exists out : list Z,
       decode_colors color_grid = Ok out /\
       forallb is_byte out = true /\
       (2 * length (concat color_grid) <= 8 * length out)%nat /\
       (8 * length out <= 3 * length (concat color_grid) + 7)%nat) /\
    (Exists (fun name => ~ In name COLOR_LIST) (concat color_grid) ->
     decode_colors color_grid = Raise ValueError) /\
    (forall e : exn, decode_colors color_grid = Raise e -> e = ValueError).
Proof.
  intros color_grid.
  assert (Hunknown :
            Exists (fun name => ~ In name COLOR_LIST) (concat color_grid) ->
            decode_colors color_grid = Raise ValueError).
  { intros Hex. apply Exists_exists in Hex. destruct Hex as (name & Hin & Hnot).
    unfold decode_colors, grid_bits.
    rewrite (mapM_Raise color_bits ValueError); [reflexivity| |].
    - intros a _ e He. apply (color_bits_only_ValueError a e He).
    - exists name. split; [exact Hin|apply color_bits_unknown, Hnot]. }
  split; [apply decode_colors_known|]. split; [exact Hunknown|].
  intros e He.
  destruct (Forall_Exists_dec (fun name => In name COLOR_LIST)
              (fun name => in_dec string_dec name COLOR_LIST)
              (concat color_grid)) as [Hall|Hex].
  - destruct (decode_colors_known color_grid Hall) as (out & Hout & _).
    congruence.
  - rewrite (Hunknown Hex) in He. congruence.
Qed.

Lemma bits_of_low_index (k : Z) :
  0 <= k < 4 ->
  bits_of_name (nth (Z.to_nat k) COLOR_LIST EmptyString) = two_bits k.
Proof.
  intros Hk. assert (Hcase : k = 0 \/ k = 1 \/ k = 2 \/ k = 3) by lia.
  destruct Hcase as [-> | [-> | [-> | ->]]]; reflexivity.
Qed.

Lemma chunks_cons_block {A : Type} (step : nat) (a l : list A) :
  (0 < step)%nat -> length a = step ->
  chunks step (a ++ l) = a :: chunks step l.
Proof.
  intros Hs Ha. unfold chunks. rewrite length_app, Ha.
  replace ((step + length l + step - 1) / step)%nat
    with (S ((length l + step - 1) / step)).
  - cbn [seq map]. f_equal.
    + unfold slice. cbn [Nat.mul skipn Nat.add].
      rewrite Nat.sub_0_r, <- Ha. apply ReedSoloFacts.firstn_length_app.
    + rewrite <- seq_shift, map_map. apply map_ext. intros k.
      unfold slice. f_equal; [lia|].
      rewrite skipn_app, Ha.
      rewrite skipn_all2 by (rewrite Ha; cbn; lia).
      cbn [app]. f_equal. cbn. lia.
  - replace (step + length l + step - 1)%nat
      with (1 * step + (length l + step - 1))%nat by lia.
    rewrite Nat.div_add_l by lia. lia.
Qed.

Lemma length_byte_bits (b : Z) : length (byte_bits b) = 8%nat.
Proof. unfold byte_bits. rewrite value_indices_two. reflexivity. Qed.

Lemma chunks_byte_bits (data : list Z) :
  chunks 8 (flat_map byte_bits data) = map byte_bits data.
Proof.
  induction data as [|b tl IH]; [apply chunks_nil|].
  cbn [flat_map map].
  rewrite chunks_cons_block by (lia || apply length_byte_bits).
  now rewrite IH.
Qed.

Lemma bits_value_byte_bits (b : Z) :
  bits_value (byte_bits b) = reverse_groups b.
Proof.
  unfold byte_bits. rewrite value_indices_two_mod.
  unfold bits_value, two_bits, reverse_groups. cbn [flat_map app fold_left].
  Z.div_mod_to_equations. lia.
Qed.

Lemma flat_map_flat_map {A B C : Type} (f : A -> list B) (g : B -> list C)
    (l : list A) :
  flat_map g (flat_map f l) = flat_map (fun a => flat_map g (f a)) l.
Proof.
  induction l as [|a tl IH]; [reflexivity|].
  cbn [flat_map]. now rewrite flat_map_app, IH.
Qed.

Lemma grid_bits_two_bit (color_grid : list (list string)) (data : list Z) :
  concat color_grid = symbol_names (Packer.symbol_indices 2 data) ->
  grid_bits color_grid = Ok (flat_map byte_bits data).
Proof.
  intros Hgrid.
  pose proof (symbol_indices_range 2 data (or_introl eq_refl)) as Hsym.
  rewrite Forall_forall in Hsym. change (2 ^ 2) with 4 in Hsym.
  unfold grid_bits. rewrite Hgrid.
  rewrite (mapM_Ok color_bits bits_of_name).
  - cbn [bind]. f_equal. unfold symbol_names. rewrite map_map.
    rewrite <- flat_map_concat_map.
    unfold byte_bits, Packer.symbol_indices.
    rewrite <- flat_map_flat_map.
    fold (Packer.symbol_indices 2 data). clear Hgrid.
    induction (Packer.symbol_indices 2 data) as [|k tl IH]; [reflexivity|].
    cbn [flat_map]. rewrite bits_of_low_index by (apply Hsym; now left).
    f_equal. apply IH. intros k' Hk'. apply Hsym. now right.
  - intros name Hname. unfold symbol_names in Hname.
    apply in_map_iff in Hname. destruct Hname as [k [<- Hk]].
    apply (color_bits_of_index k). specialize (Hsym k Hk). lia.
Qed.

(** The second reader after the encoder, with two bits per symbol and no
    classification error: the encoder writes the four groups of a byte
    from the least significant one, the reader reads the first symbol as
    the most significant group, so every byte comes back with its four
    two-bit groups in the opposite order.  The byte count is kept, and a
    byte comes back unchanged exactly when it reads the same from both
    ends. *)
Theorem two_bit_decode_reverses_groups :
  forall (color_grid : list (list string)) (data : list Z),
    concat color_grid = symbol_names (Packer.symbol_indices 2 data) ->
    decode_colors color_grid = Ok (map reverse_groups data) /\
    (decode_colors color_grid = Ok data
     <-> Forall (fun b => reverse_groups b = b) data).
Proof.
  intros color_grid data Hgrid.
  assert (Hdec : decode_colors color_grid = Ok (map reverse_groups data)).
  { rewrite (decode_colors_groups color_grid _
               (grid_bits_two_bit color_grid data Hgrid)).
    rewrite chunks_byte_bits, map_map. f_equal.
    apply map_ext. apply bits_value_byte_bits. }
  split; [exact Hdec|]. rewrite Hdec. split.
  - intros H. injection H as H. apply Forall_forall. intros b Hb.
    clear Hdec Hgrid. induction data as [|a tl IH]; [destruct Hb|].
    cbn [map] in H. injection H as Ha Htl.
    destruct Hb as [<-|Hb]; [exact Ha|apply (IH Htl Hb)].
  - intros H. f_equal. rewrite <- (map_id data) at 2.
    apply map_ext_in. intros b Hb. rewrite Forall_forall in H. apply H, Hb.
Qed.

Lemma two_bit_decode_reverses_witness :
  decode_colors [ symbol_names (Packer.symbol_indices 2 [27; 255]) ]
  = Ok [228; 255].
Proof.
  assert (Hgrid : concat [ symbol_names (Packer.symbol_indices 2 [27; 255]) ]
                  = symbol_names (Packer.symbol_indices 2 [27; 255]))
    by (cbn [concat]; apply app_nil_r).
  exact (proj1 (two_bit_decode_reverses_groups _ [27; 255] Hgrid)).
Defined.

End OpenCVMore.

(* ================================================================== *)
(** * Cropping, grid size and sampling *)
(* ================================================================== *)

Module ScanFacts.

Import ReedSolo Nearest OpenCV Scan PyFacts NearestFacts DecodeFacts
       OpenCVMore Views.

Lemma classify_pixel_known (color : Sample) :
  exists name : string,
    classify_pixel color = Ok name /\ In name COLOR_LIST.
Proof.
  assert (Hne : COLOR_MAP <> []) by discriminate.
  destruct (min_by_first_minimum (fun e => euclidean color (snd e))
              COLOR_MAP (EmptyString, (0, 0, 0)) Hne)
    as (i & Hi & Hmin & _).
  eexists. unfold classify_pixel. rewrite Hmin. cbn [bind].
  split; [reflexivity|]. unfold COLOR_LIST. apply in_map, nth_In, Hi.
Qed.

(** [classify_color] reads one pixel: inside the image it returns one of
    the eight colour names; a row or a column at or past the end of the
    image raises [IndexError]. *)
Theorem classify_color_bounds :
  forall (image : list (list Color)) (px py : Z),
    (0 <= py < Z.of_nat (length image) ->
     0 <= px < Z.of_nat (length (nth (Z.to_nat py) image [])) ->
     exists name : string,
       classify_color image px py = Ok name /\ In name COLOR_LIST) /\
    (Z.of_nat (length image) <= py ->
     classify_color image px py = Raise IndexError) /\
    (0 <= py < Z.of_nat (length image) ->
     Z.of_nat (length (nth (Z.to_nat py) image [])) <= px ->
     classify_color image px py = Raise IndexError).
Proof.
  intros image px py. unfold classify_color. split; [|split].
  - intros Hy Hx. rewrite (getitem_Ok image py []) by exact Hy. cbn [bind].
    rewrite (getitem_Ok _ px (0, 0, 0)) by exact Hx. cbn [bind].
    apply classify_pixel_known.
  - intros Hy. now rewrite getitem_past_end.
  - intros Hy Hx. rewrite (getitem_Ok image py []) by exact Hy. cbn [bind].
    now rewrite getitem_past_end.
Qed.

Lemma classify_color_bounds_witness :
  exists name : string,
    classify_color [ [ (0, 0, 255); (255, 255, 255) ] ] 1 0 = Ok name /\
    In name COLOR_LIST.
Proof.
  apply (proj1 (classify_color_bounds
                  [ [ (0, 0, 255); (255, 255, 255) ] ] 1 0)); cbn; lia.
Defined.

Lemma In_range_from_one (n k : Z) :
  In k (range_from_one n) <-> 1 <= k <= n.
Proof.
  unfold range_from_one. rewrite in_map_iff. split.
  - intros [i [<- Hi]]. apply In_range in Hi. lia.
  - intros Hk. exists (k - 1). split; [lia|]. apply In_range. lia.
Qed.

Lemma length_range_from_one (n : Z) :
  length (range_from_one n) = Z.to_nat n.
Proof. unfold range_from_one. now rewrite length_map, length_range. Qed.

(** A sampling position is inside: [k * (size // (n + 1)) < size] for
    [1 <= k <= n]. *)
Lemma sample_inside (size n k : Z) :
  1 <= size -> 1 <= k <= n -> 0 <= k * (size / (n + 1)) < size.
Proof.
  intros Hsize Hk.
  pose proof (Z.div_mod size (n + 1) ltac:(lia)) as Hdm.
  pose proof (Z.mod_pos_bound size (n + 1) ltac:(lia)) as Hm.
  assert (Hq : 0 <= size / (n + 1)) by (apply Z.div_pos; lia).
  nia.
Qed.

Lemma sampled_name_inside (image : Image) (wd : Z) (px py : Z) :
  Forall (fun row => Z.of_nat (length row) = wd) image ->
  0 <= py < Z.of_nat (length image) -> 0 <= px < wd ->
  classify_color image px py = Ok (sampled_name image px py) /\
  In (sampled_name image px py) COLOR_LIST.
Proof.
  intros Hrect Hy Hx. unfold sampled_name, classify_color.
  rewrite (getitem_Ok image py []) by exact Hy. cbn [bind].
  assert (Hrow : Z.of_nat (length (nth (Z.to_nat py) image [])) = wd).
  { rewrite Forall_forall in Hrect. apply Hrect, nth_In. lia. }
  rewrite (getitem_Ok (nth (Z.to_nat py) image []) px (0, 0, 0))
    by (rewrite Hrow; exact Hx).
  cbn [bind].
  destruct (classify_pixel_known
              (to_sample (nth (Z.to_nat px)
                            (nth (Z.to_nat py) image []) (0, 0, 0))))
    as (name & -> & Hin).
  split; [reflexivity|exact Hin].
Qed.

(** The sampling loop on a rectangular image with at least one pixel and
    a grid of [nrows >= 0] by [ncols >= 0] cells: every sampling position
    is inside the image, so no [IndexError] is raised; the grid has
    [nrows] rows of [ncols] colour names, all among the eight names, and
    [decode_colors] accepts it. *)
Theorem sample_grid_stays_inside :
  forall (hccb_image : Image) (nrows ncols : Z),
    hccb_image <> [] ->
    hd [] hccb_image <> [] ->
    Forall (fun row => length row = length (hd [] hccb_image)) hccb_image ->
    0 <= nrows -> 0 <= ncols ->
    exists color_grid : list (list string),
      sample_grid hccb_image nrows ncols = Ok color_grid /\
      Z.of_nat (length color_grid) = nrows /\
      Forall (fun row => Z.of_nat (length row) = ncols
                         /\ Forall (fun name => In name COLOR_LIST) row)
             color_grid /\
      exists encoded : list Z, decode_colors color_grid = Ok encoded.
Proof.
  intros img nrows ncols Hne Hne0 Hrect Hr Hc.
  pose proof (ReedSoloFacts.nonempty_length img Hne) as Hh.
  pose proof (ReedSoloFacts.nonempty_length (hd [] img) Hne0) as Hw.
  set (wd := Z.of_nat (length (hd [] img))) in *.
  set (ht := Z.of_nat (length img)) in *.
  assert (Hrect' : Forall (fun row => Z.of_nat (length row) = wd) img).
  { apply Forall_forall. intros row Hrow. rewrite Forall_forall in Hrect.
    unfold wd. f_equal. apply Hrect, Hrow. }
  set (grid := map (fun i => map (fun j => sampled_name img
                                             (j * (wd / (ncols + 1)))
                                             (i * (ht / (nrows + 1))))
                                 (range_from_one ncols))
                   (range_from_one nrows)).
  assert (Hcell : forall i j, 1 <= i <= nrows -> 1 <= j <= ncols ->
            classify_color img (j * (wd / (ncols + 1))) (i * (ht / (nrows + 1)))
            = Ok (sampled_name img (j * (wd / (ncols + 1)))
                               (i * (ht / (nrows + 1)))) /\
            In (sampled_name img (j * (wd / (ncols + 1)))
                             (i * (ht / (nrows + 1)))) COLOR_LIST).
  { intros i j Hi Hj. apply (sampled_name_inside img wd); [exact Hrect'| |].
    - apply sample_inside; unfold ht; lia.
    - apply sample_inside; unfold wd; lia. }
  assert (Hgrid : sample_grid img nrows ncols = Ok grid).
  { unfold sample_grid. fold wd ht.
    replace (ncols + 1 =? 0) with false by (symmetry; apply Z.eqb_neq; lia).
    replace (nrows + 1 =? 0) with false by (symmetry; apply Z.eqb_neq; lia).
    unfold grid. apply mapM_Ok. intros i Hi. apply In_range_from_one in Hi.
    apply mapM_Ok. intros j Hj. apply In_range_from_one in Hj.
    apply (Hcell i j Hi Hj). }
  assert (Hnames : Forall (fun row => Z.of_nat (length row) = ncols
                           /\ Forall (fun name => In name COLOR_LIST) row)
                          grid).
  { apply Forall_forall. intros row Hrow. unfold grid in Hrow.
    apply in_map_iff in Hrow. destruct Hrow as [i [<- Hi]].
    apply In_range_from_one in Hi. split.
    - rewrite length_map, length_range_from_one. lia.
    - apply Forall_forall. intros name Hname. apply in_map_iff in Hname.
      destruct Hname as [j [<- Hj]]. apply In_range_from_one in Hj.
      apply (Hcell i j Hi Hj). }
  exists grid. split; [exact Hgrid|]. split.
  - unfold grid. rewrite length_map, length_range_from_one. lia.
  - split; [exact Hnames|].
    destruct (decode_colors_known grid) as (out & Hout & _).
    + apply Forall_concat. apply Forall_forall. intros row Hrow.
      rewrite Forall_forall in Hnames. apply (Hnames row Hrow).
    + exists out. exact Hout.
Qed.

Lemma sample_grid_stays_witness :
  exists color_grid : list (list string),
    sample_grid [ [ (0, 0, 255); (255, 255, 255) ];
                  [ (0, 255, 0); (255, 0, 0) ] ] 1 1 = Ok color_grid /\
    Z.of_nat (length color_grid) = 1.
Proof.
  set (img := [ [ (0, 0, 255); (255, 255, 255) ];
                [ (0, 255, 0); (255, 0, 0) ] ] : Image).
  assert (H1 : img <> []) by discriminate.
  assert (H2 : hd [] img <> []) by discriminate.
  assert (H3 : Forall (fun row => length row = length (hd [] img)) img)
    by (repeat constructor).
  assert (H4 : 0 <= 1) by lia.
  destruct (sample_grid_stays_inside img 1 1 H1 H2 H3 H4 H4)
    as (grid & Hgrid & Hlen & _).
  exists grid. split; [exact Hgrid|exact Hlen].
Defined.

(** The crop of [find_hccb].  For a bounding rectangle inside an image of
    [image_width] by [image_height] pixels, the rectangle grown by the
    margin still lies inside the image and contains the bounding
    rectangle; it starts at most one margin before it and ends at most
    two margins after it (the width is cut to the image only after the
    origin was clamped at 0), and the cropped image has exactly its height
    and width. *)
Theorem add_margin_stays_inside :
  forall (image : Image) (image_width image_height x0 y0 w0 h0 : Z),
    Z.of_nat (length image) = image_height ->
    Forall (fun row => Z.of_nat (length row) = image_width) image ->
    0 <= x0 -> 0 <= y0 -> 0 <= w0 -> 0 <= h0 ->
    x0 + w0 <= image_width -> y0 + h0 <= image_height ->
    exists x1 y1 w1 h1 : Z,
      add_margin image_width image_height (x0, y0, w0, h0)
      = (x1, y1, w1, h1) /\
      0 <= x1 <= x0 /\ 0 <= y1 <= y0 /\
      x0 + w0 <= x1 + w1 <= image_width /\
      y0 + h0 <= y1 + h1 <= image_height /\
      x0 - x1 <= margin /\ y0 - y1 <= margin /\
      (x1 + w1) - (x0 + w0) <= 2 * margin /\
      (y1 + h1) - (y0 + h0) <= 2 * margin /\
      w1 <= w0 + 2 * margin /\ h1 <= h0 + 2 * margin /\
      Z.of_nat (length (crop image (x1, y1, w1, h1))) = h1 /\
      Forall (fun row => Z.of_nat (length row) = w1)
             (crop image (x1, y1, w1, h1)).
Proof.
  intros image W H x0 y0 w0 h0 Hh Hrect Hx Hy Hw Hhh Hxw Hyh.
  do 4 eexists. split; [reflexivity|]. unfold margin.
  repeat (split; [lia|]). split.
  - unfold crop. rewrite length_map, length_slice. lia.
  - apply Forall_forall. intros row Hrow. unfold crop in Hrow.
    apply in_map_iff in Hrow. destruct Hrow as [r [<- Hr]].
    apply In_slice in Hr. rewrite Forall_forall in Hrect.
    specialize (Hrect r Hr). rewrite length_slice. lia.
Qed.

Lemma add_margin_stays_witness :
  exists x1 y1 w1 h1 : Z,
    add_margin 4 3 (1, 1, 2, 1) = (x1, y1, w1, h1) /\
    0 <= x1 <= 1 /\ 1 + 2 <= x1 + w1 <= 4.
Proof.
  set (img := repeat (repeat (0, 0, 0) 4) 3 : Image).
  assert (Hh : Z.of_nat (length img) = 3) by reflexivity.
  assert (Hrect : Forall (fun row => Z.of_nat (length row) = 4) img)
    by (repeat constructor).
  destruct (add_margin_stays_inside img 4 3 1 1 2 1 Hh Hrect
              ltac:(lia) ltac:(lia) ltac:(lia) ltac:(lia)
              ltac:(lia) ltac:(lia))
    as (x1 & y1 & w1 & h1 & Heq & Hx & _ & Hxw & _).
  exists x1, y1, w1, h1. repeat split; try assumption; lia.
Defined.

Lemma length_nodup_le (l : list Z) :
  (length (nodup Z.eq_dec l) <= length l)%nat.
Proof.
  induction l as [|a tl IH]; [reflexivity|].
  cbn [nodup]. destruct (in_dec Z.eq_dec a tl); cbn [length]; lia.
Qed.

Lemma nodup_nil_iff (l : list Z) :
  length (nodup Z.eq_dec l) = 0%nat <-> l = [].
Proof.
  split; [|intros ->; reflexivity].
  destruct l as [|a tl]; [reflexivity|]. intros H.
  assert (Hin : In a (nodup Z.eq_dec (a :: tl)))
    by (apply nodup_In; now left).
  destruct (nodup Z.eq_dec (a :: tl)); [destruct Hin|discriminate].
Qed.

Lemma map_nil_iff {A B : Type} (f : A -> B) (l : list A) :
  map f l = [] <-> l = [].
Proof. destruct l; split; intros H; try reflexivity; discriminate. Qed.

(** The grid size read off the detected segments: each count is at least
    -1, both together use at most the number of segments, and a count is
    -1 exactly when no segment of its direction was detected. *)
Theorem determine_grid_size_counts :
  forall lines : list Line,
    exists nrows ncols : Z,
      determine_grid_size (Some lines) = Some (nrows, ncols) /\
      -1 <= nrows /\ -1 <= ncols /\
      nrows + ncols + 2 <= Z.of_nat (length lines) /\
      (nrows = -1 <-> filter is_horizontal lines = []) /\
      (ncols = -1 <-> filter (fun l => negb (is_horizontal l)) lines = []).
Proof.
  intros lines. do 2 eexists. split; [reflexivity|].
  set (hs := filter is_horizontal lines).
  set (vs := filter (fun l => negb (is_horizontal l)) lines).
  pose proof (length_nodup_le (map line_y1 hs)) as Hy.
  pose proof (length_nodup_le (map line_x1 vs)) as Hx.
  rewrite length_map in Hy, Hx.
  pose proof (filter_length is_horizontal lines) as Hsum.
  fold hs vs in Hsum.
  pose proof (nodup_nil_iff (map line_y1 hs)) as Hy0.
  pose proof (nodup_nil_iff (map line_x1 vs)) as Hx0.
  rewrite map_nil_iff in Hy0, Hx0.
  repeat split; try lia.
  - intros H. apply Hy0. lia.
  - intros H. apply Hy0 in H. lia.
  - intros H. apply Hx0. lia.
  - intros H. apply Hx0 in H. lia.
Qed.

Lemma determine_grid_size_shape (lines : list Line) :
  exists nrows ncols : Z,
    determine_grid_size (Some lines) = Some (nrows, ncols) /\
    (filter is_horizontal lines = [] -> nrows = -1) /\
    (filter (fun l => negb (is_horizontal l)) lines = [] -> ncols = -1).
Proof.
  do 2 eexists. split; [reflexivity|].
  split; intros ->; reflexivity.
Qed.

(** [read_hccb] without a usable grid.  With no region or no segments at
    all it gives up and returns [None]; but when segments were detected
    and none of them is horizontal, or none is vertical, the count of that
    direction is -1 and the step of the sampling loop divides by zero:
    [ZeroDivisionError], whatever the image and the codec. *)
Theorem read_hccb_image_without_grid :
  forall (codec : RSCodec) (hccb_image : Image) (lines : list Line),
    read_hccb_image codec None (Some lines) = Ok None /\
    read_hccb_image codec (Some hccb_image) None = Ok None /\
    (filter is_horizontal lines = []
     \/ filter (fun l => negb (is_horizontal l)) lines = [] ->
     read_hccb_image codec (Some hccb_image) (Some lines)
     = Raise ZeroDivisionError).
Proof.
  intros codec img lines. split; [reflexivity|]. split; [reflexivity|].
  intros Hnone.
  destruct (determine_grid_size_shape lines)
    as (nrows & ncols & Hsize & Hr & Hc).
  unfold read_hccb_image. rewrite Hsize.
  assert (Hcase : ncols = -1 \/ (ncols <> -1 /\ nrows = -1)).
  { destruct (Z.eq_dec ncols (-1)) as [E|E]; [now left|right].
    split; [exact E|]. destruct Hnone as [H|H]; [now apply Hr|].
    exfalso. apply E. now apply Hc. }
  unfold sample_grid. destruct Hcase as [-> | [Hcn ->]]; [reflexivity|].
  replace (ncols + 1 =? 0) with false by (symmetry; apply Z.eqb_neq; lia).
  reflexivity.
Qed.

Lemma read_hccb_image_without_witness :
  read_hccb_image reference (Some [ [ (0, 0, 0) ] ])
    (Some [ (0, 0, 0, 50); (30, 0, 30, 50) ])
  = Raise ZeroDivisionError.
Proof.
  apply (proj2 (proj2 (read_hccb_image_without_grid reference
                         [ [ (0, 0, 0) ] ]
                         [ (0, 0, 0, 50); (30, 0, 30, 50) ]))).
  left. reflexivity.
Defined.

End ScanFacts.
